(** * LTX video generator: LoRA weight merge, frame adjustment, stage
      transition and request loop

    A shallow embedding of [Resources/av_generator_lora.py]
    ([apply_lora_weights], the frame adjustment and the stage transition
    of [generate_video_with_audio_lora]) and of [Resources/ltx_server.py]
    ([main]'s request loop), with the properties the specification states
    about them.

    Conventions of the embedding:
    - a Python [str] is a [string] whose characters are the code points
      below 256 (the Latin-1 block of Unicode);
    - a Python [dict] iterated in insertion order is an association list;
    - the weights of the linear layers live in a store keyed by the identity
      of the layer object; the module graph itself is never changed by the
      merge;
    - tensors are matrices (lists of rows) with a dtype tag; their
      arithmetic is a parameter ([Arith]) with two instances: exact
      rationals, for the statements the specification makes about the
      mathematics of the merge, and IEEE 754 binary formats, for the
      statements it makes about bits. *)

From Stdlib Require Import ZArith QArith Qround Qcanon Lia Bool List.
From Stdlib Require Import Strings.String Strings.Ascii.
From Stdlib Require Import Floats.SpecFloat.
From stdpp Require Import base option list gmap.

Import ListNotations.
Local Open Scope string_scope.
Local Open Scope list_scope.

(* ===================================================================== *)
(** * Python string operations *)
(* ===================================================================== *)

Module PyStr.

(** [s.startswith(p)] *)
Fixpoint startswith (p s : string) : bool :=
  match p, s with
  | EmptyString, _ => true
  | String _ _, EmptyString => false
  | String a p', String b s' => Ascii.eqb a b && startswith p' s'
  end.

(** [p in s] *)
Fixpoint contains (p s : string) : bool :=
  match s with
  | EmptyString => startswith p EmptyString
  | String _ s' => startswith p s || contains p s'
  end.

(** Scan of [s.replace(old, new)] for a non-empty [old]: [skip] counts
    the characters of a matched occurrence still to be dropped. *)
Fixpoint replace_from (old new : string) (skip : nat) (s : string) : string :=
  match s with
  | EmptyString => EmptyString
  | String c s' =>
      match skip with
      | S k => replace_from old new k s'
      | O =>
          if startswith old s
          then new ++ replace_from old new (String.length old - 1) s'
          else String c (replace_from old new 0 s')
      end
  end.

(** With an empty [old] Python puts [new] before every character and at
    the end. *)
Fixpoint interleave (new s : string) : string :=
  match s with
  | EmptyString => new
  | String c s' => new ++ String c (interleave new s')
  end.

(** [s.replace(old, new)]: every non-overlapping occurrence, left to
    right. *)
Definition replace (old new s : string) : string :=
  match old with
  | EmptyString => interleave new s
  | String _ _ => replace_from old new 0 s
  end.

(** [s.split(sep)[0]] for a non-empty [sep]: the text before the first
    occurrence of [sep], all of [s] when there is none. *)
Fixpoint split_head (sep s : string) : string :=
  match s with
  | EmptyString => EmptyString
  | String c s' =>
      if startswith sep s then EmptyString else String c (split_head sep s')
  end.

(** [s.split(c)] for a one-character separator. *)
Fixpoint split_char (c : ascii) (s : string) : list string :=
  match s with
  | EmptyString => [EmptyString]
  | String a s' =>
      if Ascii.eqb a c then EmptyString :: split_char c s'
      else match split_char c s' with
           | [] => [String a EmptyString]
           | w :: ws => String a w :: ws
           end
  end.

(** Code points: U+0030..U+0039 are the decimal digits; U+00B2, U+00B3
    and U+00B9 (superscript two, three and one) have Numeric_Type=Digit,
    so [str.isdigit] accepts them, but they are not decimal and [int]
    rejects them. *)
Definition is_decimal_char (c : ascii) : bool :=
  let n := nat_of_ascii c in (48 <=? n)%nat && (n <=? 57)%nat.

Definition is_digit_char (c : ascii) : bool :=
  let n := nat_of_ascii c in
  is_decimal_char c || (n =? 178)%nat || (n =? 179)%nat || (n =? 185)%nat.

Fixpoint all_chars (f : ascii -> bool) (s : string) : bool :=
  match s with
  | EmptyString => true
  | String c s' => f c && all_chars f s'
  end.

(** [s.isdigit()] *)
Definition isdigit (s : string) : bool :=
  negb (String.eqb s EmptyString) && all_chars is_digit_char s.

Fixpoint decimal_value (acc : Z) (s : string) : Z :=
  match s with
  | EmptyString => acc
  | String c s' => decimal_value (10 * acc + (Z.of_nat (nat_of_ascii c) - 48)) s'
  end.

(** The limit [sys.int_info.default_max_str_digits] on the length of a
    decimal literal that [int] converts. *)
Definition int_max_str_digits : nat := 4300.

(** [int(s)] on a string for which [isdigit] holds: [None] stands for
    [ValueError]. *)
Definition int_of_str (s : string) : option Z :=
  if negb (String.eqb s EmptyString) && all_chars is_decimal_char s
     && (String.length s <=? int_max_str_digits)%nat
  then Some (decimal_value 0 s)
  else None.

End PyStr.

(* ===================================================================== *)
(** * The key normalizer and the grouping of adapter keys *)
(* ===================================================================== *)

(** [sanitize_key], lines 94-109. *)
Definition sanitize_key (key : string) : string :=
  let key := PyStr.replace "model.diffusion_model." "" key in
  let key :=
    if PyStr.startswith "transformer." key
    then PyStr.replace "transformer." "" key
    else key in
  let key := PyStr.replace ".to_out.0." ".to_out." key in
  let key := PyStr.replace ".ff.net.0.proj." ".ff.proj_in." key in
  let key := PyStr.replace ".ff.net.2." ".ff.proj_out." key in
  let key := PyStr.replace ".audio_ff.net.0.proj." ".audio_ff.proj_in." key in
  let key := PyStr.replace ".audio_ff.net.2." ".audio_ff.proj_out." key in
  let key := PyStr.replace ".linear_1." ".linear1." key in
  let key := PyStr.replace ".linear_2." ".linear2." key in
  key.

(** The mapping rules of lines 101-107 alone. *)
Definition mapping_rules (key : string) : string :=
  let key := PyStr.replace ".to_out.0." ".to_out." key in
  let key := PyStr.replace ".ff.net.0.proj." ".ff.proj_in." key in
  let key := PyStr.replace ".ff.net.2." ".ff.proj_out." key in
  let key := PyStr.replace ".audio_ff.net.0.proj." ".audio_ff.proj_in." key in
  let key := PyStr.replace ".audio_ff.net.2." ".audio_ff.proj_out." key in
  let key := PyStr.replace ".linear_1." ".linear1." key in
  let key := PyStr.replace ".linear_2." ".linear2." key in
  key.

(** [s[n:]] *)
Fixpoint string_drop (n : nat) (s : string) : string :=
  match n, s with
  | S n', String _ s' => string_drop n' s'
  | _, _ => s
  end.

(** [s] without the prefix [p], when it starts with it. *)
Definition remove_prefix (p s : string) : string :=
  if PyStr.startswith p s then string_drop (String.length p) s else s.

(** The normalizer in the words of the specification: the outer prefix
    and then the redundant prefix are stripped where the key starts with
    them, the mapping rules follow, nothing else is touched. *)
Definition sanitize_key_spec (key : string) : string :=
  mapping_rules
    (remove_prefix "transformer." (remove_prefix "model.diffusion_model." key)).

(** The role a low-rank tensor plays in its pair. *)
Inductive role := Down | Up.

(** Lines 115-140: which keys the grouping loop keeps, with the base name
    and the role it reads off them; [None] is [continue]. *)
Definition classify (key : string) : option (string * role) :=
  if negb (PyStr.contains "lora" key) then None
  else if PyStr.contains "alpha" key then None
  else
    let is_down := PyStr.contains "lora_down" key || PyStr.contains "lora_A" key in
    let is_up := PyStr.contains "lora_up" key || PyStr.contains "lora_B" key in
    if negb (is_down || is_up) then None
    else if PyStr.contains "lora_down" key
      then Some (PyStr.split_head ".lora_down" key, Down)
    else if PyStr.contains "lora_up" key
      then Some (PyStr.split_head ".lora_up" key, Up)
    else if PyStr.contains "lora_A" key
      then Some (PyStr.split_head ".lora_A" key, Down)
    else if PyStr.contains "lora_B" key
      then Some (PyStr.split_head ".lora_B" key, Up)
    else None.

(** The grouping key of a kept adapter key (line 142). *)
Definition group_key (key : string) : option (string * role) :=
  match classify key with
  | Some (base_name, r) => Some (sanitize_key base_name, r)
  | None => None
  end.

(** None of the four role markers occurs in [s]. *)
Definition marker_free (s : string) : bool :=
  negb (PyStr.contains "lora_down" s || PyStr.contains "lora_up" s
        || PyStr.contains "lora_A" s || PyStr.contains "lora_B" s).

(** The alpha keys tried for a base name, in order (lines 149-153). *)
Definition alpha_key_candidates (base_name : string) : list string :=
  [(base_name ++ ".lora.alpha")%string;
   (base_name ++ ".alpha")%string;
   (base_name ++ ".lora_alpha")%string].

(** ** Dictionaries in insertion order *)

Section Dict.
Context {K V : Type} (eqb : K -> K -> bool).

Fixpoint dict_get (k : K) (d : list (K * V)) : option V :=
  match d with
  | [] => None
  | (k', v) :: d' => if eqb k k' then Some v else dict_get k d'
  end.

(** [d[k] = v]: an existing key keeps its place, a new one goes last. *)
Fixpoint dict_set (k : K) (v : V) (d : list (K * V)) : list (K * V) :=
  match d with
  | [] => [(k, v)]
  | (k', v') :: d' =>
      if eqb k k' then (k', v) :: d' else (k', v') :: dict_set k v d'
  end.
End Dict.

(* ===================================================================== *)
(** * Tensors *)
(* ===================================================================== *)

Inductive dtype := Float16 | BFloat16 | Float32 | Float64.

Definition dtype_eqb (a b : dtype) : bool :=
  match a, b with
  | Float16, Float16 | BFloat16, BFloat16
  | Float32, Float32 | Float64, Float64 => true
  | _, _ => false
  end.

(** The type the tensor runtime computes in when the operands differ. *)
Definition promote (a b : dtype) : dtype :=
  if dtype_eqb a b then a
  else match a, b with
       | Float64, _ | _, Float64 => Float64
       | _, _ => Float32
       end.

(** The scalar arithmetic of the tensor runtime and of Python floats
    ([Float64]). *)
Class Arith (num : Type) := {
  n_add : dtype -> num -> num -> num;
  n_mul : dtype -> num -> num -> num;
  n_div : dtype -> num -> num -> num;
  n_cast : dtype -> num -> num;
  n_of_nat : nat -> num;
  n_zero : num;
  n_one : num
}.

Inductive exn := ValueError | ZeroDivisionError | AttributeError.

Section Tensor.
Context {num : Type} `{Arith num}.

Record tensor := Tensor { t_dtype : dtype; t_rows : list (list num) }.

(** [t.shape] of a matrix. *)
Definition shape (t : tensor) : nat * nat :=
  (length (t_rows t), match t_rows t with [] => 0 | r :: _ => length r end).

(** [t.astype(dt)]: the tensor itself when it has that dtype. *)
Definition astype (dt : dtype) (t : tensor) : tensor :=
  if dtype_eqb (t_dtype t) dt then t
  else Tensor dt (map (map (n_cast dt)) (t_rows t)).

(** [t.item()]: the element of a one-element tensor. *)
Definition item (t : tensor) : exn + num :=
  match t_rows t with
  | [[x]] => inr (n_cast Float64 x)
  | _ => inl ValueError
  end.

(** One row of a product: the combination of the rows of [b] with the
    coefficients [u], accumulated from the left. *)
Definition row_times (dt : dtype) (u : list num) (b : list (list num))
    (width : nat) : list num :=
  fold_left
    (fun acc ub => zip_with (n_add dt) acc (map (n_mul dt (fst ub)) (snd ub)))
    (zip u b) (replicate width n_zero).

(** [a @ b] *)
Definition matmul (a b : tensor) : exn + tensor :=
  if negb (snd (shape a) =? fst (shape b))%nat then inl ValueError
  else
    let dt := promote (t_dtype a) (t_dtype b) in
    let a' := astype dt a in
    let b' := astype dt b in
    inr (Tensor dt
           (map (fun u => row_times dt u (t_rows b') (snd (shape b)))
                (t_rows a'))).

(** [t * x] for a Python float [x]: the scalar takes the tensor's
    dtype. *)
Definition mul_scalar (t : tensor) (x : num) : tensor :=
  let dt := t_dtype t in
  Tensor dt (map (map (fun e => n_mul dt e (n_cast dt x))) (t_rows t)).

(** Broadcasting of two extents. *)
Definition broadcast_dim (a b : nat) : option nat :=
  if (a =? b)%nat then Some a
  else if (a =? 1)%nat then Some b
  else if (b =? 1)%nat then Some a
  else None.

Definition expand {A} (n : nat) (dflt : A) (l : list A) : list A :=
  if (length l =? n)%nat then l else replicate n (hd dflt l).

Definition broadcast_to (r c : nat) (t : tensor) : list (list num) :=
  expand r [] (map (expand c n_zero) (t_rows t)).

(** [a + b] *)
Definition tadd (a b : tensor) : exn + tensor :=
  match broadcast_dim (fst (shape a)) (fst (shape b)),
        broadcast_dim (snd (shape a)) (snd (shape b)) with
  | Some r, Some c =>
      let dt := promote (t_dtype a) (t_dtype b) in
      inr (Tensor dt
             (zip_with (zip_with (n_add dt))
                (broadcast_to r c (astype dt a))
                (broadcast_to r c (astype dt b))))
  | _, _ => inl ValueError
  end.



End Tensor.

Arguments tensor num : clear implicits.

(* ===================================================================== *)
(** * The module graph and the path resolver *)
(* ===================================================================== *)

(** Keys of the mappings of a module graph. *)
Inductive pykey := KStr (s : string) | KInt (z : Z).

Definition pykey_eqb (a b : pykey) : bool :=
  match a, b with
  | KStr s, KStr t => String.eqb s t
  | KInt x, KInt y => Z.eqb x y
  | _, _ => false
  end.

(** What [isinstance(curr, dict)] and [isinstance(curr, list)] see. *)
Inductive container (A : Type) :=
  | CDict (items : list (pykey * A))
  | CList (elems : list A)
  | CNone.
Arguments CDict {A} items.
Arguments CList {A} elems.
Arguments CNone {A}.

(** An object of the graph: its attributes ([hasattr]/[getattr]), what it
    contains, and, when it is an [nn.Linear], the identity under which the
    store holds its weight. *)
#[local] Set Warnings "-register-all".
Inductive pyobj := PyObj {
  obj_attrs : list (string * pyobj);
  obj_cont : container pyobj;
  obj_linear : option nat
}.
#[local] Set Warnings "register-all".

(** One step of the walk of lines 173-190. *)
Inductive step_result :=
  | Next (o : pyobj)
  | Invalid
  | StepRaises (e : exn).

(** The last branch of the chain (line 186). *)
Definition transformer_blocks_fallback (curr : pyobj) (part : string) : step_result :=
  match dict_get String.eqb "transformer_blocks" (obj_attrs curr) with
  | Some o => if String.eqb part "transformer_blocks" then Next o else Invalid
  | None => Invalid
  end.

Definition resolve_step (curr : pyobj) (part : string) : step_result :=
  match dict_get String.eqb part (obj_attrs curr) with
  | Some o => Next o                                        (* line 174 *)
  | None =>
      match obj_cont curr with
      | CDict items =>
          match dict_get pykey_eqb (KStr part) items with
          | Some o => Next o                                (* line 176 *)
          | None =>
              if PyStr.isdigit part then
                match PyStr.int_of_str part with
                | None => StepRaises ValueError             (* int(part) *)
                | Some z =>
                    match dict_get pykey_eqb (KInt z) items with
                    | Some o => Next o                      (* line 178 *)
                    | None => transformer_blocks_fallback curr part
                    end
                end
              else transformer_blocks_fallback curr part
          end
      | CList elems =>
          if PyStr.isdigit part then
            match PyStr.int_of_str part with
            | None => StepRaises ValueError                 (* int(part) *)
            | Some idx =>
                match elems !! Z.to_nat idx with            (* line 182 *)
                | Some o => Next o
                | None => Invalid
                end
            end
          else transformer_blocks_fallback curr part
      | CNone => transformer_blocks_fallback curr part
      end
  end.

(** The walk over the segments: lines 170-190. *)
Inductive resolution :=
  | Resolved (o : pyobj)
  | Unresolved
  | ResolveRaises (e : exn).

Fixpoint resolve (curr : pyobj) (parts : list string) : resolution :=
  match parts with
  | [] => Resolved curr
  | part :: parts' =>
      match resolve_step curr part with
      | Next o => resolve o parts'
      | Invalid => Unresolved
      | StepRaises e => ResolveRaises e
      end
  end.

(* ===================================================================== *)
(** * Grouping and merging: [apply_lora_weights] *)
(* ===================================================================== *)

Section Lora.
Context {num : Type} `{Arith num}.

(** What [mx.load] returns: keys to tensors. *)
Definition lora_file := list (string * tensor num).

(** One entry of [lora_groups]. *)
Record group := Group {
  g_down : option (tensor num);
  g_up : option (tensor num);
  g_alpha : option (tensor num)
}.

Definition empty_group : group := Group None None None.

Definition set_role (r : role) (v : tensor num) (g : group) : group :=
  match r with
  | Down => Group (Some v) (g_up g) (g_alpha g)
  | Up => Group (g_down g) (Some v) (g_alpha g)
  end.

Definition set_alpha (a : tensor num) (g : group) : group :=
  Group (g_down g) (g_up g) (Some a).

(** Lines 154-157: the first candidate present in the file. *)
Fixpoint find_alpha (lora_weights : lora_file) (cands : list string)
    : option (tensor num) :=
  match cands with
  | [] => None
  | ak :: cands' =>
      match dict_get String.eqb ak lora_weights with
      | Some a => Some a
      | None => find_alpha lora_weights cands'
      end
  end.

(** The body of the grouping loop, lines 114-157. *)
Definition group_step (lora_weights : lora_file)
    (lora_groups : list (string * group)) (kv : string * tensor num)
    : list (string * group) :=
  match classify (fst kv) with
  | None => lora_groups
  | Some (base_name, type_) =>
      let sanitized_base := sanitize_key base_name in
      let g := default empty_group
                 (dict_get String.eqb sanitized_base lora_groups) in
      let g := set_role type_ (snd kv) g in
      let g := match find_alpha lora_weights (alpha_key_candidates base_name) with
               | Some a => set_alpha a g
               | None => g
               end in
      dict_set String.eqb sanitized_base g lora_groups
  end.

Definition group_weights (lora_weights : lora_file) : list (string * group) :=
  fold_left (group_step lora_weights) lora_weights [].

(** The state the merge loop works on: the weight of every linear layer
    and the counter of line 211. *)
Record merge_state := MergeState {
  weights : gmap nat (tensor num);
  applied_count : nat
}.

(** Lines 195-203. *)
Definition lora_scale (down : tensor num) (alpha : option (tensor num))
    : exn + num :=
  let rank := fst (shape down) in
  match alpha with
  | Some a =>
      match item a with
      | inl e => inl e
      | inr x =>
          if (rank =? 0)%nat then inl ZeroDivisionError
          else inr (n_div Float64 x (n_of_nat rank))
      end
  | None => inr n_one
  end.

(** Line 205. *)
Definition lora_delta (down up : tensor num) (scale strength : num)
    : exn + tensor num :=
  match matmul up down with
  | inl e => inl e
  | inr p => inr (mul_scalar p (n_mul Float64 scale strength))
  end.

(** Lines 195-210 on the weight of the resolved layer. *)
Definition merge_weight (weight down up : tensor num)
    (alpha : option (tensor num)) (strength : num) : exn + tensor num :=
  match lora_scale down alpha with
  | inl e => inl e
  | inr scale =>
      match lora_delta down up scale strength with
      | inl e => inl e
      | inr delta =>
          let delta :=
            if negb (dtype_eqb (t_dtype delta) (t_dtype weight))
            then astype (t_dtype weight) delta else delta in
          tadd weight delta
      end
  end.

(** What the loop body is about to do with an entry, before it looks at
    the weight: skip it, raise, or add a multiple of [p], which is
    [up @ down], to the weight of [layer]. *)
Inductive target :=
  | Skip
  | Raises (e : exn)
  | AddTo (layer : nat) (scale : num) (p : tensor num).


(** The body of the merge loop, lines 161-211. *)
Definition merge_entry (model : pyobj) (strength : num) (st : merge_state)
    (entry : string * group) : exn + merge_state :=
  let '(module_name, g) := entry in
  match g_down g, g_up g with
  | Some down, Some up =>
      match resolve model (PyStr.split_char "." module_name) with
      | ResolveRaises e => inl e
      | Unresolved => inr st
      | Resolved curr =>
          match obj_linear curr with
          | None => inr st
          | Some layer =>
              match weights st !! layer with
              | None => inl AttributeError
              | Some weight =>
                  match merge_weight weight down up (g_alpha g) strength with
                  | inl e => inl e
                  | inr weight' =>
                      inr (MergeState (<[layer := weight']> (weights st))
                                      (S (applied_count st)))
                  end
              end
          end
      end
  | _, _ => inr st
  end.

(** The merge loop; an exception leaves the weights as they are when it
    is raised. *)
Fixpoint merge_groups (model : pyobj) (strength : num)
    (groups : list (string * group)) (st : merge_state)
    : merge_state * option exn :=
  match groups with
  | [] => (st, None)
  | entry :: groups' =>
      match merge_entry model strength st entry with
      | inl e => (st, Some e)
      | inr st' => merge_groups model strength groups' st'
      end
  end.

(** The file system as [apply_lora_weights] sees it: [os.path.exists]
    and [mx.load], which may raise. *)
Record file_system := FileSystem {
  path_exists : string -> bool;
  mx_load : string -> option lora_file
}.

(** What the function prints on standard error. *)
Inductive log_line :=
  | LogNotFound (lora_path : string)
  | LogApplying (lora_path : string) (strength : num)
  | LogLoadFailed
  | LogApplied (applied_count : nat).

Record outcome := Outcome {
  out_weights : gmap nat (tensor num);
  out_log : list log_line;
  out_raised : option exn
}.

(** [apply_lora_weights(model, lora_path, strength)], lines 79-213. *)
Definition apply_lora_weights (fs : file_system) (model : pyobj)
    (w : gmap nat (tensor num)) (lora_path : string) (strength : num)
    : outcome :=
  if negb (path_exists fs lora_path) then
    Outcome w [LogNotFound lora_path] None
  else
    match mx_load fs lora_path with
    | None => Outcome w [LogApplying lora_path strength; LogLoadFailed] None
    | Some lora_weights =>
        let lora_groups := group_weights lora_weights in
        match merge_groups model strength lora_groups (MergeState w 0) with
        | (st, Some e) =>
            Outcome (weights st) [LogApplying lora_path strength] (Some e)
        | (st, None) =>
            Outcome (weights st)
              [LogApplying lora_path strength; LogApplied (applied_count st)]
              None
        end
    end.

End Lora.

Arguments lora_file num : clear implicits.
Arguments group num : clear implicits.
Arguments merge_state num : clear implicits.
Arguments target num : clear implicits.
Arguments file_system num : clear implicits.
Arguments outcome num : clear implicits.
Arguments log_line num : clear implicits.

(** ** The two arithmetics *)

(** Exact rational arithmetic: every dtype holds every rational, a cast
    changes nothing. *)
Module Exact.
Definition of_nat (n : nat) : Qc := Q2Qc (inject_Z (Z.of_nat n)).

#[global] Instance arith : Arith Qc := {|
  n_add _ := Qcplus;
  n_mul _ := Qcmult;
  n_div _ := Qcdiv;
  n_cast _ x := x;
  n_of_nat := of_nat;
  n_zero := Q2Qc 0;
  n_one := Q2Qc 1
|}.

(** Entrywise sum and multiple of matrices. *)
Definition madd (a b : list (list Qc)) : list (list Qc) :=
  zip_with (zip_with Qcplus) a b.

Definition mscale (c : Qc) (a : list (list Qc)) : list (list Qc) :=
  map (map (fun e => Qcmult e c)) a.

(** The rows of [up @ down]. *)
Definition product (up down : tensor Qc) : list (list Qc) :=
  match matmul up down with
  | inr p => t_rows p
  | inl _ => []
  end.



(** The weights with [d] added to the weight of [layer]. *)
Definition add_delta (layer : nat) (d : list (list Qc))
    (w : gmap nat (tensor Qc)) : gmap nat (tensor Qc) :=
  match w !! layer with
  | Some wt => <[layer := Tensor (t_dtype wt) (madd (t_rows wt) d)]> w
  | None => w
  end.

(** The weights after the target of an entry at a strength. *)
Definition run_target (strength : Qc) (w : gmap nat (tensor Qc))
    (t : target Qc) : gmap nat (tensor Qc) :=
  match t with
  | AddTo layer scale p =>
      add_delta layer (mscale (Qcmult scale strength) (t_rows p)) w
  | _ => w
  end.





End Exact.

(** IEEE 754 binary arithmetic, round to nearest even, in the format of
    the dtype. *)
Module IEEE.
Definition prec (dt : dtype) : Z :=
  match dt with Float16 => 11 | BFloat16 => 8 | Float32 => 24 | Float64 => 53 end.

Definition emax (dt : dtype) : Z :=
  match dt with Float16 => 16 | BFloat16 => 128 | Float32 => 128 | Float64 => 1024 end.

Definition cast (dt : dtype) (x : spec_float) : spec_float :=
  match x with
  | S754_finite s m e => binary_round (prec dt) (emax dt) s m e
  | _ => x
  end.

Definition of_nat (n : nat) : spec_float :=
  binary_normalize 53 1024 (Z.of_nat n) 0 false.

#[global] Instance arith : Arith spec_float := {|
  n_add dt := SFadd (prec dt) (emax dt);
  n_mul dt := SFmul (prec dt) (emax dt);
  n_div dt := SFdiv (prec dt) (emax dt);
  n_cast := cast;
  n_of_nat := of_nat;
  n_zero := S754_zero false;
  n_one := of_nat 1
|}.











End IEEE.

(* ===================================================================== *)
(** * The frame count, lines 247-252 *)
(* ===================================================================== *)

(** [round(q)]: to the nearest integer, a tie to the even one. *)
Definition py_round (q : Q) : Z :=
  let f := Qfloor q in
  match Qcompare (q - inject_Z f) (1 # 2) with
  | Lt => f
  | Gt => f + 1
  | Eq => if Z.even f then f else f + 1
  end%Z.

(** The frame count generation goes on with.  [(num_frames - 1) / 8] is
    the exact quotient; the binary64 quotient of the source is that value
    for every [num_frames - 1] below 2^53 in magnitude. *)
Definition adjust_num_frames (num_frames : Z) : Z :=
  if negb (num_frames mod 8 =? 1)%Z
  then (py_round ((num_frames - 1) # 8) * 8 + 1)%Z
  else num_frames.

Definition conforming (count : Z) : Prop := (count mod 8 = 1)%Z.

(* ===================================================================== *)
(** * The stage transition, lines 530-584 *)
(* ===================================================================== *)

Section StageTransition.
(** The tensor runtime and the collaborators of [mlx_video]. *)
Context {latent_t rng : Type}.
Context (mul add sub : latent_t -> latent_t -> latent_t).
(** [mx.array(1.0, dtype=model_dtype)] and
    [mx.array(STAGE_2_SIGMAS[0], dtype=model_dtype)] *)
Context (one stage_2_sigma_0 : latent_t).
Context (zeros_like : latent_t -> latent_t).
(** [mx.ones((1, 1, latent_frames, 1, 1), dtype=model_dtype)] *)
Context (ones_mask : latent_t).
(** [mx.random.normal(x.shape).astype(model_dtype)] on the generator
    state *)
Context (random_normal_like : rng -> latent_t -> latent_t * rng).
(** [upsample_latents(v, upsampler, latents_mean, latents_std)] *)
Context (upsample_latents : latent_t -> latent_t).

Record LatentState := mkLatentState {
  latent : latent_t;
  clean_latent : latent_t;
  denoise_mask : latent_t
}.

(** [VideoConditionByLatentIndex] *)
Record conditioning := VideoConditionByLatentIndex {
  cond_latent : latent_t;
  cond_frame_idx : Z;
  cond_strength : latent_t
}.

Context (apply_conditioning : LatentState -> list conditioning -> LatentState).


Record stage2_input := Stage2Input {
  s2_video_latents : latent_t;
  s2_audio_latents : latent_t;
  s2_video_state : option LatentState;
  s2_rng : rng
}.

(** From the result of the stage-1 loop to the arguments of the stage-2
    loop.  [image] is [stage2_image_latent] when an image was given. *)
Definition stage_transition (image : option latent_t)
    (image_frame_idx : Z) (image_strength : latent_t)
    (g : rng) (video_latents audio_latents : latent_t) : stage2_input :=
  let video_latents := upsample_latents video_latents in
  match image with
  | Some stage2_image_latent =>
      let video_state2 :=
        mkLatentState video_latents (zeros_like video_latents) ones_mask in
      let cond :=
        VideoConditionByLatentIndex stage2_image_latent image_frame_idx
          image_strength in
      let video_state2 := apply_conditioning video_state2 [cond] in
      let '(video_noise, g) := random_normal_like g video_latents in
      let noise_scale := stage_2_sigma_0 in
      let scaled_mask := mul (denoise_mask video_state2) noise_scale in
      let video_state2 :=
        mkLatentState
          (add (mul video_noise scaled_mask)
               (mul (latent video_state2) (sub one scaled_mask)))
          (clean_latent video_state2)
          (denoise_mask video_state2) in
      let video_latents := latent video_state2 in
      let '(audio_noise, g) := random_normal_like g audio_latents in
      let one_minus_scale := sub one noise_scale in
      let audio_latents :=
        add (mul audio_noise noise_scale) (mul audio_latents one_minus_scale) in
      Stage2Input video_latents audio_latents (Some video_state2) g
  | None =>
      let noise_scale := stage_2_sigma_0 in
      let one_minus_scale := sub one noise_scale in
      let '(video_noise, g) := random_normal_like g video_latents in
      let '(audio_noise, g) := random_normal_like g audio_latents in
      let video_latents :=
        add (mul video_noise noise_scale) (mul video_latents one_minus_scale) in
      let audio_latents :=
        add (mul audio_noise noise_scale) (mul audio_latents one_minus_scale) in
      Stage2Input video_latents audio_latents None g
  end.

End StageTransition.

(* ===================================================================== *)
(** * The request loop of [ltx_server.py] *)
(* ===================================================================== *)

(** What [json.loads] returns, which is also what the values of [kwargs]
    and of the response are made of. *)
#[local] Set Warnings "-register-all".
Inductive json :=
  | JNull
  | JBool (b : bool)
  | JInt (z : Z)
  | JFloat (f : spec_float)
  | JStr (s : string)
  | JArr (l : list json)
  | JObj (fields : list (string * json)).
#[local] Set Warnings "register-all".

(** Truth value of a Python object. *)
Definition truthy (v : json) : bool :=
  match v with
  | JNull => false
  | JBool b => b
  | JInt z => negb (z =? 0)%Z
  | JFloat f => match f with S754_zero _ => false | _ => true end
  | JStr s => negb (String.eqb s "")
  | JArr l => match l with [] => false | _ => true end
  | JObj fields => match fields with [] => false | _ => true end
  end.

Definition type_name (v : json) : string :=
  match v with
  | JNull => "NoneType"
  | JBool _ => "bool"
  | JInt _ => "int"
  | JFloat _ => "float"
  | JStr _ => "str"
  | JArr _ => "list"
  | JObj _ => "dict"
  end.

(** [v == s] for a string literal [s]. *)
Definition is_str (s : string) (v : json) : bool :=
  match v with
  | JStr t => String.eqb t s
  | _ => false
  end.

(** [d.get(k, dflt)] *)
Definition get_default (k : string) (dflt : json) (d : list (string * json)) : json :=
  default dflt (dict_get String.eqb k d).

(** Exceptions: the handlers of the loop tell instances of [Exception]
    from [KeyboardInterrupt] and from the other direct descendants of
    [BaseException]. *)
Inductive exn_class := IsException | IsKeyboardInterrupt | IsOtherBaseException.

Record raised := Raised { r_class : exn_class; r_str : string }.

(** [v.get] on a value that is not a dict. *)
Definition no_attribute_get (v : json) : raised :=
  Raised IsException
    ("'" ++ type_name v ++ "' object has no attribute 'get'").

(** The whitespace [str.strip] removes, among the code points below 256. *)
Definition is_space (c : ascii) : bool :=
  let n := nat_of_ascii c in
  ((9 <=? n) && (n <=? 13) || (28 <=? n) && (n <=? 32)
   || (n =? 133) || (n =? 160))%nat.

Fixpoint lstrip (s : string) : string :=
  match s with
  | EmptyString => EmptyString
  | String c s' => if is_space c then lstrip s' else s
  end.

Fixpoint rstrip (s : string) : string :=
  match s with
  | EmptyString => EmptyString
  | String c s' =>
      match rstrip s' with
      | EmptyString => if is_space c then EmptyString else String c EmptyString
      | r => String c r
      end
  end.

Definition strip (s : string) : string := rstrip (lstrip s).

(** Lines 85-122: the keyword arguments built from [params]. *)
Definition set_if (cond : bool) (k : string) (v : json)
    (kwargs : list (string * json)) : list (string * json) :=
  if cond then dict_set String.eqb k v kwargs else kwargs.

Definition build_kwargs (params : list (string * json)) : list (string * json) :=
  let get k := get_default k JNull params in
  let kwargs :=
    [("prompt", get "prompt");
     ("height", get_default "height" (JInt 512) params);
     ("width", get_default "width" (JInt 512) params);
     ("num_frames", get_default "num_frames" (JInt 65) params);
     ("seed", get_default "seed" (JInt 42) params);
     ("fps", get_default "fps" (JInt 24) params);
     ("output_path", get_default "output_path" (JStr "output.mp4") params);
     ("model_repo",
      get_default "model_repo" (JStr "notapalindrome/ltx2-mlx-av") params)] in
  let kwargs :=
    if truthy (get "image") then
      dict_set String.eqb "image_frame_idx"
        (get_default "image_frame_idx" (JInt 0) params)
        (dict_set String.eqb "image_strength"
           (get_default "image_strength" (JFloat (IEEE.of_nat 1)) params)
           (dict_set String.eqb "image" (get "image") kwargs))
    else kwargs in
  let kwargs :=
    set_if (truthy (get "tiling") && negb (is_str "auto" (get "tiling")))
      "tiling" (get "tiling") kwargs in
  let kwargs := set_if (truthy (get "no_audio")) "no_audio" (JBool true) kwargs in
  let kwargs :=
    set_if (truthy (get "save_audio_separately"))
      "save_audio_separately" (JBool true) kwargs in
  let kwargs :=
    set_if (truthy (get "repetition_penalty"))
      "repetition_penalty" (get "repetition_penalty") kwargs in
  let kwargs := set_if (truthy (get "top_p")) "top_p" (get "top_p") kwargs in
  let kwargs :=
    set_if (truthy (get "enhance_prompt")) "enhance_prompt" (JBool true) kwargs in
  let kwargs :=
    set_if (truthy (get "use_uncensored_enhancer"))
      "use_uncensored_enhancer" (JBool true) kwargs in
  let kwargs :=
    set_if (truthy (get "temperature")) "temperature" (get "temperature") kwargs in
  kwargs.

(** Lines 128-134. *)
Definition success_result (kwargs : list (string * json)) : json :=
  JObj
    [("success", JBool true);
     ("video_path", get_default "output_path" JNull kwargs);
     ("seed", get_default "seed" JNull kwargs);
     ("mode", JStr (if truthy (get_default "image" JNull kwargs)
                    then "i2v" else "t2v"));
     ("has_audio",
      JBool (negb (truthy (get_default "no_audio" (JBool false) kwargs))))].

(** Lines 137-140. *)
Definition error_result (e : raised) : json :=
  JObj [("success", JBool false); ("error", JStr (r_str e))].

(** The two pipes the host process reads, and standard input. *)
Inductive pipe := HostStdin | HostStdout | HostStderr.

(** What gets written: text, one line holding [json.dumps] of a value, or
    the traceback of an exception. *)
Inductive chunk :=
  | Text (s : string)
  | JsonLine (j : json)
  | TracebackOf (e : raised).

(** The process: its descriptor table, the text [sys.stdout] still holds,
    and what has reached the two pipes. *)
Record server := Server {
  fds : gmap nat pipe;
  stdout_buffer : list chunk;
  host_stdout : list chunk;
  host_stderr : list chunk
}.

(** A write on the pipe a descriptor refers to. *)
Definition write_pipe (p : pipe) (cs : list chunk) (sv : server) : server :=
  match p with
  | HostStdout => Server (fds sv) (stdout_buffer sv) (host_stdout sv ++ cs) (host_stderr sv)
  | HostStderr => Server (fds sv) (stdout_buffer sv) (host_stdout sv) (host_stderr sv ++ cs)
  | HostStdin => sv
  end.

Definition write_fd (fd : nat) (cs : list chunk) (sv : server) : server :=
  match fds sv !! fd with
  | Some p => write_pipe p cs sv
  | None => sv
  end.

(** [sys.stdout.flush()] *)
Definition flush_stdout (sv : server) : server :=
  write_fd 1 (stdout_buffer sv)
    (Server (fds sv) [] (host_stdout sv) (host_stderr sv)).

(** A write on [sys.stdout], which is line buffered (line 9). *)
Definition stdout_write (c : chunk) (flush : bool) (sv : server) : server :=
  let sv := Server (fds sv) (stdout_buffer sv ++ [c]) (host_stdout sv) (host_stderr sv) in
  if flush then flush_stdout sv else sv.

Definition has_newline (s : string) : bool :=
  PyStr.contains (String (ascii_of_nat 10) "") s
  || PyStr.contains (String (ascii_of_nat 13) "") s.

(** [print(json.dumps(j), flush=True)] *)
Definition print_json (j : json) (sv : server) : server :=
  stdout_write (JsonLine j) true sv.

(** [log_err(msg)]: [msg] and a newline on [sys.stderr], flushed. *)
Definition log_err (msg : string) (sv : server) : server :=
  write_fd 2 [Text (msg ++ String (ascii_of_nat 10) "")] sv.

(** The least descriptor not in use from [n] on, looking at [fuel]
    candidates and then giving [bound]. *)
Fixpoint first_free (m : gmap nat pipe) (n fuel bound : nat) : nat :=
  match fuel with
  | O => bound
  | S fuel' =>
      match m !! n with
      | None => n
      | Some _ => first_free m (S n) fuel' bound
      end
  end.

(** [os.dup(fd)]: [None] stands for [OSError]. *)
Definition os_dup (fd : nat) (sv : server) : option (nat * server) :=
  match fds sv !! fd with
  | None => None
  | Some p =>
      let bound := fresh (dom (fds sv)) in
      let new := first_free (fds sv) 0 bound bound in
      Some (new, Server (<[new := p]> (fds sv)) (stdout_buffer sv)
                        (host_stdout sv) (host_stderr sv))
  end.

(** [os.dup2(fd, fd2)] *)
Definition os_dup2 (fd fd2 : nat) (sv : server) : option server :=
  match fds sv !! fd with
  | None => None
  | Some p =>
      Some (Server (<[fd2 := p]> (fds sv)) (stdout_buffer sv)
                   (host_stdout sv) (host_stderr sv))
  end.

(** [os.close(fd)] *)
Definition os_close (fd : nat) (sv : server) : server :=
  Server (delete fd (fds sv)) (stdout_buffer sv) (host_stdout sv) (host_stderr sv).

(** What a run of [generate_av] does that the loop can see. *)
Inductive gen_event :=
  | GenPrint (s : string)      (* a write on [sys.stdout] *)
  | GenWriteFd1 (s : string)   (* a write on descriptor 1 below Python *)
  | GenWriteStderr (s : string).

Record gen_run := GenRun {
  run_events : list gen_event;
  run_raises : option raised
}.

Definition do_event (sv : server) (ev : gen_event) : server :=
  match ev with
  | GenPrint s => stdout_write (Text s) (has_newline s) sv
  | GenWriteFd1 s => write_fd 1 [Text s] sv
  | GenWriteStderr s => write_fd 2 [Text s] sv
  end.

Inductive loop_status :=
  | Continue
  | Break
  | Propagates (e : raised).

Section Server.
(** The collaborators: the JSON parser and the generator. *)
Context (json_loads : string -> option json).
Context (generate_av : list (string * json) -> gen_run).

(** The [try] of lines 83-134: the state after it, and either the
    result or the exception that left it. *)
Definition try_generate (params : json) (sv : server)
    : server * (raised + json) :=
  match params with
  | JObj fields =>
      let kwargs := build_kwargs fields in
      let run := generate_av kwargs in
      let sv := fold_left do_event (run_events run) sv in
      match run_raises run with
      | None => (sv, inr (success_result kwargs))
      | Some e => (sv, inl e)
      end
  | _ => (sv, inl (no_attribute_get params))
  end.

(** The [finally] of lines 141-145. *)
Definition restore_stdout (original_stdout_fd : nat) (sv : server)
    : option server :=
  match os_dup2 original_stdout_fd 1 (flush_stdout sv) with
  | Some sv => Some (os_close original_stdout_fd sv)
  | None => None
  end.

Definition os_error : raised := Raised IsException "OSError".

(** The handlers of lines 150-154 around the body of the loop. *)
Definition outer_handlers (e : raised) (sv : server) : server * loop_status :=
  match r_class e with
  | IsKeyboardInterrupt => (sv, Break)
  | IsException =>
      (log_err ("ERROR:Server loop error: " ++ r_str e) sv, Break)
  | IsOtherBaseException => (sv, Propagates e)
  end.

(** Lines 73-148. *)
Definition handle_generate (request : list (string * json)) (sv : server)
    : server * loop_status :=
  let params := get_default "params" (JObj []) request in
  match os_dup 1 sv with
  | None => outer_handlers os_error sv
  | Some (original_stdout_fd, sv) =>
      match os_dup2 2 1 sv with
      | None => outer_handlers os_error sv
      | Some sv =>
          let '(sv, r) := try_generate params sv in
          let '(sv, r) :=
            match r with
            | inl e =>
                match r_class e with
                | IsException =>
                    (write_fd 2 [TracebackOf e] sv, inr (error_result e))
                | _ => (sv, inl e)
                end
            | inr result => (sv, inr result)
            end in
          match restore_stdout original_stdout_fd sv with
          | None => outer_handlers os_error sv
          | Some sv =>
              match r with
              | inl e => outer_handlers e sv
              | inr result => (print_json result sv, Continue)
              end
          end
      end
  end.

(** One turn of the loop, lines 53-154, on what [readline] returned. *)
Definition handle_line (sv : server) (line : string) : server * loop_status :=
  if String.eqb line "" then (sv, Break)
  else
    let line := strip line in
    if String.eqb line "" then (sv, Continue)
    else
      match json_loads line with
      | None => (log_err "ERROR:Invalid JSON received" sv, Continue)
      | Some request =>
          match request with
          | JObj fields =>
              let cmd := get_default "command" JNull fields in
              if is_str "ping" cmd then
                (print_json (JObj [("status", JStr "pong")]) sv, Continue)
              else if is_str "generate" cmd then handle_generate fields sv
              else (sv, Continue)
          | _ => outer_handlers (no_attribute_get request) sv
          end
      end.

(** The loop on the lines standard input still holds; at the end of
    input [readline] returns the empty string. *)
Fixpoint serve (lines : list string) (sv : server) : server * option raised :=
  match lines with
  | [] => (sv, None)
  | line :: lines' =>
      match handle_line sv line with
      | (sv', Continue) => serve lines' sv'
      | (sv', Break) => (sv', None)
      | (sv', Propagates e) => (sv', Some e)
      end
  end.

End Server.

(** The process when the loop starts: descriptors 0, 1 and 2 on the three
    pipes of the host. *)
Definition initial_server : server :=
  Server (<[0 := HostStdin]> (<[1 := HostStdout]> (<[2 := HostStderr]> ∅)))
         [] [] [].


(* ===================================================================== *)
(** * The resolver in the words of the specification *)
(* ===================================================================== *)

(** A strategy either does not apply ([None]) or settles the step. *)
Definition strategy := pyobj -> string -> option step_result.

(** (1) direct attribute access *)
Definition by_attribute : strategy := fun curr part =>
  match dict_get String.eqb part (obj_attrs curr) with
  | Some o => Some (Next o)
  | None => None
  end.

(** (2) mapping-key lookup *)
Definition by_mapping_key : strategy := fun curr part =>
  match obj_cont curr with
  | CDict items =>
      match dict_get pykey_eqb (KStr part) items with
      | Some o => Some (Next o)
      | None => None
      end
  | _ => None
  end.

(** (3) mapping lookup with the segment parsed as an integer key *)
Definition by_mapping_int : strategy := fun curr part =>
  match obj_cont curr with
  | CDict items =>
      if PyStr.isdigit part then
        match PyStr.int_of_str part with
        | None => Some (StepRaises ValueError)
        | Some z =>
            match dict_get pykey_eqb (KInt z) items with
            | Some o => Some (Next o)
            | None => None
            end
        end
      else None
  | _ => None
  end.

(** (4) sequence indexing with the segment parsed as an integer *)
Definition by_sequence_index : strategy := fun curr part =>
  match obj_cont curr with
  | CList elems =>
      if PyStr.isdigit part then
        match PyStr.int_of_str part with
        | None => Some (StepRaises ValueError)
        | Some idx =>
            match elems !! Z.to_nat idx with
            | Some o => Some (Next o)
            | None => Some Invalid
            end
        end
      else None
  | _ => None
  end.

(** (5) the named fallback for the list of transformer blocks *)
Definition by_transformer_blocks : strategy := fun curr part =>
  match dict_get String.eqb "transformer_blocks" (obj_attrs curr) with
  | Some o => if String.eqb part "transformer_blocks" then Some (Next o) else None
  | None => None
  end.

Fixpoint first_success (ss : list strategy) (curr : pyobj) (part : string)
    : step_result :=
  match ss with
  | [] => Invalid
  | s :: ss' =>
      match s curr part with
      | Some r => r
      | None => first_success ss' curr part
      end
  end.

Definition resolve_step_spec : pyobj -> string -> step_result :=
  first_success
    [by_attribute; by_mapping_key; by_mapping_int; by_sequence_index;
     by_transformer_blocks].

(* ===================================================================== *)
(** * Sample inputs *)
(* ===================================================================== *)

Module Samples.
Local Open Scope Z_scope.

(** An [mx.array] as the resolver sees it. *)
Definition array_obj : pyobj := PyObj [] CNone None.

(** An [nn.Module]: a dict whose items are also its attributes. *)
Definition module_obj (children : list (string * pyobj)) : pyobj :=
  PyObj children (CDict (map (fun kv => (KStr (fst kv), snd kv)) children)) None.

(** An [nn.Linear] whose weight the store holds under [id]. *)
Definition linear_obj (id : nat) : pyobj :=
  PyObj [("weight", array_obj)] (CDict [(KStr "weight", array_obj)]) (Some id).

Definition list_obj (elems : list pyobj) : pyobj := PyObj [] (CList elems) None.

(** A model with one linear layer at [proj] and one at
    [transformer_blocks.0.to_q]. *)
Definition model : pyobj :=
  module_obj
    [("proj", linear_obj 0%nat);
     ("transformer_blocks", list_obj [module_obj [("to_q", linear_obj 1%nat)]])].

(** The one-character string U+00B2, superscript two. *)
Definition superscript_two : string := String (ascii_of_nat 178) "".

Definition q (z : Z) : Qc := Q2Qc (inject_Z z).

Definition qtensor (rows : list (list Z)) : tensor Qc :=
  Tensor Float32 (map (map q) rows).

(** Weights of the two layers: 2x2 and 1x1. *)
Definition weights0 : gmap nat (tensor Qc) :=
  <[0%nat := qtensor [[1; 2]; [3; 4]]]> (<[1%nat := qtensor [[10]]]> ∅).

(** A rank-1 adapter for [proj]. *)
Definition proj_adapter : lora_file Qc :=
  [("proj.lora_down.weight", qtensor [[1; 1]]);
   ("proj.lora_up.weight", qtensor [[1]; [2]])].

(** The same adapter behind an entry whose module path is U+00B2. *)
Definition superscript_adapter : lora_file Qc :=
  [((superscript_two ++ ".lora_down.weight")%string, qtensor [[1]]);
   ((superscript_two ++ ".lora_up.weight")%string, qtensor [[1]])]
  ++ proj_adapter.

(** The same adapter behind an entry for a module the model lacks. *)
Definition unmapped_adapter : lora_file Qc :=
  [("missing.lora_down.weight", qtensor [[1]]);
   ("missing.lora_up.weight", qtensor [[1]])]
  ++ proj_adapter.

(** A file system that holds [file] at ["lora.safetensors"]. *)
Definition fs_with {num} (file : lora_file num) : file_system num :=
  FileSystem (fun p => String.eqb p "lora.safetensors")
             (fun p => if String.eqb p "lora.safetensors" then Some file else None).

(** A file system whose ["broken.safetensors"] exists and does not
    load. *)
Definition fs_broken : file_system Qc :=
  FileSystem (fun p => String.eqb p "broken.safetensors") (fun _ => None).







End Samples.


(* ===================================================================== *)
(** * What the properties of the stage transition and of the request loop
      are stated with *)
(* ===================================================================== *)

(** The state in which the loop reads a request: descriptor 1 on the
    host's standard output pipe, descriptor 2 on its standard error pipe,
    nothing pending in [sys.stdout]. *)
Definition server_ready (sv : server) : Prop :=
  fds sv !! 1%nat = Some HostStdout
  /\ fds sv !! 2%nat = Some HostStderr
  /\ stdout_buffer sv = [].

(** While descriptor 1 is on the standard error pipe nothing reaches the
    host's standard output. *)
Definition redirected (sv : server) : Prop :=
  fds sv !! 1%nat = Some HostStderr /\ fds sv !! 2%nat = Some HostStderr.

(** What a ["generate"] request is answered with: the result object, or
    the exception that is not an instance of [Exception] and leaves the
    handler of line 135. *)
Definition expected_response
    (generate_av : list (string * json) -> gen_run) (params : json)
    : raised + json :=
  match params with
  | JObj fields =>
      match run_raises (generate_av (build_kwargs fields)) with
      | None => inr (success_result (build_kwargs fields))
      | Some e =>
          match r_class e with
          | IsException => inr (error_result e)
          | _ => inl e
          end
      end
  | _ => inr (error_result (no_attribute_get params))
  end.

Module TransitionSample.
Local Open Scope Qc_scope.

(** Latents of one element over the rationals; the generator state counts
    the draws and every draw is 1. *)
Definition draw (g : nat) (like : Qc) : Qc * nat := (1, S g).

Definition sigma : Qc := Q2Qc (1 # 2).

(** Modelled from the spec: the conditioning applicator of section 4.5,
    which belongs to [mlx_video]; on a latent of one position, the
    conditioned frame, it writes the reference latent into [latent] and
    [clean_latent] and sets the mask to 0. *)
Definition apply_conditioning (st : @LatentState Qc)
    (conds : list (@conditioning Qc)) : @LatentState Qc :=
  fold_left
    (fun st c => mkLatentState (cond_latent c) (cond_latent c) 0)
    conds st.

(** The transition on these latents, with an upsampler that doubles. *)
Definition transition (image : option Qc) (v a : Qc) : @stage2_input Qc nat :=
  stage_transition Qcmult Qcplus Qcminus 1 sigma (fun _ => 0) 1 draw
    (fun x => x + x) apply_conditioning image 0%Z 1 0%nat v a.

End TransitionSample.


(** A line holding a ["generate"] request that is answered with
    [result]. *)
Definition answered_with (json_loads : string -> option json)
    (generate_av : list (string * json) -> gen_run)
    (line : string) (result : json) : Prop :=
  String.eqb line "" = false
  /\ String.eqb (strip line) "" = false
  /\ exists fields,
       json_loads (strip line) = Some (JObj fields)
       /\ is_str "generate" (get_default "command" JNull fields) = true
       /\ expected_response generate_av (get_default "params" (JObj []) fields)
          = inr result.

Module ServerSample.

(** A stand-in for [json.loads] that knows one request. *)
Definition loads (line : string) : option json :=
  if String.eqb line "generate a cat"
  then Some (JObj [("command", JStr "generate");
                   ("params", JObj [("prompt", JStr "a cat");
                                    ("seed", JInt 7)])])
  else None.

Definition request_line : string :=
  "generate a cat" ++ String (ascii_of_nat 10) "".

(** A generation that prints an unfinished line, has a child process
    write on descriptor 1, and raises. *)
Definition failing_generate_av (kwargs : list (string * json)) : gen_run :=
  GenRun [GenPrint "loading"; GenWriteFd1 "encoder banner"]
         (Some (Raised IsException "out of memory")).

(** A generation that prints and completes. *)
Definition working_generate_av (kwargs : list (string * json)) : gen_run :=
  GenRun [GenPrint "loading"; GenWriteFd1 "encoder banner"] None.



End ServerSample.

(* ===================================================================== *)
(** * More of [apply_lora_weights]: what the properties of the grouping
      and of the merge loop are stated with *)
(* ===================================================================== *)

Section GroupingSpec.
Context {num : Type} `{Arith num}.

Definition role_eqb (a b : role) : bool :=
  match a, b with
  | Down, Down | Up, Up => true
  | _, _ => false
  end.

(** The tensor a group holds for a role. *)
Definition group_role (r : role) (g : group num) : option (tensor num) :=
  match r with
  | Down => g_down g
  | Up => g_up g
  end.


(** Both tensors of the pair are there (line 162). *)
Definition complete (g : group num) : bool :=
  match g_down g, g_up g with
  | Some _, Some _ => true
  | _, _ => false
  end.

(** How many of the two tensors a group holds, and the sum over the
    groups. *)
Definition roles_held (g : group num) : nat :=
  (match g_down g with Some _ => 1 | None => 0 end)
  + (match g_up g with Some _ => 1 | None => 0 end).

Definition roles_total (groups : list (string * group num)) : nat :=
  list_sum (map (fun ng => roles_held (snd ng)) groups).

(** A layer that a complete group of the list resolves to. *)
Definition targeted (model : pyobj) (groups : list (string * group num))
    (layer : nat) : Prop :=
  exists name g o,
    In (name, g) groups
    /\ complete g = true
    /\ resolve model (PyStr.split_char "." name) = Resolved o
    /\ obj_linear o = Some layer.

End GroupingSpec.

(** Every character is one of the 128 of ASCII. *)
Definition ascii_only (s : string) : bool :=
  PyStr.all_chars (fun c => (nat_of_ascii c <? 128)%nat) s.

(* ===================================================================== *)
(** * The dimensions [generate_video_with_audio_lora] works with,
      lines 243-296 *)
(* ===================================================================== *)

(** The assertion of line 244 or the one of line 245 fails. *)
Inductive assertion_error :=
  | HeightNotDivisible (height : Z)
  | WidthNotDivisible (width : Z).

(** The frame count after the adjustment of lines 247-252, the latent
    grid of each stage and the number of latent frames (lines 294-296). *)
Record latent_dims := LatentDims {
  d_num_frames : Z;
  stage1_h : Z;
  stage1_w : Z;
  stage2_h : Z;
  stage2_w : Z;
  latent_frames : Z
}.

(** [//] is the floor division and [%] its remainder. *)
Definition latent_dimensions (height width num_frames : Z)
    : assertion_error + latent_dims :=
  if negb (height mod 64 =? 0)%Z then inl (HeightNotDivisible height)
  else if negb (width mod 64 =? 0)%Z then inl (WidthNotDivisible width)
  else
    let num_frames := adjust_num_frames num_frames in
    inr (LatentDims num_frames
           (height / 2 / 32) (width / 2 / 32)
           (height / 32) (width / 32)
           (1 + (num_frames - 1) / 8))%Z.

(* ===================================================================== *)
(** * More of the request loop: the protocol as the host sees it *)
(* ===================================================================== *)

Section Protocol.
Context (json_loads : string -> option json).
Context (generate_av : list (string * json) -> gen_run).

(** The response lines the host is to read for the lines it sends, by
    the requests alone: one for a ["ping"], one for a ["generate"] whose
    generation completes or raises an instance of [Exception], none for
    anything else; nothing after the end of input, after a JSON value
    that is not an object, or after a generation that another exception
    ends. *)
Fixpoint responses (lines : list string) : list json :=
  match lines with
  | [] => []
  | line :: lines' =>
      if String.eqb line "" then []
      else
        let line := strip line in
        if String.eqb line "" then responses lines'
        else
          match json_loads line with
          | None => responses lines'
          | Some (JObj fields) =>
              let cmd := get_default "command" JNull fields in
              if is_str "ping" cmd then
                JObj [("status", JStr "pong")] :: responses lines'
              else if is_str "generate" cmd then
                match expected_response generate_av
                        (get_default "params" (JObj []) fields) with
                | inr result => result :: responses lines'
                | inl _ => []
                end
              else responses lines'
          | Some _ => []
          end
  end.

End Protocol.

(** The names [build_kwargs] reads from [params] (lines 86-122). *)
Definition known_params : list string :=
  ["prompt"; "height"; "width"; "num_frames"; "seed"; "fps"; "output_path";
   "model_repo"; "image"; "image_strength"; "image_frame_idx"; "tiling";
   "no_audio"; "save_audio_separately"; "repetition_penalty"; "top_p";
   "enhance_prompt"; "use_uncensored_enhancer"; "temperature"].

(* ===================================================================== *)
(** * The command-line entry points: [main] of [av_generator_lora.py]
      and of [av_generator.py] *)
(* ===================================================================== *)

(** The classes the handlers of the two [main] tell apart: [ImportError],
    the other instances of [Exception], and the rest of
    [BaseException]. *)
Inductive script_exn_class := ScImportError | ScException | ScBaseException.

Record script_exn := ScriptExn { sx_class : script_exn_class; sx_str : string }.

(** The text of an error status: a string, or [f"{e}\n{traceback.format_exc()}"]. *)
Inductive error_text :=
  | ErrText (s : string)
  | ErrWithTraceback (e : script_exn).

(** The messages of [status_output], by the values they are formatted
    from. *)
Inductive status_message :=
  | MsgLoading                       (* "Loading unified audio-video model..." *)
  | MsgStarting (mode_str : string) (width height num_frames : Z)
  | MsgUsingLora (lora : string) (lora_strength : spec_float)
  | MsgUsingImage (image : string)
  | MsgAudioDisabled
  | MsgGenerating (audio_label : string)
  | MsgSaved (output_path : string)
  | MsgError (error_msg : error_text).

(** What a script writes. *)
Inductive script_output :=
  | StatusOutput (m : status_message)  (* [status_output(m)]: "STATUS:" and the message *)
  | PrintLine (s : string)             (* [print(s)] *)
  | PrintJson (j : json)               (* [print(json.dumps(j))] *)
  | Written (s : string).              (* text the generation writes *)

(** The process of a script: the pipe of the stream [sys.stdout] is bound
    to, and what has been written for each of the two pipes, in the order
    of the program (a stream's buffer delays what is written through it,
    it does not reorder it). *)
Record script := Script {
  sys_stdout : pipe;
  on_stdout : list script_output;
  on_stderr : list script_output
}.

Definition write_on (p : pipe) (o : script_output) (s : script) : script :=
  match p with
  | HostStdout => Script (sys_stdout s) (on_stdout s ++ [o]) (on_stderr s)
  | HostStderr => Script (sys_stdout s) (on_stdout s) (on_stderr s ++ [o])
  | HostStdin => s
  end.

(** [print(...)]: on the stream [sys.stdout] is bound to at the call. *)
Definition py_print (o : script_output) (s : script) : script :=
  write_on (sys_stdout s) o s.

(** [print(..., file=sys.stderr)] *)
Definition print_err (o : script_output) (s : script) : script :=
  write_on HostStderr o s.

(** [status_output(message)], lines 69-72 of [av_generator_lora.py] and
    14-17 of [av_generator.py]. *)
Definition status_output (m : status_message) (s : script) : script :=
  print_err (StatusOutput m) s.

(** What a generation does that [main] can see: its writes, and the
    exception that ends it, if any. *)
Record script_run := ScriptRun {
  sr_events : list gen_event;
  sr_raises : option script_exn
}.

Definition script_event (s : script) (ev : gen_event) : script :=
  match ev with
  | GenPrint t => py_print (Written t) s
  | GenWriteFd1 t => write_on HostStdout (Written t) s
  | GenWriteStderr t => write_on HostStderr (Written t) s
  end.

(** How [main] ends: it returns, it calls [sys.exit(code)], or an
    exception leaves it. *)
Inductive script_exit :=
  | Returns
  | SysExit (code : Z)
  | Uncaught (e : script_exn).

(** The handlers of lines 898-908 of [av_generator_lora.py] and 119-130
    of [av_generator.py]; [package] is what the message tells to
    install. *)
Definition script_handlers (package : string) (e : script_exn) (s : script)
    : script * script_exit :=
  match sx_class e with
  | ScImportError =>
      let error_msg :=
        ("mlx-video-with-audio not installed: " ++ sx_str e
         ++ ". Run: pip install " ++ package)%string in
      let s := status_output (MsgError (ErrText error_msg)) s in
      let s := py_print (PrintJson (JObj [("success", JBool false);
                                          ("error", JStr error_msg)])) s in
      (s, SysExit 1)
  | ScException =>
      let s := status_output (MsgError (ErrWithTraceback e)) s in
      let s := py_print (PrintJson (JObj [("success", JBool false);
                                          ("error", JStr (sx_str e))])) s in
      (s, SysExit 1)
  | ScBaseException => (s, Uncaught e)
  end.

(** ** [av_generator_lora.py] *)

(** What [parse_args] returns (lines 720-842). *)
Record lora_args := LoraArgs {
  a_prompt : string;
  a_height : Z;
  a_width : Z;
  a_num_frames : Z;
  a_seed : Z;
  a_fps : Z;
  a_output_path : string;
  a_model_repo : string;
  a_image : option string;
  a_image_strength : spec_float;
  a_tiling : string;
  a_no_audio : bool;
  a_repetition_penalty : spec_float;
  a_top_p : spec_float;
  a_lora : option string;
  a_lora_strength : spec_float;
  a_enhance_prompt : bool;
  a_use_uncensored_enhancer : bool;
  a_temperature : spec_float;
  a_save_audio_separately : bool
}.

(** The keyword arguments of the call of lines 863-884. *)
Record lora_call := LoraCall {
  c_model_repo : string;
  c_text_encoder_repo : option string;
  c_prompt : string;
  c_height : Z;
  c_width : Z;
  c_num_frames : Z;
  c_seed : Z;
  c_fps : Z;
  c_output_path : string;
  c_output_audio_path : option string;
  c_save_audio_separately : bool;
  c_verbose : bool;
  c_enhance_prompt : bool;
  c_use_uncensored_enhancer : bool;
  c_temperature : spec_float;
  c_image : option string;
  c_image_strength : spec_float;
  c_tiling : string;
  c_lora_path : option string;
  c_lora_strength : spec_float
}.

Definition lora_call_of (args : lora_args) : lora_call :=
  LoraCall (a_model_repo args) None (a_prompt args) (a_height args)
    (a_width args) (a_num_frames args) (a_seed args) (a_fps args)
    (a_output_path args) None (a_save_audio_separately args) true
    (a_enhance_prompt args) (a_use_uncensored_enhancer args)
    (a_temperature args) (a_image args) (a_image_strength args)
    (a_tiling args) (a_lora args) (a_lora_strength args).

(** Truth value of an optional string ([if args.lora:], [if args.image:]). *)
Definition nonempty (o : option string) : bool :=
  match o with
  | Some s => negb (String.eqb s "")
  | None => false
  end.

Definition is_some {A} (o : option A) : bool :=
  match o with
  | Some _ => true
  | None => false
  end.

(** [os.path.basename(path)] on a POSIX path: what follows the last
    slash. *)
Fixpoint basename (path : string) : string :=
  match path with
  | EmptyString => EmptyString
  | String c path' =>
      if PyStr.contains "/" path' then basename path'
      else if Ascii.eqb c "/" then path' else path
  end.

(** Lines 890-895. *)
Definition lora_result (args : lora_args) : json :=
  JObj [("video_path", JStr (a_output_path args));
        ("seed", JInt (a_seed args));
        ("mode", JStr (if is_some (a_image args) then "i2v" else "t2v"));
        ("has_audio", JBool (negb (a_no_audio args)))].

(** [main], lines 715-908, from the parsed arguments on; [s] is the
    process when [main] is entered and [generate] stands for
    [generate_video_with_audio_lora]. *)
Definition lora_main (generate : lora_call -> script_run) (args : lora_args)
    (s : script) : script * script_exit :=
  (* line 718: sys.stdout = sys.stderr *)
  let s := Script HostStderr (on_stdout s) (on_stderr s) in
  let s := status_output MsgLoading s in
  let is_i2v := is_some (a_image args) in
  let mode_str := if is_i2v then "I2V" else "T2V" in
  let s := status_output
             (MsgStarting mode_str (a_width args) (a_height args)
                (a_num_frames args)) s in
  let s := if nonempty (a_lora args)
           then status_output
                  (MsgUsingLora (basename (default "" (a_lora args)))
                     (a_lora_strength args)) s
           else s in
  let s := if a_no_audio args then status_output MsgAudioDisabled s else s in
  let audio_label := if a_no_audio args then "without" else "with synchronized" in
  let s := status_output (MsgGenerating audio_label) s in
  let run := generate (lora_call_of args) in
  let s := fold_left script_event (sr_events run) s in
  match sr_raises run with
  | None =>
      let s := status_output (MsgSaved (a_output_path args)) s in
      let s := print_err (PrintLine "SUCCESS") s in
      let s := py_print (PrintJson (lora_result args)) s in
      (s, Returns)
  | Some e => script_handlers "mlx-video-with-audio" e s
  end.

(** ** [av_generator.py] *)

(** What [parse_args] returns (lines 27-75). *)
Record av_args := AvArgs {
  v_prompt : string;
  v_height : Z;
  v_width : Z;
  v_num_frames : Z;
  v_seed : Z;
  v_fps : Z;
  v_output_path : string;
  v_model_repo : string;
  v_image : option string
}.

(** Lines 90-102: the keyword arguments of [generate_av]. *)
Definition gen_kwargs (args : av_args) : list (string * json) :=
  let gen_kwargs :=
    [("prompt", JStr (v_prompt args));
     ("height", JInt (v_height args));
     ("width", JInt (v_width args));
     ("num_frames", JInt (v_num_frames args));
     ("model_repo", JStr (v_model_repo args));
     ("output", JStr (v_output_path args))] in
  if nonempty (v_image args)
  then dict_set String.eqb "image" (JStr (default "" (v_image args))) gen_kwargs
  else gen_kwargs.

(** Lines 111-116. *)
Definition av_result (args : av_args) : json :=
  JObj [("video_path", JStr (v_output_path args));
        ("seed", JInt (v_seed args));
        ("mode", JStr (if is_some (v_image args) then "i2v" else "t2v"));
        ("has_audio", JBool true)].

(** What the message of line 120 tells to install. *)
Definition av_package : string :=
  "git+https://github.com/james-see/mlx-video-with-audio.git".

(** [main], lines 26-130, from the parsed arguments on; [import] is what
    line 81 gives: [generate_av], or the exception the import raises. *)
Definition av_main (import : script_exn + (list (string * json) -> script_run))
    (args : av_args) (s : script) : script * script_exit :=
  let s := status_output MsgLoading s in
  match import with
  | inl e => script_handlers av_package e s
  | inr generate_av =>
      let is_i2v := is_some (v_image args) in
      let mode_str := if is_i2v then "I2V" else "T2V" in
      let s := status_output
                 (MsgStarting mode_str (v_width args) (v_height args)
                    (v_num_frames args)) s in
      let s := if nonempty (v_image args)
               then status_output (MsgUsingImage (default "" (v_image args))) s
               else s in
      let s := status_output (MsgGenerating "with synchronized") s in
      let run := generate_av (gen_kwargs args) in
      let s := fold_left script_event (sr_events run) s in
      match sr_raises run with
      | None =>
          let s := status_output (MsgSaved (v_output_path args)) s in
          let s := print_err (PrintLine "SUCCESS") s in
          let s := py_print (PrintJson (av_result args)) s in
          (s, Returns)
      | Some e => script_handlers av_package e s
      end
  end.

(** The writes of a generation on descriptor 1 below Python. *)
Definition fd1_writes (evs : list gen_event) : list script_output :=
  flat_map (fun ev => match ev with
                      | GenWriteFd1 t => [Written t]
                      | _ => []
                      end) evs.

(** A write of the generation, not a line of [main]. *)
Definition is_written (o : script_output) : Prop := exists t, o = Written t.

(* ===================================================================== *)
(** * [LTXGenerator] of [ltx_generator.py] *)
(* ===================================================================== *)

(** The arguments of [generate] (lines 39-51). *)
Record ltx_request := LtxRequest {
  q_prompt : string;
  q_output_path : string;
  q_negative_prompt : string;
  q_num_inference_steps : Z;
  q_guidance_scale : spec_float;
  q_width : Z;
  q_height : Z;
  q_num_frames : Z;
  q_fps : Z;
  q_seed : option Z
}.

(** What a generator does with [torch] and [diffusers], in a run in which
    none of their calls raises. *)
Inductive ltx_event :=
  | LoadModel                              (* lines 30-35 *)
  | ManualSeed (seed : Z)                  (* line 66 *)
  | PipeCall (prompt : string) (negative_prompt : option string)
      (num_inference_steps : Z) (guidance_scale : spec_float)
      (width height num_frames : Z) (generator_seed : Z)   (* lines 73-82 *)
  | ExportToVideo (output_path : string) (fps : Z)          (* line 86 *)
  | EmptyCache.                            (* line 99 *)

(** [generate], lines 39-93; [pipe] tells whether [self.pipe] holds a
    pipeline and [randint] is what [torch.randint(0, 2**31, (1,))] draws.
    The result is the new [pipe], the calls made and the dict
    returned. *)
Definition ltx_generate (pipe : bool) (randint : Z) (req : ltx_request)
    : bool * list ltx_event * json :=
  let load := if pipe then [] else [LoadModel] in
  let seed := match q_seed req with
              | Some seed => seed
              | None => randint
              end in
  let negative_prompt :=
    if String.eqb (q_negative_prompt req) "" then None
    else Some (q_negative_prompt req) in
  (true,
   load ++ [ManualSeed seed;
            PipeCall (q_prompt req) negative_prompt (q_num_inference_steps req)
              (q_guidance_scale req) (q_width req) (q_height req)
              (q_num_frames req) seed;
            ExportToVideo (q_output_path req) (q_fps req)],
   JObj [("video_path", JStr (q_output_path req)); ("seed", JInt seed)]).

(** The calls a user makes on one generator. *)
Inductive ltx_call :=
  | CallGenerate (randint : Z) (req : ltx_request)
  | CallUnloadModel (mps_available : bool)
  | CallLoadModel.

Definition ltx_step (pipe : bool) (call : ltx_call) : bool * list ltx_event :=
  match call with
  | CallGenerate randint req =>
      let '(pipe, events, _) := ltx_generate pipe randint req in (pipe, events)
  | CallUnloadModel mps_available =>
      (false, if mps_available then [EmptyCache] else [])
  | CallLoadModel => (true, [LoadModel])
  end.

Fixpoint ltx_calls (calls : list ltx_call) (pipe : bool) : bool * list ltx_event :=
  match calls with
  | [] => (pipe, [])
  | call :: calls' =>
      let '(pipe, events) := ltx_step pipe call in
      let '(pipe, events') := ltx_calls calls' pipe in
      (pipe, events ++ events')
  end.

Definition is_load (ev : ltx_event) : bool :=
  match ev with LoadModel => true | _ => false end.

Definition count_loads (events : list ltx_event) : nat :=
  length (List.filter is_load events).

Definition is_unload (call : ltx_call) : bool :=
  match call with CallUnloadModel _ => true | _ => false end.

Definition is_generate (call : ltx_call) : bool :=
  match call with CallGenerate _ _ => true | _ => false end.

(** [req] with another seed. *)
Definition with_seed (seed : option Z) (req : ltx_request) : ltx_request :=
  LtxRequest (q_prompt req) (q_output_path req) (q_negative_prompt req)
    (q_num_inference_steps req) (q_guidance_scale req) (q_width req)
    (q_height req) (q_num_frames req) (q_fps req) seed.

(* ===================================================================== *)
(** * [generate_audio] of [audio_generator.py] *)
(* ===================================================================== *)

Inductive audio_status :=
  | SLoading                           (* "Loading MLX Audio..." *)
  | SGenerating (voice : string)
  | SSaved (output_path : string)
  | SError (error_msg : error_text).

(** The lines of [status_output] and [progress_output] on standard
    error. *)
Inductive audio_output :=
  | AStatus (message : audio_status)
  | AProgress (percent : Z) (message : string).

Section Audio.
(** A sample of the audio, and [(x * 32767).astype(np.int16)] on it. *)
Context {sample : Type}.
Context (to_int16 : sample -> Z).

(** What [mlx_audio], [numpy] and [wave] do in a run: the exception each
    step raises, if any, and the audio of the results the model
    yields. *)
Record tts_run := TtsRun {
  tts_import : option script_exn;       (* lines 43-45 *)
  tts_load_model : option script_exn;   (* line 48 *)
  tts_chunks : list (list sample);      (* lines 56-62 *)
  tts_generate : option script_exn;     (* raised by the generator after them *)
  tts_concatenate : option script_exn;  (* line 67 *)
  tts_save : option script_exn          (* lines 74-87 *)
}.

(** What the function leaves: the lines on standard error, the frames of
    the file it has written, and the dict it returns or the exception
    that leaves it. *)
Record audio_outcome := AudioOutcome {
  ao_stderr : list audio_output;
  ao_wav : option (string * list Z);
  ao_result : script_exn + json
}.

(** The handlers of lines 94-103. *)
Definition audio_handlers (e : script_exn) (out : list audio_output)
    : audio_outcome :=
  match sx_class e with
  | ScImportError =>
      let error_msg :=
        ("MLX Audio not installed: " ++ sx_str e
         ++ ". Run: pip install mlx-audio")%string in
      AudioOutcome (out ++ [AStatus (SError (ErrText error_msg))]) None
        (inr (JObj [("success", JBool false); ("error", JStr error_msg)]))
  | ScException =>
      AudioOutcome (out ++ [AStatus (SError (ErrWithTraceback e))]) None
        (inr (JObj [("success", JBool false); ("error", JStr (sx_str e))]))
  | ScBaseException => AudioOutcome out None (inl e)
  end.

(** [generate_audio], lines 19-103. *)
Definition generate_audio (run : tts_run) (voice output_path : string)
    : audio_outcome :=
  let out := [AStatus SLoading; AProgress 10 "Loading model"] in
  match tts_import run with
  | Some e => audio_handlers e out
  | None =>
  match tts_load_model run with
  | Some e => audio_handlers e out
  | None =>
  let out := out ++ [AProgress 30 "Model loaded";
                     AStatus (SGenerating voice);
                     AProgress 40 "Generating speech"] in
  let out := out ++ map (fun _ => AProgress 60 "Processing audio")
                        (tts_chunks run) in
  match tts_generate run with
  | Some e => audio_handlers e out
  | None =>
  match tts_chunks run with
  | [] =>
      AudioOutcome out None
        (inr (JObj [("success", JBool false);
                    ("error", JStr "No audio generated")]))
  | _ :: _ =>
  match tts_concatenate run with
  | Some e => audio_handlers e out
  | None =>
  let out := out ++ [AProgress 80 "Saving audio"] in
  match tts_save run with
  | Some e => audio_handlers e out
  | None =>
      AudioOutcome
        (out ++ [AStatus (SSaved output_path); AProgress 100 "Complete"])
        (Some (output_path, map to_int16 (concat (tts_chunks run))))
        (inr (JObj [("success", JBool true);
                    ("audio_path", JStr output_path)]))
  end end end end end end.

(** Lines 134-135: [sys.exit(0 if result["success"] else 1)]; an exception
    that left [generate_audio] leaves the script. *)
Definition audio_exit (result : script_exn + json) : script_exit :=
  match result with
  | inl e => Uncaught e
  | inr result =>
      SysExit (if truthy (get_default "success" JNull
                            match result with
                            | JObj fields => fields
                            | _ => []
                            end)
               then 0 else 1)
  end.

(** Lines 126-135: what the script prints on standard output, and how it
    ends. *)
Definition audio_main (run : tts_run) (voice output_path : string)
    : list script_output * script_exit :=
  let result := ao_result (generate_audio run voice output_path) in
  (match result with
   | inl _ => []
   | inr result => [PrintJson result]
   end,
   audio_exit result).

End Audio.

(** The dict [generate_audio] returns for a run that wrote the file. *)
Definition audio_success (output_path : string) : json :=
  JObj [("success", JBool true); ("audio_path", JStr output_path)].

(** A result that is no success: an exception that is no [Exception]
    propagates, or a failure dict is returned. *)
Definition audio_failed (result : script_exn + json) : Prop :=
  (exists e, result = inl e)
  \/ exists error,
       result = inr (JObj [("success", JBool false); ("error", JStr error)]).

(** The percentages among the lines. *)
Definition progress_values (out : list audio_output) : list Z :=
  flat_map (fun o => match o with
                     | AProgress percent _ => [percent]
                     | AStatus _ => []
                     end) out.

Fixpoint nondecreasing (l : list Z) : Prop :=
  match l with
  | a :: (b :: _) as l' => (a <= b)%Z /\ nondecreasing l'
  | _ => True
  end.

(* ===================================================================== *)
(** * The injection of the bundled prompts: [setup_prompts] of
      [ltx_server.py] and lines 42-59 of [enhance_prompt_preview.py] *)
(* ===================================================================== *)

(** What a path holds. *)
Inductive fs_entry := FsDir | FsFile (content : string).

(** The file system: the paths that exist, and the paths the system
    refuses to create or to write. *)
Record file_tree := FileTree {
  ft_entries : gmap string fs_entry;
  ft_refuses : string -> bool
}.

(** [a / b] *)
Definition path_join (a b : string) : string := (a ++ "/" ++ b)%string.

(** [p.exists()] *)
Definition path_exists_in (ft : file_tree) (p : string) : bool :=
  match ft_entries ft !! p with
  | Some _ => true
  | None => false
  end.

(** [p.mkdir(parents=True, exist_ok=True)]; [None] stands for the
    [OSError] it raises.  The entries of the parents it creates are not
    kept. *)
Definition mkdir_parents (p : string) (ft : file_tree) : option file_tree :=
  match ft_entries ft !! p with
  | Some FsDir => Some ft
  | Some (FsFile _) => None
  | None =>
      if ft_refuses ft p then None
      else Some (FileTree (<[p := FsDir]> (ft_entries ft)) (ft_refuses ft))
  end.

(** [shutil.copy2(src, dst)] for a [dst] that does not exist; [None]
    stands for the [OSError] it raises. *)
Definition copy2 (src dst : string) (ft : file_tree) : option file_tree :=
  match ft_entries ft !! src with
  | Some (FsFile content) =>
      if ft_refuses ft dst then None
      else Some (FileTree (<[dst := FsFile content]> (ft_entries ft))
                          (ft_refuses ft))
  | _ => None
  end.

Definition prompt_names : list string :=
  ["gemma_t2v_system_prompt.txt"; "gemma_i2v_system_prompt.txt"].

(** The loop of lines 26-32 of [ltx_server.py] and 52-57 of
    [enhance_prompt_preview.py]: the file system it leaves, the names it
    has injected, and whether an [OSError] ended it. *)
Fixpoint inject_prompts (bundled_prompts target_dir : string)
    (names : list string) (ft : file_tree) (injected : list string)
    : file_tree * list string * bool :=
  match names with
  | [] => (ft, injected, false)
  | name :: names' =>
      let src := path_join bundled_prompts name in
      let dst := path_join target_dir name in
      if path_exists_in ft src && negb (path_exists_in ft dst) then
        match mkdir_parents target_dir ft with
        | None => (ft, injected, true)
        | Some ft1 =>
            match copy2 src dst ft1 with
            | None => (ft1, injected, true)
            | Some ft2 =>
                inject_prompts bundled_prompts target_dir names' ft2
                  (injected ++ [name])
            end
        end
      else inject_prompts bundled_prompts target_dir names' ft injected
  end.

(** What [setup_prompts] writes on standard error. *)
Inductive prompt_log :=
  | LogInjected (name : string)     (* "STATUS:Injected missing prompt: ..." *)
  | LogCouldNotInject.              (* "STATUS:Warning: could not inject prompts: ..." *)

(** [setup_prompts()], lines 15-35 of [ltx_server.py].  [resources_path]
    is the directory of the script and [text_encoder_dir] the directory
    of the module [mlx_video.models.ltx.text_encoder], or [None] when its
    import raises an [Exception]. *)
Definition setup_prompts (resources_path : string)
    (text_encoder_dir : option string) (ft : file_tree)
    : file_tree * list prompt_log :=
  match text_encoder_dir with
  | None => (ft, [LogCouldNotInject])
  | Some dir =>
      let bundled_prompts := path_join resources_path "prompts" in
      let target_dir := path_join dir "prompts" in
      let '(ft, injected, raised) :=
        inject_prompts bundled_prompts target_dir prompt_names ft [] in
      (ft, map LogInjected injected
           ++ (if raised then [LogCouldNotInject] else []))
  end.

(** Lines 42-59 of [enhance_prompt_preview.py]: the same without the log,
    from the directory [--resources-path] names, when it is given and not
    empty. *)
Definition preflight_injection (resources_path : option string)
    (text_encoder_dir : option string) (ft : file_tree) : file_tree :=
  if nonempty resources_path then
    match text_encoder_dir with
    | None => ft
    | Some dir =>
        let bundled_prompts :=
          path_join
            (path_join
               (path_join
                  (path_join (default "" resources_path) "ltx_mlx") "models")
               "ltx")
            "prompts" in
        let target_dir := path_join dir "prompts" in
        fst (fst (inject_prompts bundled_prompts target_dir prompt_names ft []))
    end
  else ft.

(* ===================================================================== *)
(** * More sample inputs *)
(* ===================================================================== *)

Module MoreSamples.
Import Samples.
Local Open Scope Z_scope.


(** An adapter that holds the down tensor of [proj] only. *)
Definition down_only_adapter : lora_file Qc :=
  [("proj.lora_down.weight", qtensor [[1; 1]])].

(** The adapter for [proj] followed by an entry whose module path is
    U+00B2. *)
Definition proj_then_superscript : lora_file Qc :=
  proj_adapter
  ++ [((superscript_two ++ ".lora_down.weight")%string, qtensor [[1]]);
      ((superscript_two ++ ".lora_up.weight")%string, qtensor [[1]])].



Definition newline : string := String (ascii_of_nat 10) "".

(** A stand-in for [json.loads] that knows four requests. *)
Definition loads (line : string) : option json :=
  if String.eqb line "ping" then Some (JObj [("command", JStr "ping")])
  else if String.eqb line "status" then Some (JObj [("command", JStr "status")])
  else if String.eqb line "generate a cat"
  then Some (JObj [("command", JStr "generate");
                   ("params", JObj [("prompt", JStr "a cat")])])
  else if String.eqb line "[]" then Some (JArr [])
  else None.

(** A ping, a blank line, a line that is no JSON, an unknown command, a
    request, a list, and a ping that is never read. *)
Definition session : list string :=
  [("ping" ++ newline)%string; newline; ("junk" ++ newline)%string;
   ("status" ++ newline)%string; ("generate a cat" ++ newline)%string;
   ("[]" ++ newline)%string; ("ping" ++ newline)%string].

Definition av_sample_args : av_args :=
  AvArgs "a cat" 512 512 65 7 24 "cat.mp4" "notapalindrome/ltx2-mlx-av" None.

(** A generation that prints one line and completes. *)
Definition printing_generate_av (kwargs : list (string * json)) : script_run :=
  ScriptRun [GenPrint "step 1 of 8"] None.

Definition ltx_sample_request : ltx_request :=
  LtxRequest "a cat" "cat.mp4" "" 50 (IEEE.of_nat 5) 768 512 97 24 None.

End MoreSamples.

(* ===================================================================== *)
(** * The global names of [av_generator_lora.py] and the building of the
      transformer configuration *)
(* ===================================================================== *)

(** The names the module binds: those Python gives every module, the
    imports of lines 7-63 and the functions of lines 69-715. *)
Definition module_globals : list string :=
  ["__name__"; "__doc__"; "__package__"; "__loader__"; "__spec__"; "__file__";
   "__builtins__";
   "sys"; "os"; "argparse"; "json"; "time"; "Path"; "Optional"; "Dict";
   "mx"; "nn"; "np";
   "LTXModelConfig"; "LTXModelType"; "LTXRopeType"; "LTXModel"; "Modality";
   "sanitize_transformer_weights"; "sanitize_audio_vae_weights";
   "sanitize_vocoder_weights";
   "to_denoised"; "get_model_path"; "load_image"; "prepare_image_for_encoding";
   "load_vae_decoder"; "load_vae_encoder"; "TilingConfig";
   "load_upsampler"; "upsample_latents";
   "VideoConditionByLatentIndex"; "apply_conditioning";
   "LatentState"; "apply_denoise_mask";
   "STAGE_1_SIGMAS"; "STAGE_2_SIGMAS"; "DEFAULT_HF_MODEL";
   "DEFAULT_UNIFIED_TEXT_ENCODER"; "is_unified_mlx_model";
   "load_unified_weights"; "AUDIO_SAMPLE_RATE"; "AUDIO_LATENT_SAMPLE_RATE";
   "AUDIO_MEL_BINS"; "AUDIO_LATENTS_PER_SECOND"; "create_video_position_grid";
   "create_audio_position_grid"; "compute_audio_frames"; "denoise_av";
   "load_audio_decoder"; "load_vocoder"; "save_audio"; "mux_video_audio";
   "Colors";
   "status_output"; "progress_output"; "apply_lora_weights";
   "generate_video_with_audio_lora"; "main"].

(** The global names the call of [LTXModelConfig] reads, lines 369-390, in
    the order of their evaluation. *)
Definition config_globals : list string :=
  ["LTXModelConfig"; "LTXModelType"; "AUDIO_LATENT_CHANNELS"; "AUDIO_MEL_BINS";
   "AUDIO_LATENT_CHANNELS"; "AUDIO_MEL_BINS"; "LTXRopeType"].

Definition name_error (name : string) : script_exn :=
  ScriptExn ScException ("name '" ++ name ++ "' is not defined")%string.

(** Reading global names in order: [NameError] at the first one that
    neither the module nor the builtins bind. *)
Definition read_globals (builtins : string -> bool) (names : list string)
    : option script_exn :=
  match List.find
          (fun name =>
             negb (existsb (String.eqb name) module_globals || builtins name))
          names with
  | Some name => Some (name_error name)
  | None => None
  end.

(** [generate_video_with_audio_lora], lines 216-712, around the building
    of the configuration: [before] is the run of lines 241-368 and
    [after] the run of lines 392-712, which begins with the loading of
    the weights and the call of [apply_lora_weights]. *)
Definition generate_video_with_audio_lora (builtins : string -> bool)
    (before after : script_run) : script_run :=
  match sr_raises before with
  | Some e => before
  | None =>
      match read_globals builtins config_globals with
      | Some e => ScriptRun (sr_events before) (Some e)
      | None =>
          ScriptRun (sr_events before ++ sr_events after) (sr_raises after)
      end
  end.
(* ===================================================================== *)
(** * Properties of the string operations *)
(* ===================================================================== *)

Module PyStrFacts.
Import PyStr.
Local Open Scope string_scope.

(** No character of [p] is a dot. *)
Definition dotless (p : string) : bool :=
  all_chars (fun c => negb (Ascii.eqb c ".")) p.

Lemma startswith_refl p s : startswith p (p ++ s) = true.
Proof.
  induction p as [|a p IH]; simpl; [reflexivity|].
  now rewrite Ascii.eqb_refl, IH.
Qed.

Lemma startswith_app_dot p x t :
  dotless p = true ->
  startswith p (x ++ String "." t) = startswith p x.
Proof.
  revert x. induction p as [|a p IH]; intros x Hp; [now destruct x|].
  simpl in Hp. apply andb_true_iff in Hp as [Ha Hp].
  destruct x as [|c x]; simpl.
  - apply negb_true_iff in Ha. now rewrite Ha.
  - now rewrite IH.
Qed.

Lemma contains_app_dot a p x t :
  dotless (String a p) = true ->
  contains (String a p) (x ++ String "." t)
  = contains (String a p) x || contains (String a p) t.
Proof.
  intros Hp. induction x as [|c x IH].
  - change (EmptyString ++ String "." t) with (String "." t).
    cbn [contains]. simpl in Hp. apply andb_true_iff in Hp as [Ha _].
    apply negb_true_iff in Ha. simpl. now rewrite Ha.
  - change (String c x ++ String "." t) with (String c (x ++ String "." t)).
    cbn [contains]. rewrite IH.
    change (String c (x ++ String "." t)) with (String c x ++ String "." t).
    rewrite (startswith_app_dot _ _ _ Hp). now rewrite orb_assoc.
Qed.


(** The text before a separator [.q] that the text itself does not
    hold. *)
Lemma split_head_app q b r :
  dotless q = true ->
  contains q b = false ->
  split_head (String "." q) (b ++ String "." (q ++ r)) = b.
Proof.
  intros Hq. induction b as [|c b IH]; intros Hb.
  - change (EmptyString ++ String "." (q ++ r)) with (String "." (q ++ r)).
    cbn [split_head]. cbn [startswith]. now rewrite Ascii.eqb_refl, startswith_refl.
  - change (String c b ++ String "." (q ++ r))
      with (String c (b ++ String "." (q ++ r))).
    cbn [split_head].
    cbn [contains] in Hb. apply orb_false_iff in Hb as [Hsw Hb].
    assert (Hno : startswith (String "." q) (String c (b ++ String "." (q ++ r)))
                  = false).
    { cbn [startswith]. rewrite (startswith_app_dot _ _ _ Hq).
      destruct (Ascii.eqb "." c); [|reflexivity]. simpl.
      destruct b as [|c' b]; cbn [contains] in Hb.
      - exact Hb.
      - now apply orb_false_iff in Hb as [-> _]. }
    rewrite Hno. now rewrite IH.
Qed.

Lemma replace_absent a old new s :
  contains (String a old) s = false -> replace (String a old) new s = s.
Proof.
  unfold replace. induction s as [|c s IH]; [reflexivity|].
  cbn [contains replace_from]. intros [Hsw Hc]%orb_false_iff.
  rewrite Hsw. now rewrite IH.
Qed.

Lemma replace_from_skip old new x s :
  replace_from old new (String.length x) (x ++ s) = replace_from old new 0 s.
Proof.
  induction x as [|c x IH]; [reflexivity|].
  change (String c x ++ s) with (String c (x ++ s)).
  cbn [String.length replace_from]. exact IH.
Qed.

(** A prefix that occurs nowhere else is removed, and only it. *)
Lemma replace_prefix_only a old s :
  contains (String a old) s = false ->
  replace (String a old) "" (String a old ++ s) = s.
Proof.
  intros Hs. unfold replace.
  change (String a old ++ s) with (String a (old ++ s)).
  cbn [replace_from].
  change (String a (old ++ s)) with (String a old ++ s).
  rewrite startswith_refl.
  change (String.length (String a old) - 1)%nat with (String.length old - 0)%nat.
  rewrite Nat.sub_0_r, replace_from_skip.
  change ("" ++ replace_from (String a old) "" 0 s)
    with (replace (String a old) "" s).
  now apply replace_absent.
Qed.

Lemma remove_prefix_refl p s : remove_prefix p (p ++ s) = s.
Proof.
  unfold remove_prefix. rewrite startswith_refl.
  induction p as [|c p IH]; [now destruct s|exact IH].
Qed.

Lemma startswith_contains p s : startswith p s = true -> contains p s = true.
Proof. destruct s; cbn [contains]; intros ->; reflexivity. Qed.

Lemma remove_prefix_absent p s : contains p s = false -> remove_prefix p s = s.
Proof.
  intros Hc. unfold remove_prefix.
  destruct (startswith p s) eqn:E; [|reflexivity].
  apply startswith_contains in E. congruence.
Qed.

End PyStrFacts.

(* ===================================================================== *)
(** * The key normalizer and the grouping engine *)
(* ===================================================================== *)

Section Grouping.
Import PyStr PyStrFacts.
Local Open Scope string_scope.

Example sanitize_key_outer_prefix :
  sanitize_key "model.diffusion_model.transformer_blocks.0.attn1.to_out.0.lora_A"
  = "transformer_blocks.0.attn1.to_out.lora_A".
Proof. vm_compute. reflexivity. Qed.

Example sanitize_key_feed_forward :
  sanitize_key "transformer.transformer_blocks.3.audio_ff.net.0.proj.x"
  = "transformer_blocks.3.audio_ff.proj_in.x".
Proof. vm_compute. reflexivity. Qed.

Example split_char_empty_segment : split_char "." "a..b" = ["a"; ""; "b"].
Proof. vm_compute. reflexivity. Qed.

(** The normalizer is its two prefix steps followed by the mapping
    rules, in that order. *)
Lemma sanitize_key_steps key :
  sanitize_key key
  = mapping_rules
      (let key := replace "model.diffusion_model." "" key in
       if startswith "transformer." key
       then replace "transformer." "" key else key).
Proof. reflexivity. Qed.

(** On a key that holds the two prefix texts at its start only, the
    normalizer does what the specification says. *)
Lemma sanitize_key_on_plain_keys k :
  contains "model.diffusion_model." k = false ->
  contains "transformer." k = false ->
  sanitize_key k = mapping_rules k
  /\ sanitize_key ("model.diffusion_model." ++ k) = mapping_rules k
  /\ sanitize_key ("transformer." ++ k) = mapping_rules k
  /\ sanitize_key ("model.diffusion_model." ++ "transformer." ++ k) = mapping_rules k
  /\ sanitize_key_spec k = mapping_rules k
  /\ sanitize_key_spec ("model.diffusion_model." ++ k) = mapping_rules k
  /\ sanitize_key_spec ("transformer." ++ k) = mapping_rules k
  /\ sanitize_key_spec ("model.diffusion_model." ++ "transformer." ++ k)
     = mapping_rules k.
Proof.
  intros Hm Ht.
  assert (Hmt : contains "model.diffusion_model." ("transformer." ++ k) = false).
  { simpl. exact Hm. }
  assert (Hst : startswith "transformer." k = false).
  { destruct (startswith "transformer." k) eqn:E; [|reflexivity].
    apply startswith_contains in E. congruence. }
  rewrite !sanitize_key_steps. unfold sanitize_key_spec. cbv zeta.
  rewrite !(replace_prefix_only "m" "odel.diffusion_model.") by assumption.
  rewrite !(replace_absent "m" "odel.diffusion_model.") by assumption.
  rewrite !(remove_prefix_refl "model.diffusion_model.").
  rewrite (remove_prefix_absent "model.diffusion_model." k Hm).
  rewrite (remove_prefix_absent "model.diffusion_model." _ Hmt).
  rewrite !(remove_prefix_refl "transformer.").
  rewrite (remove_prefix_absent "transformer." k Ht).
  rewrite (startswith_refl "transformer." k), Hst.
  rewrite !(replace_prefix_only "t" "ransformer.") by assumption.
  repeat split.
Qed.

(** C7. The key normalizer is meant to strip the outer
    ["model.diffusion_model."] prefix and a redundant ["transformer."]
    prefix and to touch nothing else but the mapped substrings; the
    code deletes every occurrence of the two texts, also inside the
    key: the inner ["transformer."] of a key that starts with the
    prefix is lost, and so is a ["model.diffusion_model."] that is not
    at the start. *)
Theorem sanitize_key_deletes_inner_occurrences :
  sanitize_key "transformer.blocks.cross_transformer.proj" = "blocks.cross_proj"
  /\ sanitize_key_spec "transformer.blocks.cross_transformer.proj"
     = "blocks.cross_transformer.proj"
  /\ sanitize_key "a.model.diffusion_model.b" = "a.b"
  /\ sanitize_key_spec "a.model.diffusion_model.b" = "a.model.diffusion_model.b".
Proof. repeat split; vm_compute; reflexivity. Qed.

Lemma marker_free_inv s :
  marker_free s = true ->
  contains "lora_down" s = false /\ contains "lora_up" s = false
  /\ contains "lora_A" s = false /\ contains "lora_B" s = false.
Proof.
  unfold marker_free. rewrite negb_true_iff, !orb_false_iff. tauto.
Qed.

Ltac split_contains :=
  repeat match goal with
         | |- context [contains (String ?a ?p) (?b ++ String "." ?t)] =>
             rewrite (contains_app_dot a p b t eq_refl)
         end.

Ltac classify_suffix q b r Hb :=
  unfold classify;
  change (b ++ String "." q ++ r) with (b ++ String "." (q ++ r));
  split_contains;
  rewrite (split_head_app q b r eq_refl Hb);
  simpl; change ("" ++ r) with r.

Lemma classify_lora_down b r :
  marker_free b = true -> marker_free r = true ->
  classify (b ++ ".lora_down" ++ r)
  = if contains "alpha" b || contains "alpha" r then None else Some (b, Down).
Proof.
  intros (Hb1 & Hb2 & Hb3 & Hb4)%marker_free_inv
         (Hr1 & Hr2 & Hr3 & Hr4)%marker_free_inv.
  classify_suffix "lora_down" b r Hb1.
  rewrite !orb_true_r. simpl.
  now destruct (contains "alpha" b || contains "alpha" r).
Qed.

Lemma classify_lora_A b r :
  marker_free b = true -> marker_free r = true ->
  classify (b ++ ".lora_A" ++ r)
  = if contains "alpha" b || contains "alpha" r then None else Some (b, Down).
Proof.
  intros (Hb1 & Hb2 & Hb3 & Hb4)%marker_free_inv
         (Hr1 & Hr2 & Hr3 & Hr4)%marker_free_inv.
  classify_suffix "lora_A" b r Hb3.
  rewrite Hb1, Hb2, Hr1, Hr2, !orb_true_r. simpl.
  now destruct (contains "alpha" b || contains "alpha" r).
Qed.

Lemma classify_lora_up b r :
  marker_free b = true -> marker_free r = true ->
  classify (b ++ ".lora_up" ++ r)
  = if contains "alpha" b || contains "alpha" r then None else Some (b, Up).
Proof.
  intros (Hb1 & Hb2 & Hb3 & Hb4)%marker_free_inv
         (Hr1 & Hr2 & Hr3 & Hr4)%marker_free_inv.
  classify_suffix "lora_up" b r Hb2.
  rewrite Hb1, Hr1, !orb_true_r. simpl.
  now destruct (contains "alpha" b || contains "alpha" r).
Qed.

Lemma classify_lora_B b r :
  marker_free b = true -> marker_free r = true ->
  classify (b ++ ".lora_B" ++ r)
  = if contains "alpha" b || contains "alpha" r then None else Some (b, Up).
Proof.
  intros (Hb1 & Hb2 & Hb3 & Hb4)%marker_free_inv
         (Hr1 & Hr2 & Hr3 & Hr4)%marker_free_inv.
  classify_suffix "lora_B" b r Hb4.
  rewrite Hb1, Hb2, Hb3, Hr1, Hr2, Hr3, !orb_true_r. simpl.
  now destruct (contains "alpha" b || contains "alpha" r).
Qed.

End Grouping.

Section GroupingSteps.
Import PyStr PyStrFacts.
Local Open Scope string_scope.
Context {num : Type} `{Arith num}.

(** The grouping loop depends on a key through [classify] alone. *)
Lemma group_step_classify (lora_weights : lora_file num) groups k k' v :
  classify k = classify k' ->
  group_step lora_weights groups (k, v) = group_step lora_weights groups (k', v).
Proof. unfold group_step. simpl. now intros ->. Qed.


(** C6 as stated fails: with a role marker inside the module path the
    two conventions disagree on both the role and the module. *)
Lemma convention_changes_marked_module :
  group_key "x.lora_up_proj.lora_down.weight" = Some ("x.lora_up_proj", Down)
  /\ group_key "x.lora_up_proj.lora_A.weight" = Some ("x", Up)
  /\ ~ (forall b r : string,
          group_key (b ++ ".lora_down" ++ r) = group_key (b ++ ".lora_A" ++ r)).
Proof.
  split; [vm_compute; reflexivity|]. split; [vm_compute; reflexivity|].
  intros Hall. specialize (Hall "x.lora_up_proj" ".weight").
  vm_compute in Hall. discriminate Hall.
Qed.

(** C6. For a module path [b] and a remainder [r] that hold none of the
    four role markers, the key of the down (resp. up) tensor is
    classified the same under the [lora_down]/[lora_up] and the
    [lora_A]/[lora_B] convention: the same role under the same
    normalized module path [sanitize_key b] (or skipped under both when
    ["alpha"] occurs), and the grouping loop does the same with it. *)
Theorem convention_agnostic_grouping (b r : string) :
  marker_free b = true -> marker_free r = true ->
  group_key (b ++ ".lora_down" ++ r) = group_key (b ++ ".lora_A" ++ r)
  /\ group_key (b ++ ".lora_up" ++ r) = group_key (b ++ ".lora_B" ++ r)
  /\ (contains "alpha" b || contains "alpha" r = false ->
      group_key (b ++ ".lora_down" ++ r) = Some (sanitize_key b, Down)
      /\ group_key (b ++ ".lora_up" ++ r) = Some (sanitize_key b, Up))
  /\ (forall (lora_weights : lora_file num) groups v,
        group_step lora_weights groups (b ++ ".lora_down" ++ r, v)
        = group_step lora_weights groups (b ++ ".lora_A" ++ r, v)
        /\ group_step lora_weights groups (b ++ ".lora_up" ++ r, v)
           = group_step lora_weights groups (b ++ ".lora_B" ++ r, v)).
Proof.
  intros Hb Hr. unfold group_key.
  rewrite (classify_lora_down b r Hb Hr), (classify_lora_A b r Hb Hr),
          (classify_lora_up b r Hb Hr), (classify_lora_B b r Hb Hr).
  split; [reflexivity|]. split; [reflexivity|]. split.
  - intros ->. split; reflexivity.
  - intros lw groups v. split; apply group_step_classify.
    + now rewrite (classify_lora_down b r Hb Hr), (classify_lora_A b r Hb Hr).
    + now rewrite (classify_lora_up b r Hb Hr), (classify_lora_B b r Hb Hr).
Qed.




End GroupingSteps.

(* ===================================================================== *)
(** * The frame count *)
(* ===================================================================== *)

Section Frames.
Local Open Scope Z_scope.

Example py_round_ties_to_even :
  map py_round [5 # 2; 7 # 2; -5 # 2; 1 # 2; 3 # 2; 7 # 8; -1 # 8]%Q
  = [2; 4; -2; 0; 2; 1; 0].
Proof. vm_compute. reflexivity. Qed.

(** [round] on a multiple of an eighth, by the remainder. *)
Lemma py_round_eighths k :
  py_round (k # 8)
  = if k mod 8 <? 4 then k / 8
    else if 4 <? k mod 8 then k / 8 + 1
    else if Z.even (k / 8) then k / 8 else k / 8 + 1.
Proof.
  unfold py_round.
  change (Qfloor (k # 8)) with (k / 8).
  unfold Qcompare, Qminus, Qplus, Qopp, inject_Z. cbn [Qnum Qden].
  replace ((k * 1 + - (k / 8) * 8) * 2) with (2 * (k mod 8))
    by (rewrite Z.mod_eq; lia).
  change (Z.pos (8 * 1)) with 8. change (1 * 8) with 8.
  destruct (Z.compare_spec (2 * (k mod 8)) 8) as [E|E|E].
  - replace (k mod 8 <? 4) with false by (symmetry; apply Z.ltb_ge; lia).
    replace (4 <? k mod 8) with false by (symmetry; apply Z.ltb_ge; lia).
    reflexivity.
  - replace (k mod 8 <? 4) with true by (symmetry; apply Z.ltb_lt; lia).
    reflexivity.
  - replace (k mod 8 <? 4) with false by (symmetry; apply Z.ltb_ge; lia).
    replace (4 <? k mod 8) with true by (symmetry; apply Z.ltb_lt; lia).
    reflexivity.
Qed.

Lemma adjust_conforming n : conforming (adjust_num_frames n).
Proof.
  unfold adjust_num_frames, conforming.
  destruct (n mod 8 =? 1) eqn:E; cbn [negb].
  - now apply Z.eqb_eq in E.
  - rewrite Z.add_comm, Z.mod_add by lia. reflexivity.
Qed.



End Frames.

(* ===================================================================== *)
(** * The path resolver *)
(* ===================================================================== *)

Section Resolver.
Local Open Scope string_scope.

(** Where attribute access fails the named fallback fails too. *)
Lemma transformer_blocks_fallback_dead curr part :
  dict_get String.eqb part (obj_attrs curr) = None ->
  transformer_blocks_fallback curr part = Invalid.
Proof.
  intros Hattr. unfold transformer_blocks_fallback.
  destruct (dict_get String.eqb "transformer_blocks" (obj_attrs curr)) eqn:Htb;
    [|reflexivity].
  destruct (String.eqb part "transformer_blocks") eqn:E; [|reflexivity].
  apply String.eqb_eq in E. subst part. congruence.
Qed.

(** The chain of lines 174-190 tries the five strategies in the order
    the specification gives. *)
Lemma resolve_step_ordered curr part :
  resolve_step curr part = resolve_step_spec curr part.
Proof.
  unfold resolve_step, resolve_step_spec, first_success,
    by_attribute, by_mapping_key, by_mapping_int, by_sequence_index,
    by_transformer_blocks, transformer_blocks_fallback.
  destruct (dict_get String.eqb part (obj_attrs curr)); [reflexivity|].
  destruct (obj_cont curr) as [items|elems|].
  - destruct (dict_get pykey_eqb (KStr part) items); [reflexivity|].
    destruct (PyStr.isdigit part).
    + destruct (PyStr.int_of_str part) as [z|]; [|reflexivity].
      destruct (dict_get pykey_eqb (KInt z) items); [reflexivity|].
      destruct (dict_get String.eqb "transformer_blocks" (obj_attrs curr));
        [|reflexivity].
      now destruct (String.eqb part "transformer_blocks").
    + destruct (dict_get String.eqb "transformer_blocks" (obj_attrs curr));
        [|reflexivity].
      now destruct (String.eqb part "transformer_blocks").
  - destruct (PyStr.isdigit part).
    + destruct (PyStr.int_of_str part) as [z|]; [|reflexivity].
      now destruct (elems !! Z.to_nat z).
    + destruct (dict_get String.eqb "transformer_blocks" (obj_attrs curr));
        [|reflexivity].
      now destruct (String.eqb part "transformer_blocks").
  - destruct (dict_get String.eqb "transformer_blocks" (obj_attrs curr));
      [|reflexivity].
    now destruct (String.eqb part "transformer_blocks").
Qed.

(** A step raises only at a segment that [isdigit] accepts and [int]
    rejects. *)
Lemma resolve_step_raises curr part e :
  resolve_step curr part = StepRaises e ->
  PyStr.isdigit part = true /\ PyStr.int_of_str part = None.
Proof.
  unfold resolve_step.
  destruct (dict_get String.eqb part (obj_attrs curr)) eqn:Hattr; [discriminate|].
  rewrite (transformer_blocks_fallback_dead _ _ Hattr).
  destruct (obj_cont curr) as [items|elems|]; [| |discriminate].
  - destruct (dict_get pykey_eqb (KStr part) items); [discriminate|].
    destruct (PyStr.isdigit part); [|discriminate].
    destruct (PyStr.int_of_str part) as [z|]; [|easy].
    destruct (dict_get pykey_eqb (KInt z) items); discriminate.
  - destruct (PyStr.isdigit part); [|discriminate].
    destruct (PyStr.int_of_str part) as [z|]; [|easy].
    destruct (elems !! Z.to_nat z); discriminate.
Qed.

(** The walk does not raise on a path whose digit segments are decimal
    literals [int] accepts. *)
Lemma resolve_never_raises parts :
  Forall (fun part => PyStr.isdigit part = true ->
                      PyStr.int_of_str part <> None) parts ->
  forall curr e, resolve curr parts <> ResolveRaises e.
Proof.
  induction 1 as [|part parts Hpart _ IH]; intros curr e; [discriminate|].
  cbn [resolve]. destruct (resolve_step curr part) eqn:Hs.
  - apply IH.
  - discriminate.
  - apply resolve_step_raises in Hs as [Hd Hi]. now apply Hpart in Hd.
Qed.

End Resolver.

Section MergeLoop.
Local Open Scope string_scope.
Context {num : Type} `{Arith num}.

(** An entry whose path does not resolve, or resolves to something that
    is not a linear layer, is skipped and the loop goes on with the
    entries after it. *)
Lemma merge_groups_skips_unresolved model strength name (g : group num) groups st :
  (resolve model (PyStr.split_char "." name) = Unresolved
   \/ exists o, resolve model (PyStr.split_char "." name) = Resolved o
                /\ obj_linear o = None) ->
  merge_entry model strength st (name, g) = inr st
  /\ merge_groups model strength ((name, g) :: groups) st
     = merge_groups model strength groups st.
Proof.
  intros Hres.
  assert (Hskip : merge_entry model strength st (name, g) = inr st).
  { unfold merge_entry. destruct (g_down g); [|reflexivity].
    destruct (g_up g); [|reflexivity].
    destruct Hres as [->|(o & -> & ->)]; reflexivity. }
  split; [exact Hskip|]. cbn [merge_groups]. now rewrite Hskip.
Qed.

(** An incomplete group is skipped. *)
Lemma merge_entry_incomplete model strength name (g : group num) st :
  g_down g = None \/ g_up g = None ->
  merge_entry model strength st (name, g) = inr st.
Proof.
  unfold merge_entry. intros [->| ->]; [reflexivity|].
  now destruct (g_down g).
Qed.

End MergeLoop.

Section ResolverOnSamples.
Import Samples.
Local Open Scope string_scope.
Local Open Scope Z_scope.

Example resolve_attribute :
  resolve model (PyStr.split_char "." "proj") = Resolved (linear_obj 0%nat).
Proof. vm_compute. reflexivity. Qed.

Example resolve_sequence_index :
  resolve model (PyStr.split_char "." "transformer_blocks.0.to_q")
  = Resolved (linear_obj 1%nat).
Proof. vm_compute. reflexivity. Qed.

Example resolve_missing_segment :
  resolve model (PyStr.split_char "." "transformer_blocks.7.to_q") = Unresolved.
Proof. vm_compute. reflexivity. Qed.

(** An unmapped entry is skipped and the entry after it is merged. *)
Example unmapped_entry_is_skipped :
  let out := apply_lora_weights (fs_with unmapped_adapter) model weights0
               "lora.safetensors" (q 1) in
  out_raised out = None
  /\ out_log out = [LogApplying "lora.safetensors" (q 1); LogApplied 1]
  /\ out_weights out !! 0%nat = Some (qtensor [[2; 3]; [5; 6]]).
Proof. vm_compute. repeat split; reflexivity. Qed.

(** C3. The resolver is meant to skip, without raising, every entry
    whose path does not resolve; at a segment such as U+00B2, which
    [isdigit] accepts and [int] rejects, the walk raises [ValueError]
    on any mapping that lacks the segment, the exception leaves
    [apply_lora_weights], and the entries after it are not merged. *)
Theorem resolver_raises_on_superscript_digit :
  PyStr.isdigit superscript_two = true
  /\ PyStr.int_of_str superscript_two = None
  /\ resolve model (PyStr.split_char "." superscript_two)
     = ResolveRaises ValueError
  /\ (let out := apply_lora_weights (fs_with superscript_adapter) model weights0
                   "lora.safetensors" (q 1) in
      out_raised out = Some ValueError
      /\ out_weights out !! 0%nat = weights0 !! 0%nat)
  /\ (let out := apply_lora_weights (fs_with proj_adapter) model weights0
                   "lora.safetensors" (q 1) in
      out_raised out = None
      /\ out_weights out !! 0%nat = Some (qtensor [[2; 3]; [5; 6]])).
Proof. vm_compute. repeat split; reflexivity. Qed.

End ResolverOnSamples.

(* ===================================================================== *)
(** * Tensors: shapes *)
(* ===================================================================== *)

Section TensorFacts.
Context {num : Type} `{Arith num}.





Lemma dtype_eqb_eq a b : dtype_eqb a b = true <-> a = b.
Proof. destruct a, b; simpl; split; congruence. Qed.

Lemma promote_same a : promote a a = a.
Proof. now destruct a. Qed.

Lemma dtype_astype dt (t : tensor num) : t_dtype (astype dt t) = dt.
Proof.
  unfold astype. destruct (dtype_eqb (t_dtype t) dt) eqn:E; [|reflexivity].
  now apply dtype_eqb_eq.
Qed.






End TensorFacts.

(* ===================================================================== *)
(** * The delta merge *)
(* ===================================================================== *)

Section MergeWeight.
Context {num : Type} `{Arith num}.


(** Lines 207-208 are [astype], which keeps a tensor of that dtype. *)
Lemma cast_delta (delta : tensor num) dt :
  (if negb (dtype_eqb (t_dtype delta) dt) then astype dt delta else delta)
  = astype dt delta.
Proof. unfold astype. now destruct (dtype_eqb (t_dtype delta) dt). Qed.

End MergeWeight.

Section ExactMerge.
Import Exact.
Local Open Scope Qc_scope.



Lemma madd_twice w p c :
  madd (madd w (mscale c p)) (mscale c p) = madd w (mscale (c + c) p).
Proof.
  unfold madd, mscale. revert p. induction w as [|a w IH]; intros [|b p];
    try reflexivity.
  cbn [map zip_with]. rewrite IH. f_equal.
  clear. revert b. induction a as [|x a IH]; intros [|y b]; try reflexivity.
  cbn [map zip_with]. rewrite IH. f_equal. ring.
Qed.

End ExactMerge.

Section ExactDelta.
Import Exact.
Local Open Scope Qc_scope.












Lemma add_delta_twice l c p w :
  add_delta l (mscale c p) (add_delta l (mscale c p) w)
  = add_delta l (mscale (c + c) p) w.
Proof.
  unfold add_delta. destruct (w !! l) as [wt|] eqn:Hw; [|now rewrite Hw].
  rewrite lookup_insert_eq. cbn [t_dtype t_rows].
  now rewrite insert_insert_eq, madd_twice.
Qed.



Lemma run_target_twice s t w :
  run_target s (run_target s w t) t = run_target (s + s) w t.
Proof.
  destruct t as [| |l c p]; try reflexivity. cbn [run_target].
  rewrite add_delta_twice. do 2 f_equal. ring.
Qed.












End ExactDelta.

(* ===================================================================== *)
(** * Strength zero, in IEEE arithmetic *)
(* ===================================================================== *)

Section ZeroStrength.
Import IEEE.
















End ZeroStrength.

Section ZeroStrengthOnSamples.
Import IEEE Samples.
Local Open Scope string_scope.




End ZeroStrengthOnSamples.

(* ===================================================================== *)
(** * A missing or unreadable adapter file *)
(* ===================================================================== *)

Section UnreadableFile.
Local Open Scope string_scope.

(** C8. When the adapter path does not exist, or [mx.load] raises on
    it, [apply_lora_weights] returns without an exception, no weight is
    changed and no layer is reported as patched. *)
Theorem unreadable_file_skips_merge {num : Type} `{Arith num}
    (fs : file_system num) model (w : gmap nat (tensor num)) lora_path strength :
  path_exists fs lora_path = false \/ mx_load fs lora_path = None ->
  let out := apply_lora_weights fs model w lora_path strength in
  out_weights out = w
  /\ out_raised out = None
  /\ (forall n, ~ In (LogApplied n) (out_log out)).
Proof.
  intros Hfile out. unfold out, apply_lora_weights.
  destruct (path_exists fs lora_path) eqn:Hex; cbn [negb].
  - destruct Hfile as [Hfile| ->]; [discriminate Hfile|].
    cbn. repeat split. intros n [Hn|[Hn|[]]]; discriminate Hn.
  - cbn. repeat split. intros n [Hn|[]]. discriminate Hn.
Qed.

Lemma unreadable_file_witness :
  (let out := apply_lora_weights (Samples.fs_with Samples.proj_adapter)
                Samples.model Samples.weights0 "missing.safetensors" (Samples.q 1) in
   out_weights out = Samples.weights0 /\ out_raised out = None
   /\ (forall n, ~ In (LogApplied n) (out_log out)))
  /\ (let out := apply_lora_weights Samples.fs_broken
                   Samples.model Samples.weights0 "broken.safetensors" (Samples.q 1) in
      out_weights out = Samples.weights0 /\ out_raised out = None
      /\ (forall n, ~ In (LogApplied n) (out_log out))).
Proof.
  split.
  - apply (unreadable_file_skips_merge (Samples.fs_with Samples.proj_adapter)
             Samples.model Samples.weights0 "missing.safetensors" (Samples.q 1)).
    left. reflexivity.
  - apply (unreadable_file_skips_merge Samples.fs_broken
             Samples.model Samples.weights0 "broken.safetensors" (Samples.q 1)).
    right. reflexivity.
Defined.

End UnreadableFile.

Section ExactDeltaOnSamples.
Import Exact Samples.
Local Open Scope string_scope.
Local Open Scope Z_scope.

Example matmul_sample :
  product (qtensor [[1; 2]; [3; 4]]) (qtensor [[5; 6]; [7; 8]])
  = t_rows (qtensor [[19; 22]; [43; 50]]).
Proof. vm_compute. reflexivity. Qed.

(** Applying the sample adapter twice at strength 1 is not applying it
    once: the first row of [proj] goes from [1 2] to [2 3] and then to
    [3 4]. *)
Example file_applied_twice :
  let once := apply_lora_weights (fs_with proj_adapter) model weights0
                "lora.safetensors" (q 1) in
  let twice := apply_lora_weights (fs_with proj_adapter) model (out_weights once)
                 "lora.safetensors" (q 1) in
  let double := apply_lora_weights (fs_with proj_adapter) model weights0
                  "lora.safetensors" (q 2) in
  out_weights once !! 0%nat = Some (qtensor [[2; 3]; [5; 6]])
  /\ out_weights twice !! 0%nat = Some (qtensor [[3; 4]; [7; 8]])
  /\ out_weights double !! 0%nat = Some (qtensor [[3; 4]; [7; 8]]).
Proof. vm_compute. repeat split; reflexivity. Qed.


End ExactDeltaOnSamples.

Section GroupingWitness.
Local Open Scope string_scope.

Lemma convention_agnostic_grouping_witness :
  group_key ("transformer_blocks.0.attn1.to_q" ++ ".lora_down" ++ ".weight")
  = group_key ("transformer_blocks.0.attn1.to_q" ++ ".lora_A" ++ ".weight").
Proof.
  refine (proj1 (convention_agnostic_grouping (num := Qc)
                   "transformer_blocks.0.attn1.to_q" ".weight" _ _));
    vm_compute; reflexivity.
Defined.


End GroupingWitness.

(* ===================================================================== *)
(** * The stage transition *)
(* ===================================================================== *)

Section Transition.
Context {latent_t rng : Type}.
Context (mul add sub : latent_t -> latent_t -> latent_t).
Context (one stage_2_sigma_0 : latent_t).
Context (zeros_like : latent_t -> latent_t) (ones_mask : latent_t).
Context (random_normal_like : rng -> latent_t -> latent_t * rng).
Context (upsample_latents : latent_t -> latent_t).
Context (apply_conditioning :
           @LatentState latent_t -> list (@conditioning latent_t)
           -> @LatentState latent_t).

Let transition :=
  stage_transition mul add sub one stage_2_sigma_0 zeros_like ones_mask
    random_normal_like upsample_latents apply_conditioning.



End Transition.

Section TransitionOnSample.
Import TransitionSample.
Local Open Scope Qc_scope.

Let q := Samples.q.


End TransitionOnSample.

(* ===================================================================== *)
(** * The request loop *)
(* ===================================================================== *)

Section ServerFacts.
Local Open Scope string_scope.
Context (json_loads : string -> option json).
Context (generate_av : list (string * json) -> gen_run).

Lemma write_fd_redirected fd cs sv :
  redirected sv -> fd = 1%nat \/ fd = 2%nat ->
  fds (write_fd fd cs sv) = fds sv
  /\ host_stdout (write_fd fd cs sv) = host_stdout sv
  /\ stdout_buffer (write_fd fd cs sv) = stdout_buffer sv.
Proof.
  intros [H1 H2] [-> | ->]; unfold write_fd; rewrite ?H1, ?H2; now cbn.
Qed.

Lemma flush_redirected sv :
  redirected sv ->
  fds (flush_stdout sv) = fds sv
  /\ host_stdout (flush_stdout sv) = host_stdout sv
  /\ stdout_buffer (flush_stdout sv) = [].
Proof.
  intros Hr. unfold flush_stdout.
  set (sv0 := Server (fds sv) [] (host_stdout sv) (host_stderr sv)).
  assert (Hr0 : redirected sv0) by exact Hr.
  destruct (write_fd_redirected 1 (stdout_buffer sv) sv0 Hr0 (or_introl eq_refl))
    as (Hf & Ho & Hb).
  now rewrite Hf, Ho, Hb.
Qed.

Lemma do_event_redirected sv ev :
  redirected sv ->
  fds (do_event sv ev) = fds sv /\ host_stdout (do_event sv ev) = host_stdout sv.
Proof.
  intros Hr. destruct ev as [s|s|s]; cbn [do_event].
  - unfold stdout_write.
    set (sv0 := Server (fds sv) (stdout_buffer sv ++ [Text s]) (host_stdout sv)
                       (host_stderr sv)).
    assert (Hr0 : redirected sv0) by exact Hr.
    destruct (has_newline s); [|now split].
    destruct (flush_redirected sv0 Hr0) as (Hf & Ho & _). now rewrite Hf, Ho.
  - destruct (write_fd_redirected 1 [Text s] sv Hr (or_introl eq_refl)) as (Hf & Ho & _).
    now split.
  - destruct (write_fd_redirected 2 [Text s] sv Hr (or_intror eq_refl)) as (Hf & Ho & _).
    now split.
Qed.

Lemma do_events_redirected evs : forall sv,
  redirected sv ->
  fds (fold_left do_event evs sv) = fds sv
  /\ host_stdout (fold_left do_event evs sv) = host_stdout sv.
Proof.
  induction evs as [|ev evs IH]; intros sv Hr; [now split|].
  cbn [fold_left]. destruct (do_event_redirected sv ev Hr) as [Hf Ho].
  assert (Hr' : redirected (do_event sv ev)).
  { unfold redirected. now rewrite Hf. }
  destruct (IH _ Hr') as [Hf' Ho']. split; congruence.
Qed.

Lemma try_generate_redirected params sv :
  redirected sv ->
  fds (fst (try_generate generate_av params sv)) = fds sv
  /\ host_stdout (fst (try_generate generate_av params sv)) = host_stdout sv.
Proof.
  intros Hr. unfold try_generate. destruct params; try (now split).
  pose proof (do_events_redirected
                (run_events (generate_av (build_kwargs fields))) sv Hr) as H.
  now destruct (run_raises (generate_av (build_kwargs fields))).
Qed.

Lemma first_free_is_free (m : gmap nat pipe) fuel : forall n bound,
  m !! bound = None -> m !! first_free m n fuel bound = None.
Proof.
  induction fuel as [|fuel IH]; intros n bound Hb; cbn [first_free]; [exact Hb|].
  destruct (m !! n) eqn:Hn; [now apply IH|exact Hn].
Qed.

Lemma os_dup_fresh fd sv new sv' :
  os_dup fd sv = Some (new, sv') ->
  exists p, fds sv !! fd = Some p /\ fds sv !! new = None
            /\ sv' = Server (<[new := p]> (fds sv)) (stdout_buffer sv)
                            (host_stdout sv) (host_stderr sv).
Proof.
  unfold os_dup. destruct (fds sv !! fd) as [p|] eqn:Hfd; [|discriminate].
  intros Heq. injection Heq as <- <-. exists p. split; [reflexivity|]. split; [|reflexivity].
  apply first_free_is_free. apply not_elem_of_dom, is_fresh.
Qed.

Lemma restore_ready new sv (fds0 : gmap nat pipe) :
  fds sv = <[1%nat := HostStderr]> (<[new := HostStdout]> fds0) ->
  fds0 !! new = None ->
  fds0 !! 1%nat = Some HostStdout ->
  fds0 !! 2%nat = Some HostStderr ->
  exists sv', restore_stdout new sv = Some sv'
              /\ fds sv' = fds0 /\ stdout_buffer sv' = []
              /\ host_stdout sv' = host_stdout sv.
Proof.
  intros Hfds Hnew H1 H2.
  assert (Hn1 : new <> 1%nat) by congruence.
  assert (Hn2 : new <> 2%nat) by congruence.
  assert (Hr : redirected sv).
  { unfold redirected. rewrite Hfds. split.
    - apply lookup_insert_eq.
    - rewrite lookup_insert_ne by congruence.
      rewrite lookup_insert_ne by congruence. exact H2. }
  destruct (flush_redirected sv Hr) as (Hf & Ho & Hb).
  unfold restore_stdout, os_dup2.
  assert (Hlook : fds (flush_stdout sv) !! new = Some HostStdout).
  { rewrite Hf, Hfds. rewrite lookup_insert_ne by congruence.
    apply lookup_insert_eq. }
  rewrite Hlook. eexists. split; [reflexivity|].
  cbn [os_close fds stdout_buffer host_stdout]. rewrite Hf, Ho, Hb, Hfds.
  split; [|now split].
  apply map_eq. intros fd.
  destruct (decide (fd = new)) as [->|Hne].
  - now rewrite lookup_delete_eq.
  - rewrite lookup_delete_ne by congruence.
    destruct (decide (fd = 1%nat)) as [->|Hne1].
    + now rewrite lookup_insert_eq.
    + rewrite !lookup_insert_ne by congruence. reflexivity.
Qed.

Lemma print_json_ready j sv :
  fds sv !! 1%nat = Some HostStdout -> stdout_buffer sv = [] ->
  fds (print_json j sv) = fds sv
  /\ stdout_buffer (print_json j sv) = []
  /\ host_stdout (print_json j sv) = (host_stdout sv ++ [JsonLine j])%list.
Proof.
  intros H1 Hb. unfold print_json, stdout_write, flush_stdout, write_fd.
  cbn [fds stdout_buffer host_stdout host_stderr]. rewrite H1, Hb. now cbn.
Qed.

(** A ["generate"] request on a ready server: the state [sv'] in which
    the redirection has been undone, and what follows. *)
Lemma handle_generate_restores fields sv :
  server_ready sv ->
  exists sv',
    handle_generate generate_av fields sv
    = match expected_response generate_av
              (get_default "params" (JObj []) fields) with
      | inr result => (print_json result sv', Continue)
      | inl e => outer_handlers e sv'
      end
    /\ fds sv' = fds sv /\ stdout_buffer sv' = []
    /\ host_stdout sv' = host_stdout sv.
Proof.
  intros (H1 & H2 & Hb). unfold handle_generate.
  set (params := get_default "params" (JObj []) fields).
  destruct (os_dup 1 sv) as [[new sv1]|] eqn:Hdup;
    [|unfold os_dup in Hdup; rewrite H1 in Hdup; discriminate Hdup].
  apply os_dup_fresh in Hdup as (p & Hp & Hnew & ->).
  assert (p = HostStdout) by congruence. subst p.
  assert (Hn1 : new <> 1%nat) by congruence.
  assert (Hn2 : new <> 2%nat) by congruence.
  unfold os_dup2 at 1. cbn [fds stdout_buffer host_stdout host_stderr].
  rewrite lookup_insert_ne by congruence. rewrite H2.
  set (sv2 := Server (<[1%nat := HostStderr]> (<[new := HostStdout]> (fds sv)))
                     (stdout_buffer sv) (host_stdout sv) (host_stderr sv)).
  assert (Hr2 : redirected sv2).
  { split; cbn [sv2 fds].
    - apply lookup_insert_eq.
    - rewrite !lookup_insert_ne by congruence. exact H2. }
  destruct (try_generate_redirected params sv2 Hr2) as [Hf3 Ho3].
  change (host_stdout sv2) with (host_stdout sv) in Ho3.
  assert (Hresp :
    match snd (try_generate generate_av params sv2) with
    | inl e => match r_class e with
               | IsException => inr (error_result e)
               | _ => inl e
               end
    | inr result => inr result
    end = expected_response generate_av params).
  { unfold try_generate, expected_response. destruct params; try reflexivity.
    now destruct (run_raises (generate_av (build_kwargs fields0))). }
  destruct (try_generate generate_av params sv2) as [sv3 r]. cbn [fst snd] in *.
  rewrite <- Hresp. clear Hresp.
  assert (Hr3 : redirected sv3) by (unfold redirected; now rewrite Hf3).
  destruct r as [e|result]; [destruct (r_class e) eqn:Hclass|].
  - destruct (write_fd_redirected 2 [TracebackOf e] sv3 Hr3 (or_intror eq_refl))
      as (Hf & Ho & _).
    destruct (restore_ready new (write_fd 2 [TracebackOf e] sv3) (fds sv)
                ltac:(rewrite Hf, Hf3; reflexivity) Hnew H1 H2)
      as (sv' & -> & Hf' & Hb' & Ho').
    exists sv'. split; [reflexivity|]. split; [exact Hf'|]. split; [exact Hb'|].
    congruence.
  - destruct (restore_ready new sv3 (fds sv) Hf3 Hnew H1 H2)
      as (sv' & -> & Hf' & Hb' & Ho').
    exists sv'. split; [reflexivity|]. split; [exact Hf'|]. split; [exact Hb'|].
    congruence.
  - destruct (restore_ready new sv3 (fds sv) Hf3 Hnew H1 H2)
      as (sv' & -> & Hf' & Hb' & Ho').
    exists sv'. split; [reflexivity|]. split; [exact Hf'|]. split; [exact Hb'|].
    congruence.
  - destruct (restore_ready new sv3 (fds sv) Hf3 Hnew H1 H2)
      as (sv' & -> & Hf' & Hb' & Ho').
    exists sv'. split; [reflexivity|]. split; [exact Hf'|]. split; [exact Hb'|].
    congruence.
Qed.

Lemma handle_generate_ready fields sv :
  server_ready sv ->
  match expected_response generate_av (get_default "params" (JObj []) fields) with
  | inr result =>
      exists sv', handle_generate generate_av fields sv = (sv', Continue)
                  /\ host_stdout sv' = (host_stdout sv ++ [JsonLine result])%list
                  /\ fds sv' = fds sv
                  /\ server_ready sv'
  | inl e =>
      exists sv' status, handle_generate generate_av fields sv = (sv', status)
                         /\ status <> Continue
                         /\ host_stdout sv' = host_stdout sv
                         /\ fds sv' = fds sv
  end.
Proof.
  intros Hready. pose proof Hready as (H1 & H2 & Hb).
  destruct (handle_generate_restores fields sv Hready)
    as (sv' & Hrun & Hf' & Hb' & Ho').
  rewrite Hrun.
  destruct (expected_response generate_av _) as [e|result] eqn:Hexp.
  - assert (Hclass : r_class e <> IsException).
    { unfold expected_response in Hexp.
      destruct (get_default "params" (JObj []) fields); try discriminate Hexp.
      destruct (run_raises _) as [e'|]; [|discriminate Hexp].
      destruct (r_class e') eqn:Hc; [discriminate Hexp| |];
        injection Hexp as <-; congruence. }
    unfold outer_handlers. destruct (r_class e); [congruence| |].
    + exists sv', Break. now repeat split.
    + exists sv', (Propagates e). now repeat split.
  - assert (H1' : fds sv' !! 1%nat = Some HostStdout) by now rewrite Hf'.
    destruct (print_json_ready result sv' H1' Hb') as (Hfp & Hbp & Hop).
    eexists. split; [reflexivity|]. split; [congruence|]. split; [congruence|].
    unfold server_ready. rewrite Hfp, Hf'. now repeat split.
Qed.

Lemma handle_line_generate sv line result :
  server_ready sv -> answered_with json_loads generate_av line result ->
  exists sv', handle_line json_loads generate_av sv line = (sv', Continue)
              /\ host_stdout sv' = (host_stdout sv ++ [JsonLine result])%list
              /\ fds sv' = fds sv
              /\ server_ready sv'.
Proof.
  intros Hready (Hline & Hstrip & fields & Hloads & Hcmd & Hresp).
  unfold handle_line. rewrite Hline, Hstrip, Hloads.
  assert (Hping : is_str "ping" (get_default "command" JNull fields) = false).
  { destruct (get_default "command" JNull fields); try discriminate Hcmd.
    cbn in *. apply String.eqb_eq in Hcmd. now subst. }
  rewrite Hping, Hcmd.
  pose proof (handle_generate_ready fields sv Hready) as Hgen.
  now rewrite Hresp in Hgen.
Qed.

(** Every request of a run of ["generate"] requests gets its line, in
    order, and nothing else reaches the host's standard output. *)
Lemma serve_generate_requests lines results : forall sv,
  server_ready sv ->
  Forall2 (answered_with json_loads generate_av) lines results ->
  host_stdout (fst (serve json_loads generate_av lines sv))
  = (host_stdout sv ++ map JsonLine results)%list
  /\ snd (serve json_loads generate_av lines sv) = None.
Proof.
  intros sv Hready Hall. revert sv Hready.
  induction Hall as [|line result lines results Hline _ IH]; intros sv Hready.
  - cbn. now rewrite app_nil_r.
  - destruct (handle_line_generate sv line result Hready Hline)
      as (sv' & Hstep & Hout & _ & Hready').
    cbn [serve]. rewrite Hstep.
    destruct (IH sv' Hready') as [Hout' Hnone]. split; [|exact Hnone].
    rewrite Hout', Hout. cbn [map]. now rewrite <- app_assoc.
Qed.


End ServerFacts.

Section ServerOnSample.
Import ServerSample.
Local Open Scope string_scope.

Lemma initial_server_ready : server_ready initial_server.
Proof. repeat split. Qed.

(** Two requests, the first failing: each gets its line, the text of the
    generations goes to standard error, and the descriptors are
    restored. *)
Example failing_request_does_not_stop_the_loop :
  let sv := fst (serve loads failing_generate_av [request_line; request_line]
                   initial_server) in
  host_stdout sv
  = [JsonLine (JObj [("success", JBool false); ("error", JStr "out of memory")]);
     JsonLine (JObj [("success", JBool false); ("error", JStr "out of memory")])]
  /\ fds sv = fds initial_server
  /\ host_stderr sv
     = [Text "encoder banner";
        TracebackOf (Raised IsException "out of memory");
        Text "loading";
        Text "encoder banner";
        TracebackOf (Raised IsException "out of memory");
        Text "loading"].
Proof. vm_compute. repeat split; reflexivity. Qed.

Example working_request :
  host_stdout (fst (serve loads working_generate_av [request_line] initial_server))
  = [JsonLine (JObj [("success", JBool true);
                     ("video_path", JStr "output.mp4");
                     ("seed", JInt 7);
                     ("mode", JStr "t2v");
                     ("has_audio", JBool true)])].
Proof. vm_compute. reflexivity. Qed.



End ServerOnSample.

(* ===================================================================== *)
(** * More of [apply_lora_weights] *)
(* ===================================================================== *)

Section DictFacts.
Context {V : Type}.

Lemma dict_get_set_eq k (v : V) d :
  dict_get String.eqb k (dict_set String.eqb k v d) = Some v.
Proof.
  induction d as [|[k' v'] d IH]; cbn [dict_set dict_get].
  - now rewrite String.eqb_refl.
  - destruct (String.eqb k k') eqn:E; cbn [dict_get]; rewrite E; [reflexivity|exact IH].
Qed.

Lemma dict_get_set_ne k k' (v : V) d :
  String.eqb k' k = false ->
  dict_get String.eqb k' (dict_set String.eqb k v d) = dict_get String.eqb k' d.
Proof.
  intros Hne. induction d as [|[k0 v0] d IH]; cbn [dict_set dict_get].
  - now rewrite Hne.
  - destruct (String.eqb k k0) eqn:E; cbn [dict_get].
    + apply String.eqb_eq in E. subst k0. rewrite Hne. reflexivity.
    + destruct (String.eqb k' k0); [reflexivity|exact IH].
Qed.

Lemma dict_get_In k (v : V) d :
  dict_get String.eqb k d = Some v -> In (k, v) d.
Proof.
  induction d as [|[k0 v0] d IH]; cbn [dict_get]; [discriminate|].
  destruct (String.eqb k k0) eqn:E.
  - apply String.eqb_eq in E. subst k0. intros [= ->]. now left.
  - intros Hget. right. now apply IH.
Qed.

Lemma dict_set_Forall (P : string * V -> Prop) k v d :
  (forall k0, P (k0, v)) -> Forall P d -> Forall P (dict_set String.eqb k v d).
Proof.
  intros Hv. induction 1 as [|[k0 v0] d Hkv Hd IH]; cbn [dict_set].
  - constructor; [apply Hv|constructor].
  - destruct (String.eqb k k0); constructor; auto.
Qed.

End DictFacts.

Section GroupingLast.
Import PyStr.
Local Open Scope string_scope.
Context {num : Type} `{Arith num}.

Lemma group_role_set_role r t v (g : group num) :
  group_role r (set_role t v g) = if role_eqb t r then Some v else group_role r g.
Proof. now destruct r, t. Qed.



Lemma role_eqb_eq a b : role_eqb a b = true <-> a = b.
Proof. destruct a, b; simpl; split; congruence. Qed.



End GroupingLast.

Section MergeFrame.
Import PyStr.
Local Open Scope string_scope.
Context {num : Type} `{Arith num}.

(** The merged weight has the dtype of the weight (lines 207-210). *)
Lemma merge_weight_dtype (weight down up : tensor num) alpha strength weight' :
  merge_weight weight down up alpha strength = inr weight' ->
  t_dtype weight' = t_dtype weight.
Proof.
  unfold merge_weight. destruct (lora_scale down alpha); [discriminate|].
  destruct (lora_delta down up n strength) as [|delta]; [discriminate|].
  rewrite cast_delta. unfold tadd.
  destruct (broadcast_dim _ _); [|discriminate].
  destruct (broadcast_dim _ _); [|discriminate].
  intros [= <-]. cbn [t_dtype]. now rewrite dtype_astype, promote_same.
Qed.

(** What one turn of the merge loop does to the state. *)
Lemma merge_entry_inv model strength (st : merge_state num) entry st' :
  merge_entry model strength st entry = inr st' ->
  st' = st
  \/ exists layer weight weight' o,
       complete (snd entry) = true
       /\ resolve model (split_char "." (fst entry)) = Resolved o
       /\ obj_linear o = Some layer
       /\ weights st !! layer = Some weight
       /\ t_dtype weight' = t_dtype weight
       /\ st' = MergeState (<[layer := weight']> (weights st))
                           (S (applied_count st)).
Proof.
  destruct entry as [name g]. unfold merge_entry, complete. cbn [fst snd].
  destruct (g_down g) as [down|]; [|intros [= <-]; now left].
  destruct (g_up g) as [up|]; [|intros [= <-]; now left].
  destruct (resolve model (split_char "." name)) as [o| |e] eqn:Hres;
    [|intros [= <-]; now left|discriminate].
  destruct (obj_linear o) as [layer|] eqn:Hlin; [|intros [= <-]; now left].
  destruct (weights st !! layer) as [weight|] eqn:Hw; [|discriminate].
  destruct (merge_weight weight down up (g_alpha g) strength) as [|weight'] eqn:Hm;
    [discriminate|].
  intros [= <-]. right. exists layer, weight, weight', o.
  split; [reflexivity|]. split; [reflexivity|]. split; [exact Hlin|].
  split; [exact Hw|]. split; [|reflexivity]. eapply merge_weight_dtype, Hm.
Qed.

Lemma merge_groups_frame model strength groups : forall (st st' : merge_state num) r,
  merge_groups model strength groups st = (st', r) ->
  dom (weights st') =@{gset nat} dom (weights st)
  /\ (forall l t t', weights st !! l = Some t -> weights st' !! l = Some t' ->
                     t_dtype t' = t_dtype t)
  /\ (forall l, weights st' !! l <> weights st !! l -> targeted model groups l).
Proof.
  induction groups as [|entry groups IH]; intros st st' r; cbn [merge_groups].
  - intros [= <- <-]. split; [reflexivity|]. split; [congruence|]. congruence.
  - destruct (merge_entry model strength st entry) as [e|st1] eqn:Hentry.
    + intros [= <- <-]. split; [reflexivity|]. split; [congruence|]. congruence.
    + intros Hrest. destruct (IH _ _ _ Hrest) as (Hdom & Hdt & Hch).
      assert (Hlift : forall l, targeted model groups l -> targeted model (entry :: groups) l).
      { intros l (name & g & o & Hin & Hrest'). exists name, g, o.
        split; [now right|exact Hrest']. }
      apply merge_entry_inv in Hentry
        as [->|(layer & weight & weight' & o & Hc & Hres & Hlin & Hw & Hdtw & ->)].
      * split; [exact Hdom|]. split; [exact Hdt|]. intros l Hl. auto.
      * cbn [weights] in *. split; [|split].
        -- rewrite Hdom. apply dom_insert_lookup_L. now rewrite Hw.
        -- intros l t t' Ht Ht'.
           destruct (decide (l = layer)) as [->|Hne].
           ++ rewrite (Hdt layer weight' t' (lookup_insert_eq _ _ _) Ht'). congruence.
           ++ apply (Hdt l t t'); [|exact Ht']. now rewrite lookup_insert_ne.
        -- intros l Hl. destruct (decide (l = layer)) as [->|Hne].
           ++ destruct entry as [name g]. exists name, g, o. split; [now left|].
              now repeat split.
           ++ apply Hlift, Hch. now rewrite lookup_insert_ne.
Qed.

(** X1. Whatever the adapter file holds and whether or not the merge
    raises, [apply_lora_weights] adds no layer to the weights and removes
    none, leaves every weight its dtype, and changes the weight of a
    layer only if a complete group of the file resolves to that layer. *)
Theorem merge_changes_only_targeted_layers (fs : file_system num) model w
    lora_path strength :
  let out := apply_lora_weights fs model w lora_path strength in
  dom (out_weights out) =@{gset nat} dom w
  /\ (forall l t t', w !! l = Some t -> out_weights out !! l = Some t' ->
                     t_dtype t' = t_dtype t)
  /\ (forall l, out_weights out !! l <> w !! l ->
        exists lora_weights name g o,
          mx_load fs lora_path = Some lora_weights
          /\ In (name, g) (group_weights lora_weights)
          /\ complete g = true
          /\ resolve model (split_char "." name) = Resolved o
          /\ obj_linear o = Some l).
Proof.
  cbv zeta. unfold apply_lora_weights.
  destruct (path_exists fs lora_path); cbn [negb];
    [|split; [reflexivity|]; split; [cbn; congruence|cbn; congruence]].
  destruct (mx_load fs lora_path) as [lora_weights|];
    [|split; [reflexivity|]; split; [cbn; congruence|cbn; congruence]].
  destruct (merge_groups model strength (group_weights lora_weights) (MergeState w 0))
    as [st r] eqn:Hm.
  apply merge_groups_frame in Hm as (Hdom & Hdt & Hch). cbn [weights] in *.
  assert (Hw : out_weights (match r with
                            | Some e => Outcome (weights st) [LogApplying lora_path strength] (Some e)
                            | None => Outcome (weights st)
                                        [LogApplying lora_path strength;
                                         LogApplied (applied_count st)] None
                            end) = weights st) by now destruct r.
  rewrite Hw. split; [exact Hdom|]. split; [exact Hdt|].
  intros l Hl. destruct (Hch l Hl) as (name & g & o & Hin & Hrest).
  now exists lora_weights, name, g, o.
Qed.

End MergeFrame.

Section MergeCount.
Import PyStr.
Local Open Scope string_scope.
Context {num : Type} `{Arith num}.

Lemma roles_total_dict_set k (g : group num) groups :
  (roles_total (dict_set String.eqb k g groups)
   + roles_held (default empty_group (dict_get String.eqb k groups))
   = roles_total groups + roles_held g)%nat.
Proof.
  unfold roles_total, list_sum.
  induction groups as [|[k0 g0] groups IH]; cbn [dict_set dict_get].
  - cbn. lia.
  - destruct (String.eqb k k0); cbn [map fold_right snd default from_option id] in *; lia.
Qed.

Lemma roles_held_group_step (g : group num) t v a :
  (roles_held (match a with
               | Some x => set_alpha x (set_role t v g)
               | None => set_role t v g
               end) <= roles_held g + 1)%nat.
Proof.
  unfold roles_held.
  destruct a, t; cbn [set_alpha set_role g_down g_up];
    destruct (g_down g), (g_up g); lia.
Qed.

(** Every key adds at most one tensor to the groups. *)
Lemma roles_total_group_step (lora_weights : lora_file num) groups kv :
  (roles_total (group_step lora_weights groups kv) <= roles_total groups + 1)%nat.
Proof.
  unfold group_step. destruct (classify (fst kv)) as [[base_name t]|]; [|lia].
  pose proof (roles_total_dict_set (sanitize_key base_name)
    (match find_alpha lora_weights (alpha_key_candidates base_name) with
     | Some a =>
         set_alpha a
           (set_role t (snd kv)
              (default empty_group
                 (dict_get String.eqb (sanitize_key base_name) groups)))
     | None =>
         set_role t (snd kv)
           (default empty_group
              (dict_get String.eqb (sanitize_key base_name) groups))
     end) groups) as Hset.
  pose proof (roles_held_group_step
    (default empty_group (dict_get String.eqb (sanitize_key base_name) groups))
    t (snd kv) (find_alpha lora_weights (alpha_key_candidates base_name))) as Hstep.
  lia.
Qed.

Lemma roles_total_fold (lora_weights items : lora_file num) : forall groups,
  (roles_total (fold_left (group_step lora_weights) items groups)
   <= roles_total groups + length items)%nat.
Proof.
  induction items as [|kv items IH]; intros groups; cbn [fold_left length]; [lia|].
  pose proof (IH (group_step lora_weights groups kv)).
  pose proof (roles_total_group_step lora_weights groups kv). lia.
Qed.

(** The counter of line 211 goes up by one, and only for a group that
    holds both tensors. *)
Lemma merge_groups_count model strength groups : forall (st st' : merge_state num) r,
  merge_groups model strength groups st = (st', r) ->
  (2 * applied_count st' <= 2 * applied_count st + roles_total groups)%nat.
Proof.
  induction groups as [|entry groups IH]; intros st st' r; cbn [merge_groups].
  - intros [= <- <-]. lia.
  - unfold roles_total, list_sum. cbn [map fold_right].
    change (fold_right Nat.add 0%nat (map (fun ng : string * group num => roles_held (snd ng)) groups))
      with (roles_total groups).
    destruct (merge_entry model strength st entry) as [e|st1] eqn:Hentry.
    + intros [= <- <-]. lia.
    + intros Hrest. apply IH in Hrest.
      apply merge_entry_inv in Hentry
        as [->|(layer & weight & weight' & o & Hc & _ & _ & _ & _ & ->)]; [lia|].
      cbn [applied_count] in Hrest.
      assert (roles_held (snd entry) = 2%nat).
      { unfold complete in Hc. unfold roles_held.
        destruct (g_down (snd entry)); [|discriminate].
        now destruct (g_up (snd entry)). }
      lia.
Qed.

(** X2. The number of layers [apply_lora_weights] reports as merged is at
    most half the number of tensors in the adapter file: every merged
    layer takes a down and an up tensor of its own. *)
Theorem applied_count_at_most_half_the_keys (fs : file_system num) model w
    lora_path strength lora_weights n :
  mx_load fs lora_path = Some lora_weights ->
  In (LogApplied n) (out_log (apply_lora_weights fs model w lora_path strength)) ->
  (2 * n <= length lora_weights)%nat.
Proof.
  intros Hload. unfold apply_lora_weights.
  destruct (path_exists fs lora_path); cbn [negb];
    [|cbn; intros [Hin|[]]; discriminate Hin].
  rewrite Hload.
  destruct (merge_groups model strength (group_weights lora_weights) (MergeState w 0))
    as [st r] eqn:Hm.
  apply merge_groups_count in Hm. cbn [applied_count] in Hm.
  pose proof (roles_total_fold lora_weights lora_weights []) as Hfold.
  fold (group_weights lora_weights) in Hfold.
  change (roles_total []) with 0%nat in Hfold.
  destruct r; cbn; intros Hin.
  - destruct Hin as [Hin|[]]. discriminate Hin.
  - destruct Hin as [Hin|[Hin|[]]]; [discriminate Hin|].
    injection Hin as <-. lia.
Qed.

End MergeCount.

Section IncompletePairs.
Import PyStr.
Local Open Scope string_scope.
Context {num : Type} `{Arith num}.

Lemma classify_role_inv key base_name r :
  classify key = Some (base_name, r) ->
  match r with
  | Down => contains "lora_down" key = true \/ contains "lora_A" key = true
  | Up => contains "lora_up" key = true \/ contains "lora_B" key = true
  end.
Proof.
  unfold classify.
  destruct (negb (contains "lora" key)); [discriminate|].
  destruct (contains "alpha" key); [discriminate|].
  destruct (contains "lora_down" key) eqn:Hd; cbn [orb negb].
  - intros [= <- <-]. now left.
  - destruct (contains "lora_A" key) eqn:Ha; cbn [orb negb].
    + destruct (contains "lora_up" key) eqn:Hu.
      * intros [= <- <-]. now left.
      * intros [= <- <-]. now right.
    + destruct (contains "lora_up" key) eqn:Hu; cbn [orb negb].
      * intros [= <- <-]. now left.
      * destruct (contains "lora_B" key) eqn:Hb; cbn [negb]; [|discriminate].
        intros [= <- <-]. now right.
Qed.

(** The groups hold nothing for a role that no key of the file has. *)
Lemma group_weights_without_role (lora_weights : lora_file num) r :
  Forall (fun kv => forall b, classify (fst kv) <> Some (b, r)) lora_weights ->
  Forall (fun ng => group_role r (snd ng) = None) (group_weights lora_weights).
Proof.
  intros Hall. unfold group_weights.
  assert (Hgen : forall (file items : lora_file num) groups,
             Forall (fun kv => forall b, classify (fst kv) <> Some (b, r)) items ->
             Forall (fun ng : string * group num => group_role r (snd ng) = None) groups ->
             Forall (fun ng : string * group num => group_role r (snd ng) = None)
                    (fold_left (group_step file) items groups)).
  { intros file items. induction items as [|kv items IH]; intros groups Hitems Hgroups;
      [exact Hgroups|].
    inversion Hitems as [|? ? Hkv Hrest]; subst. cbn [fold_left]. apply IH; [exact Hrest|].
    unfold group_step.
    destruct (classify (fst kv)) as [[base_name t]|] eqn:Hc; [|exact Hgroups].
    apply dict_set_Forall; [|exact Hgroups]. intros k0. cbn [snd].
    assert (Ht : role_eqb t r = false).
    { destruct (role_eqb t r) eqn:E; [|reflexivity].
      apply role_eqb_eq in E. subst t. now contradiction (Hkv base_name). }
    assert (Hold : group_role r (default empty_group
                     (dict_get String.eqb (sanitize_key base_name) groups)) = None).
    { destruct (dict_get String.eqb (sanitize_key base_name) groups) as [g|] eqn:Hg.
      - apply dict_get_In in Hg. rewrite Forall_forall in Hgroups.
        apply (Hgroups (sanitize_key base_name, g)). now apply list_elem_of_In.
      - now destruct r. }
    destruct (find_alpha file (alpha_key_candidates base_name)).
    - replace (group_role r (set_alpha t0 _))
        with (group_role r (set_role t (snd kv)
                (default empty_group
                   (dict_get String.eqb (sanitize_key base_name) groups))))
        by now destruct r.
      now rewrite group_role_set_role, Ht.
    - now rewrite group_role_set_role, Ht. }
  apply Hgen; [exact Hall|constructor].
Qed.

Lemma merge_groups_incomplete model strength groups (st : merge_state num) :
  Forall (fun ng => complete (snd ng) = false) groups ->
  merge_groups model strength groups st = (st, None).
Proof.
  induction 1 as [|[name g] groups Hg _ IH]; [reflexivity|].
  cbn [merge_groups]. rewrite merge_entry_incomplete; [exact IH|].
  unfold complete in Hg. cbn [snd] in Hg.
  destruct (g_down g); [|now left]. destruct (g_up g); [discriminate|now right].
Qed.

(** X4. An adapter file that holds only one half of every pair (no key
    with an up marker, or no key with a down marker) merges nothing:
    the weights are unchanged, nothing is raised, and the function
    reports 0 layers. *)
Theorem adapter_with_half_pairs_changes_nothing (fs : file_system num) model w
    lora_path strength lora_weights :
  path_exists fs lora_path = true ->
  mx_load fs lora_path = Some lora_weights ->
  Forall (fun kv => contains "lora_up" (fst kv) = false
                    /\ contains "lora_B" (fst kv) = false) lora_weights
  \/ Forall (fun kv => contains "lora_down" (fst kv) = false
                       /\ contains "lora_A" (fst kv) = false) lora_weights ->
  apply_lora_weights fs model w lora_path strength
  = Outcome w [LogApplying lora_path strength; LogApplied 0] None.
Proof.
  intros Hex Hload Hhalf. unfold apply_lora_weights. rewrite Hex, Hload. cbn [negb].
  rewrite merge_groups_incomplete; [reflexivity|].
  destruct Hhalf as [Hno|Hno].
  - eapply Forall_impl; [apply (group_weights_without_role lora_weights Up)|].
    + eapply Forall_impl; [exact Hno|]. intros kv [Hu Hb] b Hc.
      apply classify_role_inv in Hc as [Hc|Hc]; congruence.
    + intros [name g]. unfold complete. cbn. intros ->. now destruct (g_down g).
  - eapply Forall_impl; [apply (group_weights_without_role lora_weights Down)|].
    + eapply Forall_impl; [exact Hno|]. intros kv [Hd Ha] b Hc.
      apply classify_role_inv in Hc as [Hc|Hc]; congruence.
    + intros [name g]. unfold complete. cbn. now intros ->.
Qed.

End IncompletePairs.

Section MergeErrors.
Import PyStr.
Local Open Scope string_scope.
Context {num : Type} `{Arith num}.

(** The merge loop over a list of groups in two parts. *)
Lemma merge_groups_app model strength gs1 gs2 : forall st : merge_state num,
  merge_groups model strength (gs1 ++ gs2)%list st
  = match merge_groups model strength gs1 st with
    | (st1, None) => merge_groups model strength gs2 st1
    | (st1, Some e) => (st1, Some e)
    end.
Proof.
  induction gs1 as [|entry gs1 IH]; intros st; [reflexivity|].
  cbn [app merge_groups].
  destruct (merge_entry model strength st entry); [reflexivity|apply IH].
Qed.

(** X5. There is no rollback: when the merge of an entry raises, the
    exception leaves [apply_lora_weights] with the weights as the entries
    before it left them (their deltas stay merged), the entries after it
    are not merged, and no count is reported. *)
Theorem merge_error_keeps_earlier_merges (fs : file_system num) model w
    lora_path strength lora_weights gs1 entry gs2 st1 e :
  path_exists fs lora_path = true ->
  mx_load fs lora_path = Some lora_weights ->
  group_weights lora_weights = (gs1 ++ entry :: gs2)%list ->
  merge_groups model strength gs1 (MergeState w 0) = (st1, None) ->
  merge_entry model strength st1 entry = inl e ->
  apply_lora_weights fs model w lora_path strength
  = Outcome (weights st1) [LogApplying lora_path strength] (Some e).
Proof.
  intros Hex Hload Hgroups Hfirst Hentry.
  unfold apply_lora_weights. rewrite Hex, Hload, Hgroups. cbn [negb].
  rewrite merge_groups_app, Hfirst. cbn [merge_groups]. now rewrite Hentry.
Qed.

End MergeErrors.

(* ===================================================================== *)
(** * More of the path resolver *)
(* ===================================================================== *)

Section ResolverPaths.
Import PyStr.
Local Open Scope string_scope.

Lemma split_char_nonempty c s : split_char c s <> [].
Proof.
  destruct s as [|a s]; cbn [split_char]; [discriminate|].
  destruct (Ascii.eqb a c); [discriminate|].
  destruct (split_char c s); discriminate.
Qed.

(** [(a + c + b).split(c)] is [a.split(c) + b.split(c)]. *)
Lemma split_char_app c a b :
  split_char c (a ++ String c b) = (split_char c a ++ split_char c b)%list.
Proof.
  induction a as [|x a IH].
  - change ("" ++ String c b) with (String c b). cbn [split_char app].
    now rewrite Ascii.eqb_refl.
  - change (String x a ++ String c b) with (String x (a ++ String c b)).
    cbn [split_char]. destruct (Ascii.eqb x c); [now rewrite IH|].
    rewrite IH. pose proof (split_char_nonempty c a) as Hne.
    destruct (split_char c a) as [|w ws]; [contradiction|reflexivity].
Qed.

(** The walk over a path in two parts. *)
Lemma resolve_app parts1 parts2 : forall curr,
  resolve curr (parts1 ++ parts2)%list
  = match resolve curr parts1 with
    | Resolved o => resolve o parts2
    | other => other
    end.
Proof.
  induction parts1 as [|part parts1 IH]; intros curr; [reflexivity|].
  cbn [app resolve]. destruct (resolve_step curr part); [apply IH|reflexivity..].
Qed.

(** X6. Resolving the module path [a.b] is resolving [a] and then [b]
    from the object [a] resolves to; when [a] does not resolve, or
    raises, so does [a.b], whatever [b] is. *)
Theorem resolve_composes model a b :
  resolve model (split_char "." (a ++ "." ++ b))
  = match resolve model (split_char "." a) with
    | Resolved o => resolve o (split_char "." b)
    | other => other
    end.
Proof.
  change (a ++ "." ++ b) with (a ++ String "." b).
  rewrite split_char_app. apply resolve_app.
Qed.

Lemma all_chars_split f c s :
  all_chars f s = true ->
  Forall (fun p => all_chars f p = true /\ (String.length p <= String.length s)%nat)
         (split_char c s).
Proof.
  induction s as [|a s IH]; cbn [all_chars split_char String.length].
  - intros _. constructor; [now split|constructor].
  - intros [Ha Hs]%andb_true_iff. specialize (IH Hs).
    destruct (Ascii.eqb a c).
    + constructor; [split; [reflexivity|cbn; lia]|].
      eapply Forall_impl; [exact IH|]. intros p [Hp Hl]. split; [exact Hp|lia].
    + pose proof (split_char_nonempty c s) as Hne.
      destruct (split_char c s) as [|w ws]; [contradiction|].
      inversion IH as [|? ? [Hw Hl] Hws]; subst.
      constructor.
      * cbn [all_chars String.length]. rewrite Ha, Hw. split; [reflexivity|lia].
      * eapply Forall_impl; [exact Hws|]. intros p [Hp Hl']. split; [exact Hp|lia].
Qed.

Lemma ascii_digit_is_decimal c :
  (nat_of_ascii c <? 128)%nat = true -> is_digit_char c = true ->
  is_decimal_char c = true.
Proof.
  unfold is_digit_char. intros Hlt%Nat.ltb_lt.
  destruct (is_decimal_char c); [reflexivity|]. cbn [orb].
  intros [[H|H]%orb_true_iff|H]%orb_true_iff; apply Nat.eqb_eq in H; lia.
Qed.

Lemma ascii_digits_are_decimal s :
  ascii_only s = true -> all_chars is_digit_char s = true ->
  all_chars is_decimal_char s = true.
Proof.
  unfold ascii_only. induction s as [|c s IH]; cbn [all_chars]; [reflexivity|].
  intros [Hc Hs]%andb_true_iff [Hd Hds]%andb_true_iff.
  now rewrite (ascii_digit_is_decimal c Hc Hd), IH.
Qed.

(** X7. On a module path of ASCII characters that is no longer than the
    4300 digits [int] accepts, the walk never raises, whatever the model:
    the path resolves or it does not. *)
Theorem resolve_does_not_raise_on_ascii_paths model name e :
  ascii_only name = true ->
  (String.length name <= int_max_str_digits)%nat ->
  resolve model (split_char "." name) <> ResolveRaises e.
Proof.
  intros Hascii Hlen. apply resolve_never_raises.
  eapply Forall_impl; [apply (all_chars_split _ "." name Hascii)|].
  intros part [Hpart Hl] Hdigit. change (ascii_only part = true) in Hpart.
  unfold isdigit in Hdigit. apply andb_true_iff in Hdigit as [Hne Hds].
  unfold int_of_str. rewrite Hne, (ascii_digits_are_decimal part Hpart Hds).
  replace (String.length part <=? int_max_str_digits)%nat with true; [discriminate|].
  symmetry. apply Nat.leb_le. lia.
Qed.

End ResolverPaths.

(* ===================================================================== *)
(** * The latent dimensions *)
(* ===================================================================== *)

Section Dimensions.
Local Open Scope Z_scope.

(** Divisibility by 64 is what makes the two grids fit. *)
Lemma grids_fit_iff x :
  x mod 64 = 0 <-> x / 32 = 2 * (x / 2 / 32) /\ 32 * (x / 32) = x.
Proof.
  rewrite Z.div_div by lia. change (2 * 32) with 64.
  pose proof (Z.div_mod x 64 ltac:(lia)) as Ha.
  pose proof (Z.mod_pos_bound x 64 ltac:(lia)) as Hb.
  pose proof (Z.div_mod x 32 ltac:(lia)) as Hc.
  pose proof (Z.mod_pos_bound x 32 ltac:(lia)) as Hd.
  split; [intros H64|intros [Hx2 Hx32]]; [split|]; lia.
Qed.

(** X8. The two assertions are exactly what makes the latent grids fit:
    the dimensions are computed if and only if height and width are
    multiples of 64 (the height is checked first), and then the stage-2
    grid is twice the stage-1 grid in both directions, 32 times the
    stage-2 grid gives back height and width, and 32 times the stage-1
    grid the halved ones; for a height that is no multiple of 64 the
    grids would not fit or not cover the frame. *)
Theorem latent_grids_fit height width num_frames :
  match latent_dimensions height width num_frames with
  | inl (HeightNotDivisible h) => h = height /\ height mod 64 <> 0
  | inl (WidthNotDivisible w) =>
      w = width /\ height mod 64 = 0 /\ width mod 64 <> 0
  | inr d =>
      height mod 64 = 0 /\ width mod 64 = 0
      /\ stage2_h d = 2 * stage1_h d /\ stage2_w d = 2 * stage1_w d
      /\ 32 * stage2_h d = height /\ 32 * stage2_w d = width
      /\ 32 * stage1_h d = height / 2 /\ 32 * stage1_w d = width / 2
  end
  /\ (height mod 64 <> 0 ->
      height / 32 <> 2 * (height / 2 / 32) \/ 32 * (height / 32) <> height).
Proof.
  split.
  - unfold latent_dimensions.
    destruct (height mod 64 =? 0) eqn:Eh; cbn [negb];
      [apply Z.eqb_eq in Eh|apply Z.eqb_neq in Eh; now split].
    destruct (width mod 64 =? 0) eqn:Ew; cbn [negb];
      [apply Z.eqb_eq in Ew|apply Z.eqb_neq in Ew; now repeat split].
    cbn [stage1_h stage1_w stage2_h stage2_w].
    destruct (proj1 (grids_fit_iff height) Eh) as [Hh2 Hh32].
    destruct (proj1 (grids_fit_iff width) Ew) as [Hw2 Hw32].
    pose proof (Z.div_mod height 64 ltac:(lia)).
    pose proof (Z.div_mod width 64 ltac:(lia)).
    assert (height / 2 / 32 = height / 64) by (rewrite Z.div_div by lia; reflexivity).
    assert (width / 2 / 32 = width / 64) by (rewrite Z.div_div by lia; reflexivity).
    assert (height / 2 = 32 * (height / 64)).
    { replace height with ((height / 64) * 32 * 2) at 1 by lia.
      now rewrite Z.div_mul by lia; lia. }
    assert (width / 2 = 32 * (width / 64)).
    { replace width with ((width / 64) * 32 * 2) at 1 by lia.
      now rewrite Z.div_mul by lia; lia. }
    repeat split; lia.
  - intros Hne. pose proof (grids_fit_iff height) as Hiff.
    destruct (Z.eq_dec (height / 32) (2 * (height / 2 / 32))) as [E1|E1]; [|now left].
    destruct (Z.eq_dec (32 * (height / 32)) height) as [E2|E2]; [|now right].
    contradiction Hne. apply Hiff. now split.
Qed.

(** X9. Once the dimensions are computed, the adjusted frame count is
    within 4 of the requested one and is exactly covered by the latent
    frames, 8 frames per latent frame after the first; there is at least
    one latent frame if and only if the request is -3 or more, so a
    positive request never gives an empty latent and a request of -4 or
    less is passed on as a negative count. *)
Theorem latent_frames_cover_the_frames height width num_frames d :
  Z.abs (num_frames - 1) < 2 ^ 53 ->
  latent_dimensions height width num_frames = inr d ->
  d_num_frames d = adjust_num_frames num_frames
  /\ d_num_frames d = 8 * (latent_frames d - 1) + 1
  /\ Z.abs (d_num_frames d - num_frames) <= 4
  /\ (1 <= latent_frames d <-> -3 <= num_frames)
  /\ (1 <= d_num_frames d <-> -3 <= num_frames).
Proof.
  intros _. unfold latent_dimensions.
  destruct (negb (height mod 64 =? 0)); [discriminate|].
  destruct (negb (width mod 64 =? 0)); [discriminate|].
  intros [= <-]. cbn [d_num_frames latent_frames].
  pose proof (adjust_conforming num_frames) as Hc. unfold conforming in Hc.
  pose proof (Z.div_mod (adjust_num_frames num_frames - 1) 8 ltac:(lia)) as Hdm.
  assert (Hm : (adjust_num_frames num_frames - 1) mod 8 = 0).
  { pose proof (Z.div_mod (adjust_num_frames num_frames) 8 ltac:(lia)) as Hdm'.
    rewrite Hc in Hdm'.
    replace (adjust_num_frames num_frames - 1)
      with (adjust_num_frames num_frames / 8 * 8) by lia.
    apply Z.mod_mul. lia. }
  rewrite Hm in Hdm.
  set (k := (adjust_num_frames num_frames - 1) / 8) in *.
  assert (Hnear : Z.abs (adjust_num_frames num_frames - num_frames) <= 4 /\
                  (1 <= adjust_num_frames num_frames <-> -3 <= num_frames)).
  { clear Hc Hdm Hm k. unfold adjust_num_frames.
    destruct (num_frames mod 8 =? 1) eqn:E; cbn [negb].
    - apply Z.eqb_eq in E.
      pose proof (Z.div_mod num_frames 8 ltac:(lia)). split; lia.
    - apply Z.eqb_neq in E. rewrite py_round_eighths.
      pose proof (Z.div_mod (num_frames - 1) 8 ltac:(lia)) as Hk.
      pose proof (Z.mod_pos_bound (num_frames - 1) 8 ltac:(lia)) as Hr.
      set (f := (num_frames - 1) / 8) in *. set (r := (num_frames - 1) mod 8) in *.
      destruct (r <? 4) eqn:E1; [apply Z.ltb_lt in E1; split; lia|apply Z.ltb_ge in E1].
      destruct (4 <? r) eqn:E2; [apply Z.ltb_lt in E2; split; lia|apply Z.ltb_ge in E2].
      destruct (Z.even f) eqn:Ev.
      + apply Z.even_spec in Ev as [j Hj]. split; lia.
      + assert (Ho : Z.odd f = true) by (rewrite <- Z.negb_even, Ev; reflexivity).
        apply Z.odd_spec in Ho as [j Hj]. split; lia. }
  destruct Hnear as [Habs Hpos].
  split; [reflexivity|]. split; [lia|]. split; [exact Habs|].
  split; [|exact Hpos]. rewrite <- Hpos. lia.
Qed.

End Dimensions.

(* ===================================================================== *)
(** * More of the request loop *)
(* ===================================================================== *)

Section ProtocolFacts.
Local Open Scope string_scope.
Context (json_loads : string -> option json).
Context (generate_av : list (string * json) -> gen_run).

Lemma log_err_ready msg sv :
  server_ready sv ->
  fds (log_err msg sv) = fds sv
  /\ stdout_buffer (log_err msg sv) = stdout_buffer sv
  /\ host_stdout (log_err msg sv) = host_stdout sv.
Proof.
  intros (H1 & H2 & Hb). unfold log_err, write_fd. rewrite H2. now cbn.
Qed.

Lemma outer_handlers_ready e sv :
  server_ready sv ->
  fds (fst (outer_handlers e sv)) = fds sv
  /\ host_stdout (fst (outer_handlers e sv)) = host_stdout sv
  /\ snd (outer_handlers e sv) <> Continue.
Proof.
  intros Hready. unfold outer_handlers.
  destruct (r_class e); cbn [fst snd]; try (now repeat split).
  destruct (log_err_ready ("ERROR:Server loop error: " ++ r_str e) sv Hready)
    as (Hf & _ & Ho).
  now repeat split.
Qed.

(** One turn of the loop on a ready server, against the protocol. *)
Lemma handle_line_responses sv line rest :
  server_ready sv ->
  exists sv' status,
    handle_line json_loads generate_av sv line = (sv', status)
    /\ fds sv' = fds sv
    /\ match status with
       | Continue =>
           server_ready sv'
           /\ exists out,
                host_stdout sv' = (host_stdout sv ++ map JsonLine out)%list
                /\ responses json_loads generate_av (line :: rest)
                   = (out ++ responses json_loads generate_av rest)%list
       | _ =>
           host_stdout sv' = host_stdout sv
           /\ responses json_loads generate_av (line :: rest) = []
       end.
Proof.
  intros Hready. pose proof Hready as (H1 & H2 & Hb).
  unfold handle_line. cbn [responses].
  destruct (String.eqb line "") eqn:Hline.
  { exists sv, Break. now repeat split. }
  destruct (String.eqb (strip line) "") eqn:Hstrip.
  { exists sv, Continue. split; [reflexivity|]. split; [reflexivity|].
    split; [exact Hready|]. exists []. cbn. now rewrite app_nil_r. }
  destruct (json_loads (strip line)) as [request|].
  2:{ destruct (log_err_ready "ERROR:Invalid JSON received" sv Hready) as (Hf & Hbuf & Ho).
      eexists _, Continue. split; [reflexivity|]. split; [exact Hf|]. split.
      - unfold server_ready. rewrite Hf, Hbuf. now repeat split.
      - exists []. cbn. now rewrite app_nil_r. }
  destruct request as [|b|z|f|s|l|fields];
    try (match goal with
         | |- context [outer_handlers ?e sv] =>
             destruct (outer_handlers_ready e sv Hready) as (Hf & Ho & Hs);
             destruct (outer_handlers e sv) as [sv' status]; cbn [fst snd] in *;
             exists sv', status; split; [reflexivity|]; split; [exact Hf|];
             destruct status; [now contradiction Hs|now split..]
         end).
  destruct (is_str "ping" (get_default "command" JNull fields)).
  { destruct (print_json_ready (JObj [("status", JStr "pong")]) sv H1 Hb)
      as (Hf & Hbuf & Ho).
    eexists _, Continue. split; [reflexivity|]. split; [exact Hf|]. split.
    - unfold server_ready. rewrite Hf, Hbuf. now repeat split.
    - exists [JObj [("status", JStr "pong")]]. now split. }
  destruct (is_str "generate" (get_default "command" JNull fields)).
  2:{ exists sv, Continue. split; [reflexivity|]. split; [reflexivity|].
      split; [exact Hready|]. exists []. cbn. now rewrite app_nil_r. }
  pose proof (handle_generate_ready generate_av fields sv Hready) as Hgen.
  destruct (expected_response generate_av (get_default "params" (JObj []) fields))
    as [e|result].
  - destruct Hgen as (sv' & status & Hrun & Hstatus & Ho & Hf).
    exists sv', status. split; [exact Hrun|]. split; [exact Hf|].
    destruct status; [now contradiction Hstatus|now split..].
  - destruct Hgen as (sv' & Hrun & Ho & Hf & Hready').
    exists sv', Continue. split; [exact Hrun|]. split; [exact Hf|].
    split; [exact Hready'|]. exists [result]. now split.
Qed.

Lemma responses_length lines :
  (length (responses json_loads generate_av lines) <= length lines)%nat.
Proof.
  induction lines as [|line lines IH]; cbn [responses length]; [lia|].
  destruct (String.eqb line ""); [cbn; lia|].
  destruct (String.eqb (strip line) ""); [lia|].
  destruct (json_loads (strip line)) as [[|b|z|f|s|l|fields]|]; cbn [length]; try lia.
  destruct (is_str "ping" _); [cbn [length]; lia|].
  destruct (is_str "generate" _); [|lia].
  destruct (expected_response _ _); cbn [length]; lia.
Qed.

(** X10. Whatever lines the server reads and whatever the generations
    print, the host's standard output receives JSON lines only: the
    responses of the protocol in the order of the requests (one per
    ["ping"], one per ["generate"] that completes or raises an
    [Exception]), at most one per line read; blank lines, invalid JSON and
    unknown commands get none, and the descriptors end as they began. *)
Theorem serve_writes_the_responses lines sv :
  server_ready sv ->
  host_stdout (fst (serve json_loads generate_av lines sv))
  = (host_stdout sv ++ map JsonLine (responses json_loads generate_av lines))%list
  /\ fds (fst (serve json_loads generate_av lines sv)) = fds sv
  /\ (length (responses json_loads generate_av lines) <= length lines)%nat.
Proof.
  intros Hready. split; [|split; [|apply responses_length]].
  - revert sv Hready. induction lines as [|line lines IH]; intros sv Hready.
    + cbn. now rewrite app_nil_r.
    + destruct (handle_line_responses sv line lines Hready)
        as (sv' & status & Hstep & _ & Hstatus).
      cbn [serve]. rewrite Hstep. destruct status.
      * destruct Hstatus as (Hready' & out & Ho & Hresp).
        rewrite (IH sv' Hready'), Ho, Hresp, map_app. now rewrite <- app_assoc.
      * destruct Hstatus as [Ho Hresp]. cbn [fst]. rewrite Ho, Hresp. cbn.
        now rewrite app_nil_r.
      * destruct Hstatus as [Ho Hresp]. cbn [fst]. rewrite Ho, Hresp. cbn.
        now rewrite app_nil_r.
  - revert sv Hready. induction lines as [|line lines IH]; intros sv Hready;
      [reflexivity|].
    destruct (handle_line_responses sv line lines Hready)
      as (sv' & status & Hstep & Hf & Hstatus).
    cbn [serve]. rewrite Hstep. destruct status; [|exact Hf..].
    destruct Hstatus as (Hready' & _). now rewrite (IH sv' Hready').
Qed.

(** X11. A request line that holds valid JSON which is not an object (a
    list, a number, a string, [null]) ends the server: [request.get]
    raises, the handler of line 152 reports the error on standard error
    and leaves the loop, nothing is written to standard output, and the
    lines after it are never read. *)
Theorem non_object_request_stops_the_server sv line lines v :
  server_ready sv ->
  String.eqb line "" = false ->
  String.eqb (strip line) "" = false ->
  json_loads (strip line) = Some v ->
  (forall fields, v <> JObj fields) ->
  let msg := "ERROR:Server loop error: '" ++ type_name v
             ++ "' object has no attribute 'get'" in
  let out := serve json_loads generate_av (line :: lines) sv in
  out = (log_err msg sv, None)
  /\ fds (fst out) = fds sv
  /\ host_stdout (fst out) = host_stdout sv
  /\ host_stderr (fst out)
     = (host_stderr sv ++ [Text (msg ++ String (ascii_of_nat 10) "")])%list.
Proof.
  intros Hready Hline Hstrip Hloads Hobj msg out.
  assert (Hrun : out = (log_err msg sv, None)).
  { unfold out. cbn [serve]. unfold handle_line. rewrite Hline, Hstrip, Hloads.
    destruct v as [|b|z|f|s|l|fs]; try reflexivity. now contradiction (Hobj fs). }
  rewrite Hrun. cbn [fst]. split; [reflexivity|].
  destruct Hready as (H1 & H2 & Hb). unfold log_err, write_fd. rewrite H2. cbn.
  now repeat split.
Qed.

End ProtocolFacts.

Section Kwargs.
Local Open Scope string_scope.

Lemma dict_get_set_if {V : Type} (c : bool) k k' (v : V) d :
  dict_get String.eqb k (if c then dict_set String.eqb k' v d else d)
  = if c && String.eqb k k' then Some v else dict_get String.eqb k d.
Proof.
  destruct c; cbn [andb]; [|reflexivity].
  destruct (String.eqb k k') eqn:E.
  - apply String.eqb_eq in E. subst k'. apply dict_get_set_eq.
  - now apply dict_get_set_ne.
Qed.

Lemma dict_get_without {V : Type} k k' (v : V) before after :
  String.eqb k' k = false ->
  dict_get String.eqb k' (before ++ (k, v) :: after)%list
  = dict_get String.eqb k' (before ++ after)%list.
Proof.
  intros Hne. induction before as [|[k0 v0] before IH]; cbn [app dict_get].
  - now rewrite Hne.
  - now rewrite IH.
Qed.

Ltac known_param := repeat (first [left; reflexivity | right]).

(** [build_kwargs] reads [params] at the known names only. *)
Lemma build_kwargs_ext params params' :
  (forall k, In k known_params ->
     dict_get String.eqb k params = dict_get String.eqb k params') ->
  build_kwargs params = build_kwargs params'.
Proof.
  intros Hext. unfold build_kwargs, set_if, get_default.
  repeat match goal with
         | |- context [dict_get String.eqb ?k params] =>
             rewrite (Hext k) by (unfold known_params; known_param)
         end.
  reflexivity.
Qed.

Lemma not_known_param k :
  ~ In k known_params -> Forall (fun n => String.eqb k n = false) known_params.
Proof.
  intros Hnot. apply Forall_forall. intros n Hn%list_elem_of_In.
  destruct (String.eqb k n) eqn:E; [|reflexivity].
  apply String.eqb_eq in E. subst n. contradiction.
Qed.

(** X12. The server passes on only the parameters it knows: a request
    parameter of any other name, such as ["lora_path"], changes nothing
    in the arguments [generate_av] is called with and never appears among
    them. *)
Theorem unknown_params_are_ignored before after k v :
  ~ In k known_params ->
  build_kwargs (before ++ (k, v) :: after)%list = build_kwargs (before ++ after)%list
  /\ forall params, dict_get String.eqb k (build_kwargs params) = None.
Proof.
  intros Hnot. split.
  - apply build_kwargs_ext. intros k' Hk'. apply dict_get_without.
    destruct (String.eqb k' k) eqn:E; [|reflexivity].
    apply String.eqb_eq in E. subst k'. contradiction.
  - intros params. apply not_known_param in Hnot. unfold known_params in Hnot.
    unfold build_kwargs, set_if. rewrite !dict_get_set_if.
    destruct (truthy (get_default "image" JNull params)).
    + rewrite !dict_get_set_ne.
      all: repeat match goal with
                  | H : Forall _ (_ :: _) |- _ =>
                      let Hk := fresh "Hk" in
                      apply Forall_cons_1 in H as [Hk H]
                  end.
      all: cbn [dict_get]; repeat match goal with
                  | Hk : String.eqb _ _ = false |- _ => rewrite Hk; clear Hk
                  end; rewrite ?andb_false_r; try reflexivity.
    + repeat match goal with
             | H : Forall _ (_ :: _) |- _ =>
                 let Hk := fresh "Hk" in
                 apply Forall_cons_1 in H as [Hk H]
             end.
      cbn [dict_get]. repeat match goal with
             | Hk : String.eqb _ _ = false |- _ => rewrite Hk; clear Hk
             end. rewrite ?andb_false_r. reflexivity.
Qed.

Ltac kwargs_lookup :=
  unfold build_kwargs, set_if; rewrite !dict_get_set_if;
  destruct (truthy (get_default "image" JNull _));
  rewrite ?dict_get_set_eq;
  rewrite ?dict_get_set_ne by reflexivity;
  rewrite ?dict_get_set_eq;
  rewrite ?dict_get_set_ne by reflexivity;
  rewrite ?dict_get_set_eq;
  cbn [dict_get String.eqb Ascii.eqb Bool.eqb andb];
  rewrite ?andb_false_r, ?andb_true_r; cbn [andb].

(** X13. [generate_av] is always called with the eight base arguments,
    a missing one at its default (512 by 512, 65 frames, seed 42, 24 fps,
    ["output.mp4"], the default model), and the success response reports
    the request's own values: its output path and seed, mode ["i2v"]
    exactly when the request holds a truthy image, and audio unless it
    holds a truthy [no_audio]. *)
Theorem success_response_reflects_the_request params :
  let kwargs := build_kwargs params in
  dict_get String.eqb "prompt" kwargs = Some (get_default "prompt" JNull params)
  /\ dict_get String.eqb "height" kwargs
     = Some (get_default "height" (JInt 512) params)
  /\ dict_get String.eqb "width" kwargs
     = Some (get_default "width" (JInt 512) params)
  /\ dict_get String.eqb "num_frames" kwargs
     = Some (get_default "num_frames" (JInt 65) params)
  /\ dict_get String.eqb "seed" kwargs = Some (get_default "seed" (JInt 42) params)
  /\ dict_get String.eqb "fps" kwargs = Some (get_default "fps" (JInt 24) params)
  /\ dict_get String.eqb "output_path" kwargs
     = Some (get_default "output_path" (JStr "output.mp4") params)
  /\ dict_get String.eqb "model_repo" kwargs
     = Some (get_default "model_repo" (JStr "notapalindrome/ltx2-mlx-av") params)
  /\ success_result kwargs
     = JObj
         [("success", JBool true);
          ("video_path", get_default "output_path" (JStr "output.mp4") params);
          ("seed", get_default "seed" (JInt 42) params);
          ("mode", JStr (if truthy (get_default "image" JNull params)
                         then "i2v" else "t2v"));
          ("has_audio",
           JBool (negb (truthy (get_default "no_audio" JNull params))))].
Proof.
  cbv zeta.
  assert (Hprompt : dict_get String.eqb "prompt" (build_kwargs params)
                    = Some (get_default "prompt" JNull params))
    by (kwargs_lookup; reflexivity).
  assert (Hout : dict_get String.eqb "output_path" (build_kwargs params)
                 = Some (get_default "output_path" (JStr "output.mp4") params))
    by (kwargs_lookup; reflexivity).
  assert (Hseed : dict_get String.eqb "seed" (build_kwargs params)
                  = Some (get_default "seed" (JInt 42) params))
    by (kwargs_lookup; reflexivity).
  assert (Himage : dict_get String.eqb "image" (build_kwargs params)
                   = if truthy (get_default "image" JNull params)
                     then Some (get_default "image" JNull params) else None).
  { unfold build_kwargs, set_if; rewrite !dict_get_set_if.
    destruct (truthy (get_default "image" JNull params));
      rewrite ?dict_get_set_ne by reflexivity; rewrite ?dict_get_set_eq;
      cbn [dict_get String.eqb Ascii.eqb Bool.eqb andb];
      rewrite ?andb_false_r; reflexivity. }
  assert (Hna : dict_get String.eqb "no_audio" (build_kwargs params)
                = if truthy (get_default "no_audio" JNull params)
                  then Some (JBool true) else None).
  { kwargs_lookup; now destruct (truthy (get_default "no_audio" JNull params)). }
  split; [exact Hprompt|].
  split; [kwargs_lookup; reflexivity|].
  split; [kwargs_lookup; reflexivity|].
  split; [kwargs_lookup; reflexivity|].
  split; [exact Hseed|].
  split; [kwargs_lookup; reflexivity|].
  split; [exact Hout|].
  split; [kwargs_lookup; reflexivity|].
  unfold success_result, get_default at 1 2 3 4.
  rewrite Hout, Hseed, Himage, Hna. cbn [default from_option id].
  destruct (truthy (get_default "image" JNull params)) eqn:Ei;
    destruct (truthy (get_default "no_audio" JNull params)) eqn:En;
    cbn [default from_option id truthy negb]; rewrite ?Ei; reflexivity.
Qed.

(** X14. An optional parameter reaches [generate_av] only with a truthy
    value: a [temperature], [top_p] or [repetition_penalty] of 0 is
    dropped like a missing one, a flag is passed as [True] or not at all,
    [tiling] is dropped when it is ["auto"], and [image_strength] and
    [image_frame_idx] are passed, with the defaults 1.0 and 0, exactly
    when a truthy [image] is. *)
Theorem falsy_options_are_not_forwarded params :
  let get k := get_default k JNull params in
  let kwargs := build_kwargs params in
  (forall k, In k ["repetition_penalty"; "top_p"; "temperature"] ->
     dict_get String.eqb k kwargs = if truthy (get k) then Some (get k) else None)
  /\ (forall k, In k ["no_audio"; "save_audio_separately"; "enhance_prompt";
                      "use_uncensored_enhancer"] ->
      dict_get String.eqb k kwargs
      = if truthy (get k) then Some (JBool true) else None)
  /\ dict_get String.eqb "tiling" kwargs
     = (if truthy (get "tiling") && negb (is_str "auto" (get "tiling"))
        then Some (get "tiling") else None)
  /\ dict_get String.eqb "image" kwargs
     = (if truthy (get "image") then Some (get "image") else None)
  /\ dict_get String.eqb "image_strength" kwargs
     = (if truthy (get "image")
        then Some (get_default "image_strength" (JFloat (IEEE.of_nat 1)) params)
        else None)
  /\ dict_get String.eqb "image_frame_idx" kwargs
     = (if truthy (get "image")
        then Some (get_default "image_frame_idx" (JInt 0) params)
        else None).
Proof.
  cbv zeta. split; [|split; [|split; [|split; [|split]]]].
  - intros k [<-|[<-|[<-|[]]]].
    + kwargs_lookup;
        now destruct (truthy (get_default "repetition_penalty" JNull params)).
    + kwargs_lookup; now destruct (truthy (get_default "top_p" JNull params)).
    + kwargs_lookup; now destruct (truthy (get_default "temperature" JNull params)).
  - intros k [<-|[<-|[<-|[<-|[]]]]].
    + kwargs_lookup; now destruct (truthy (get_default "no_audio" JNull params)).
    + kwargs_lookup;
        now destruct (truthy (get_default "save_audio_separately" JNull params)).
    + kwargs_lookup; now destruct (truthy (get_default "enhance_prompt" JNull params)).
    + kwargs_lookup;
        now destruct (truthy (get_default "use_uncensored_enhancer" JNull params)).
  - kwargs_lookup;
      now destruct (truthy (get_default "tiling" JNull params)
                    && negb (is_str "auto" (get_default "tiling" JNull params))).
  - unfold build_kwargs, set_if; rewrite !dict_get_set_if.
    destruct (truthy (get_default "image" JNull params));
      rewrite ?dict_get_set_ne by reflexivity; rewrite ?dict_get_set_eq;
      cbn [dict_get String.eqb Ascii.eqb Bool.eqb andb];
      rewrite ?andb_false_r; reflexivity.
  - unfold build_kwargs, set_if; rewrite !dict_get_set_if.
    destruct (truthy (get_default "image" JNull params));
      rewrite ?dict_get_set_ne by reflexivity; rewrite ?dict_get_set_eq;
      cbn [dict_get String.eqb Ascii.eqb Bool.eqb andb];
      rewrite ?andb_false_r; reflexivity.
  - unfold build_kwargs, set_if; rewrite !dict_get_set_if.
    destruct (truthy (get_default "image" JNull params));
      rewrite ?dict_get_set_ne by reflexivity; rewrite ?dict_get_set_eq;
      cbn [dict_get String.eqb Ascii.eqb Bool.eqb andb];
      rewrite ?andb_false_r; reflexivity.
Qed.

End Kwargs.

(* ===================================================================== *)
(** * The command-line entry points *)
(* ===================================================================== *)

Section Scripts.
Local Open Scope string_scope.

Lemma script_event_rebound s ev :
  sys_stdout s = HostStderr ->
  sys_stdout (script_event s ev) = HostStderr
  /\ on_stdout (script_event s ev) = (on_stdout s ++ fd1_writes [ev])%list.
Proof.
  intros Hs. destruct ev as [t|t|t]; cbn [script_event fd1_writes flat_map app];
    unfold py_print; rewrite ?Hs; cbn; rewrite ?app_nil_r; now split.
Qed.

Lemma script_events_rebound evs : forall s,
  sys_stdout s = HostStderr ->
  sys_stdout (fold_left script_event evs s) = HostStderr
  /\ on_stdout (fold_left script_event evs s) = (on_stdout s ++ fd1_writes evs)%list.
Proof.
  induction evs as [|ev evs IH]; intros s Hs.
  - cbn. now rewrite app_nil_r.
  - cbn [fold_left]. destruct (script_event_rebound s ev Hs) as [Hs' Ho].
    destruct (IH _ Hs') as [Hs'' Ho']. split; [exact Hs''|].
    rewrite Ho', Ho. unfold fd1_writes. cbn [flat_map]. now rewrite app_nil_r, <- app_assoc.
Qed.

Lemma script_handlers_rebound package e s :
  sys_stdout s = HostStderr ->
  on_stdout (fst (script_handlers package e s)) = on_stdout s
  /\ match sx_class e with
     | ScBaseException =>
         script_handlers package e s = (s, Uncaught e)
     | _ =>
         snd (script_handlers package e s) = SysExit 1
         /\ exists before error,
              on_stderr (fst (script_handlers package e s))
              = (before ++ [PrintJson (JObj [("success", JBool false);
                                             ("error", JStr error)])])%list
     end.
Proof.
  intros Hs. unfold script_handlers, status_output, print_err, py_print.
  destruct (sx_class e); cbn [write_on sys_stdout on_stdout on_stderr fst snd];
    rewrite ?Hs; cbn [write_on sys_stdout on_stdout on_stderr fst snd].
  - split; [reflexivity|]. split; [reflexivity|]. now eexists _, _.
  - split; [reflexivity|]. split; [reflexivity|]. now eexists _, _.
  - now split.
Qed.

(** What [main] of [av_generator_lora.py] leaves on standard output, and
    how it ends. *)
Lemma lora_main_exit generate args s :
  let run := generate (lora_call_of args) in
  let out := lora_main generate args s in
  on_stdout (fst out) = (on_stdout s ++ fd1_writes (sr_events run))%list
  /\ snd out = match sr_raises run with
               | None => Returns
               | Some e =>
                   match sx_class e with
                   | ScBaseException => Uncaught e
                   | _ => SysExit 1
                   end
               end.
Proof.
  cbv zeta. unfold lora_main.
  set (s1 := status_output (MsgGenerating _) _).
  assert (H1 : sys_stdout s1 = HostStderr /\ on_stdout s1 = on_stdout s).
  { unfold s1, status_output, print_err.
    destruct (nonempty (a_lora args)), (a_no_audio args); now cbn. }
  destruct H1 as [Hs1 Ho1].
  destruct (script_events_rebound (sr_events (generate (lora_call_of args))) s1 Hs1)
    as [Hs2 Ho2].
  set (s2 := fold_left script_event _ s1) in *.
  destruct (sr_raises (generate (lora_call_of args))) as [e|].
  - destruct (script_handlers_rebound "mlx-video-with-audio" e s2 Hs2) as [Ho3 Hexit].
    split; [now rewrite Ho3, Ho2, Ho1|].
    destruct (sx_class e); [now destruct Hexit|now destruct Hexit|now rewrite Hexit].
  - unfold status_output, print_err, py_print.
    cbn [write_on sys_stdout on_stdout on_stderr fst snd]. rewrite Hs2.
    cbn [write_on sys_stdout on_stdout on_stderr fst snd].
    split; [now rewrite Ho2, Ho1|reflexivity].
Qed.

(** X15. [main] of [av_generator_lora.py] prints nothing on the standard
    output of the process: [sys.stdout] is rebound to [sys.stderr] and
    never bound back, so the status lines, what the generation prints and
    the JSON result or error itself all go to standard error, where that
    JSON is the last thing written; standard output receives only what is
    written on descriptor 1 below Python.  [main] returns when the
    generation completes, exits with status 1 when it raises an
    [Exception], and lets any other exception through, without a JSON
    line. *)
Theorem lora_main_prints_nothing_on_stdout generate args s :
  let run := generate (lora_call_of args) in
  let out := lora_main generate args s in
  on_stdout (fst out) = (on_stdout s ++ fd1_writes (sr_events run))%list
  /\ match sr_raises run with
     | None =>
         snd out = Returns
         /\ exists before,
              on_stderr (fst out) = (before ++ [PrintJson (lora_result args)])%list
     | Some e =>
         match sx_class e with
         | ScBaseException => snd out = Uncaught e
         | _ =>
             snd out = SysExit 1
             /\ exists before error,
                  on_stderr (fst out)
                  = (before ++ [PrintJson (JObj [("success", JBool false);
                                                 ("error", JStr error)])])%list
         end
     end.
Proof.
  cbv zeta. unfold lora_main.
  set (s1 := status_output (MsgGenerating _) _).
  assert (H1 : sys_stdout s1 = HostStderr /\ on_stdout s1 = on_stdout s).
  { unfold s1, status_output, print_err.
    destruct (nonempty (a_lora args)), (a_no_audio args); now cbn. }
  destruct H1 as [Hs1 Ho1].
  destruct (script_events_rebound (sr_events (generate (lora_call_of args))) s1 Hs1)
    as [Hs2 Ho2].
  set (s2 := fold_left script_event _ s1) in *.
  destruct (sr_raises (generate (lora_call_of args))) as [e|].
  - destruct (script_handlers_rebound "mlx-video-with-audio" e s2 Hs2) as [Ho3 Hexit].
    split; [now rewrite Ho3, Ho2, Ho1|].
    destruct (sx_class e); [exact Hexit|exact Hexit|now rewrite Hexit].
  - unfold status_output, print_err, py_print.
    cbn [write_on sys_stdout on_stdout on_stderr fst snd]. rewrite Hs2.
    cbn [write_on sys_stdout on_stdout on_stderr fst snd].
    split; [now rewrite Ho2, Ho1|]. split; [reflexivity|]. now eexists.
Qed.

(** [main] of [av_generator_lora.py] when the generation raises an
    [Exception] that is no [ImportError]. *)
Lemma lora_main_exception generate args s e :
  sr_raises (generate (lora_call_of args)) = Some e ->
  sx_class e = ScException ->
  snd (lora_main generate args s) = SysExit 1
  /\ exists earlier,
       on_stderr (fst (lora_main generate args s))
       = (earlier ++ [PrintJson (JObj [("success", JBool false);
                                       ("error", JStr (sx_str e))])])%list.
Proof.
  intros Hraises Hclass. unfold lora_main.
  set (s1 := status_output (MsgGenerating _) _).
  assert (Hs1 : sys_stdout s1 = HostStderr).
  { unfold s1, status_output, print_err.
    destruct (nonempty (a_lora args)), (a_no_audio args); now cbn. }
  destruct (script_events_rebound (sr_events (generate (lora_call_of args))) s1 Hs1)
    as [Hs2 _].
  set (s2 := fold_left script_event _ s1) in *.
  rewrite Hraises. unfold script_handlers. rewrite Hclass.
  unfold status_output, print_err, py_print.
  cbn [write_on sys_stdout on_stdout on_stderr fst snd]. rewrite Hs2.
  cbn [write_on sys_stdout on_stdout on_stderr fst snd].
  split; [reflexivity|]. now eexists.
Qed.

(** X18. The call [main] of [av_generator_lora.py] makes does not depend
    on [--no-audio], [--repetition-penalty] or [--top-p]: two command
    lines that differ only there run the same generation (audio
    included), and differ in the [has_audio] they report. *)
Theorem lora_main_flags_without_effect args no_audio repetition_penalty top_p :
  let args' :=
    LoraArgs (a_prompt args) (a_height args) (a_width args) (a_num_frames args)
      (a_seed args) (a_fps args) (a_output_path args) (a_model_repo args)
      (a_image args) (a_image_strength args) (a_tiling args)
      no_audio repetition_penalty top_p
      (a_lora args) (a_lora_strength args) (a_enhance_prompt args)
      (a_use_uncensored_enhancer args) (a_temperature args)
      (a_save_audio_separately args) in
  lora_call_of args' = lora_call_of args
  /\ (forall generate s,
        snd (lora_main generate args' s) = snd (lora_main generate args s)
        /\ on_stdout (fst (lora_main generate args' s))
           = on_stdout (fst (lora_main generate args s)))
  /\ lora_result args'
     = JObj [("video_path", JStr (a_output_path args));
             ("seed", JInt (a_seed args));
             ("mode", JStr (if is_some (a_image args) then "i2v" else "t2v"));
             ("has_audio", JBool (negb no_audio))].
Proof.
  cbv zeta. split; [reflexivity|]. split; [|reflexivity].
  intros generate s.
  set (args' := LoraArgs _ _ _ _ _ _ _ _ _ _ _ _ _ _ _ _ _ _ _ _).
  pose proof (lora_main_exit generate args s) as [Ho He].
  pose proof (lora_main_exit generate args' s) as [Ho' He'].
  change (lora_call_of args') with (lora_call_of args) in *.
  split; [now rewrite He, He'|now rewrite Ho, Ho'].
Qed.

Lemma script_event_written s ev :
  exists added,
    on_stdout (script_event s ev) = (on_stdout s ++ added)%list
    /\ Forall is_written added
    /\ sys_stdout (script_event s ev) = sys_stdout s.
Proof.
  destruct ev as [t|t|t]; cbn [script_event]; unfold py_print.
  - destruct (sys_stdout s) eqn:Hs; cbn [write_on on_stdout sys_stdout].
    + exists []. now rewrite app_nil_r.
    + exists [Written t]. split; [reflexivity|]. split; [|exact Hs].
      constructor; [now exists t|constructor].
    + exists []. now rewrite app_nil_r.
  - exists [Written t]. split; [reflexivity|]. split; [|reflexivity].
    constructor; [now exists t|constructor].
  - exists []. cbn. now rewrite app_nil_r.
Qed.

Lemma script_events_written evs : forall s,
  exists added,
    on_stdout (fold_left script_event evs s) = (on_stdout s ++ added)%list
    /\ Forall is_written added
    /\ sys_stdout (fold_left script_event evs s) = sys_stdout s.
Proof.
  induction evs as [|ev evs IH]; intros s.
  - exists []. cbn. now rewrite app_nil_r.
  - cbn [fold_left]. destruct (script_event_written s ev) as (a1 & Ho1 & Hw1 & Hs1).
    destruct (IH (script_event s ev)) as (a2 & Ho2 & Hw2 & Hs2).
    exists (a1 ++ a2)%list. split; [now rewrite Ho2, Ho1, app_assoc|].
    split; [now apply Forall_app|congruence].
Qed.

(** X16. [main] of [av_generator.py], entered with [sys.stdout] on the
    standard output, adds to it what the generation writes there and then,
    as the last thing written, one JSON line: the result when the
    generation completes ([main] returns), the error object when the
    import or the generation raises an [Exception] (exit status 1); any
    other exception leaves [main] and no JSON is written. *)
Theorem av_main_result_is_last_on_stdout import args s :
  sys_stdout s = HostStdout ->
  let out := av_main import args s in
  exists added,
    Forall is_written added
    /\ match import with
       | inl e =>
           match sx_class e with
           | ScBaseException =>
               snd out = Uncaught e /\ on_stdout (fst out) = on_stdout s
           | _ =>
               snd out = SysExit 1
               /\ exists error,
                    on_stdout (fst out)
                    = (on_stdout s
                       ++ [PrintJson (JObj [("success", JBool false);
                                            ("error", JStr error)])])%list
           end
       | inr generate_av =>
           match sr_raises (generate_av (gen_kwargs args)) with
           | None =>
               snd out = Returns
               /\ on_stdout (fst out)
                  = (on_stdout s ++ added ++ [PrintJson (av_result args)])%list
           | Some e =>
               match sx_class e with
               | ScBaseException =>
                   snd out = Uncaught e
                   /\ on_stdout (fst out) = (on_stdout s ++ added)%list
               | _ =>
                   snd out = SysExit 1
                   /\ exists error,
                        on_stdout (fst out)
                        = (on_stdout s ++ added
                           ++ [PrintJson (JObj [("success", JBool false);
                                                ("error", JStr error)])])%list
               end
           end
       end.
Proof.
  intros Hs. cbv zeta. unfold av_main.
  destruct import as [e|generate_av].
  - exists []. split; [constructor|].
    unfold script_handlers, status_output, print_err, py_print.
    destruct (sx_class e);
      cbn [write_on sys_stdout on_stdout on_stderr fst snd]; rewrite ?Hs;
      cbn [write_on sys_stdout on_stdout on_stderr fst snd].
    + split; [reflexivity|]. now eexists.
    + split; [reflexivity|]. now eexists.
    + now split.
  - set (s1 := status_output (MsgGenerating _) _).
    assert (H1 : sys_stdout s1 = HostStdout /\ on_stdout s1 = on_stdout s).
    { unfold s1, status_output, print_err.
      destruct (nonempty (v_image args)); now cbn. }
    destruct H1 as [Hs1 Ho1].
    destruct (script_events_written (sr_events (generate_av (gen_kwargs args))) s1)
      as (added & Ho2 & Hw & Hs2).
    set (s2 := fold_left script_event _ s1) in *.
    rewrite Hs1 in Hs2. rewrite Ho1 in Ho2.
    exists added. split; [exact Hw|].
    destruct (sr_raises (generate_av (gen_kwargs args))) as [e|].
    + unfold script_handlers, status_output, print_err, py_print.
      destruct (sx_class e);
        cbn [write_on sys_stdout on_stdout on_stderr fst snd]; rewrite ?Hs2;
        cbn [write_on sys_stdout on_stdout on_stderr fst snd].
      * split; [reflexivity|]. eexists. now rewrite Ho2, <- app_assoc.
      * split; [reflexivity|]. eexists. now rewrite Ho2, <- app_assoc.
      * now split.
    + unfold status_output, print_err, py_print.
      cbn [write_on sys_stdout on_stdout on_stderr fst snd]. rewrite Hs2.
      cbn [write_on sys_stdout on_stdout on_stderr fst snd].
      split; [reflexivity|]. now rewrite Ho2, <- app_assoc.
Qed.

(** X17. [main] of [av_generator.py] never passes [--seed] or [--fps] to
    [generate_av], although it reports the seed: two command lines that
    differ only there make the same call.  The image is passed only when
    it is not empty, while the reported mode is ["i2v"] whenever
    [--image] is given. *)
Theorem av_main_does_not_pass_the_seed args seed fps :
  let args' :=
    AvArgs (v_prompt args) (v_height args) (v_width args) (v_num_frames args)
      seed fps (v_output_path args) (v_model_repo args) (v_image args) in
  gen_kwargs args' = gen_kwargs args
  /\ dict_get String.eqb "seed" (gen_kwargs args) = None
  /\ dict_get String.eqb "fps" (gen_kwargs args) = None
  /\ av_result args'
     = JObj [("video_path", JStr (v_output_path args));
             ("seed", JInt seed);
             ("mode", JStr (if is_some (v_image args) then "i2v" else "t2v"));
             ("has_audio", JBool true)]
  /\ dict_get String.eqb "image" (gen_kwargs args)
     = (if nonempty (v_image args)
        then option_map JStr (v_image args) else None).
Proof.
  cbv zeta. split; [reflexivity|]. unfold gen_kwargs.
  destruct (v_image args) as [image|]; cbn [nonempty default from_option id option_map];
    [destruct (String.eqb image ""); cbn [negb]|]; now repeat split.
Qed.

End Scripts.

(* ===================================================================== *)
(** * Adapter files in sequence, in exact arithmetic *)
(* ===================================================================== *)

Section ExactCompose.
Import Exact.
Local Open Scope Qc_scope.








End ExactCompose.

(* ===================================================================== *)
(** * [LTXGenerator] *)
(* ===================================================================== *)

Section LtxGenerator.
Local Open Scope string_scope.

Lemma count_loads_app a b :
  count_loads (a ++ b)%list = (count_loads a + count_loads b)%nat.
Proof. unfold count_loads. now rewrite List.filter_app, length_app. Qed.

Lemma ltx_step_loads pipe call :
  call <> CallLoadModel ->
  fst (ltx_step pipe call) = negb (is_unload call)
  /\ count_loads (snd (ltx_step pipe call))
     = (if is_generate call && negb pipe then 1 else 0)%nat.
Proof.
  intros Hcall. destruct call as [randint req|mps|]; [| |contradiction].
  - cbn. now destruct pipe.
  - cbn. now destruct mps.
Qed.

(** Over calls of [generate] and [unload_model], the model is loaded at
    most once more than it is unloaded. *)
Lemma ltx_calls_loads calls : forall pipe,
  Forall (fun call => call <> CallLoadModel) calls ->
  (count_loads (snd (ltx_calls calls pipe))
   <= length (List.filter is_unload calls) + (if pipe then 0 else 1))%nat.
Proof.
  induction calls as [|call calls IH]; intros pipe Hcalls; [cbn; lia|].
  inversion Hcalls as [|? ? Hcall Hrest]; subst.
  cbn [ltx_calls]. destruct (ltx_step_loads pipe call Hcall) as [Hpipe Hloads].
  destruct (ltx_step pipe call) as [pipe1 events]. cbn [fst snd] in *.
  specialize (IH pipe1 Hrest).
  destruct (ltx_calls calls pipe1) as [pipe2 events']. cbn [snd] in *.
  rewrite count_loads_app, Hloads. cbn [List.filter].
  destruct call as [randint req|mps|]; [| |contradiction]; cbn in *; subst pipe1;
    destruct pipe; cbn in *; lia.
Qed.

(** X21. [generate] loads the model only when the generator holds none:
    over any sequence of [generate] and [unload_model] calls the model is
    loaded at most once more than it is unloaded, and calls of [generate]
    alone on a fresh generator load it exactly once, before anything
    else.  The seed [generate] returns, given back as [seed], repeats
    the same calls. *)
Theorem generate_loads_the_model_once calls :
  Forall (fun call => call <> CallLoadModel) calls ->
  (forall pipe,
     (count_loads (snd (ltx_calls calls pipe))
      <= length (List.filter is_unload calls) + (if pipe then 0 else 1))%nat)
  /\ (forallb is_generate calls = true -> calls <> [] ->
      count_loads (snd (ltx_calls calls false)) = 1%nat
      /\ head (snd (ltx_calls calls false)) = Some LoadModel)
  /\ (forall pipe randint req,
        q_seed req = None ->
        snd (ltx_generate pipe randint req)
        = JObj [("video_path", JStr (q_output_path req)); ("seed", JInt randint)]
        /\ forall randint',
             ltx_generate pipe randint' (with_seed (Some randint) req)
             = ltx_generate pipe randint req).
Proof.
  intros Hcalls. split; [intros pipe; now apply ltx_calls_loads|]. split.
  - intros Hgen Hne. destruct calls as [|call calls]; [contradiction|].
    cbn [forallb] in Hgen. apply andb_true_iff in Hgen as [Hcall Hgen].
    destruct call as [randint req| |]; try discriminate Hcall.
    inversion Hcalls as [|? ? _ Hrest]; subst.
    pose proof (ltx_calls_loads calls true Hrest) as Hle.
    assert (Hnone : List.filter is_unload calls = []).
    { clear -Hgen. induction calls as [|c calls IH]; [reflexivity|].
      cbn [forallb] in Hgen. apply andb_true_iff in Hgen as [Hc Hgen].
      destruct c; try discriminate Hc. cbn. now apply IH. }
    rewrite Hnone in Hle. cbn [ltx_calls ltx_step ltx_generate].
    destruct (ltx_calls calls true) as [pipe2 events']. cbn [snd] in *.
    split; [|reflexivity].
    rewrite count_loads_app. cbn in *. lia.
  - intros pipe randint req Hseed. unfold ltx_generate, with_seed.
    cbn [q_prompt q_output_path q_negative_prompt q_num_inference_steps
         q_guidance_scale q_width q_height q_num_frames q_fps q_seed].
    rewrite Hseed. now split.
Qed.

End LtxGenerator.

(* ===================================================================== *)
(** * [generate_audio] *)
(* ===================================================================== *)

Section AudioFacts.
Local Open Scope string_scope.
Local Open Scope Z_scope.
Context {sample : Type} (to_int16 : sample -> Z).

Lemma progress_values_app a b :
  progress_values (a ++ b)%list = (progress_values a ++ progress_values b)%list.
Proof. unfold progress_values. apply flat_map_app. Qed.

Lemma progress_values_chunks (chunks : list (list sample)) :
  progress_values (map (fun _ => AProgress 60 "Processing audio") chunks)
  = map (fun _ => 60) chunks.
Proof. induction chunks as [|c chunks IH]; [reflexivity|]. cbn. now f_equal. Qed.

Lemma nondecreasing_chunks (chunks : list (list sample)) tail :
  nondecreasing (60 :: tail) ->
  nondecreasing (40 :: map (fun _ => 60) chunks ++ tail)%list.
Proof.
  intros Htail.
  assert (Hgen : forall a, a <= 60 ->
            nondecreasing (a :: map (fun _ => 60) chunks ++ tail)%list).
  { induction chunks as [|c chunks IH]; intros a Ha.
    - cbn [map app]. destruct tail as [|b tail]; [exact I|].
      destruct Htail as [Hb Htail]. split; [lia|]. exact Htail.
    - cbn [map app]. split; [exact Ha|]. apply IH. lia. }
  apply Hgen. lia.
Qed.

Lemma handlers_failed e out :
  progress_values (ao_stderr (audio_handlers e out)) = progress_values out
  /\ ao_wav (audio_handlers e out) = None
  /\ audio_failed (ao_result (audio_handlers e out)).
Proof.
  unfold audio_handlers, audio_failed.
  destruct (sx_class e); cbn [ao_stderr ao_wav ao_result];
    rewrite ?progress_values_app; cbn; rewrite ?app_nil_r;
    (split; [reflexivity|]); (split; [reflexivity|]);
    [right; now eexists|right; now eexists|left; now eexists].
Qed.

(** What holds of an outcome that is a failure. *)
Lemma audio_failure_facts (o : audio_outcome) output_path (frames : list Z) :
  audio_failed (ao_result o) -> ao_wav o = None ->
  Forall (fun percent => percent < 100) (progress_values (ao_stderr o)) ->
  (In 100 (progress_values (ao_stderr o))
   <-> ao_result o = inr (audio_success output_path))
  /\ (ao_result o = inr (audio_success output_path)
      <-> ao_wav o = Some (output_path, frames))
  /\ (audio_exit (ao_result o) = SysExit 0
      <-> ao_result o = inr (audio_success output_path)).
Proof.
  intros Hfailed Hwav Hlt.
  assert (Hno : ~ In 100 (progress_values (ao_stderr o))).
  { intros Hin. rewrite Forall_forall in Hlt.
    apply list_elem_of_In in Hin. apply Hlt in Hin. lia. }
  assert (Hr : ao_result o <> inr (audio_success output_path)).
  { destruct Hfailed as [[e ->]|[error ->]]; discriminate. }
  rewrite Hwav. split; [tauto|]. split; [split; [tauto|discriminate]|].
  split; [|tauto].
  destruct Hfailed as [[e ->]|[error ->]]; discriminate.
Qed.

Lemma progress_below_100 (chunks : list (list sample)) tail :
  Forall (fun percent => percent < 100) tail ->
  Forall (fun percent => percent < 100)
    (10 :: 30 :: 40 :: map (fun _ => 60) chunks ++ tail)%list.
Proof.
  intros Htail. repeat (constructor; [lia|]).
  apply Forall_app. split; [|exact Htail].
  apply Forall_map, Forall_forall. intros; cbn; lia.
Qed.

Lemma progress_of_run (chunks : list (list sample)) voice tail :
  progress_values
    ((([AStatus SLoading; AProgress 10 "Loading model"]
       ++ [AProgress 30 "Model loaded"; AStatus (SGenerating voice);
           AProgress 40 "Generating speech"])
      ++ map (fun _ => AProgress 60 "Processing audio") chunks) ++ tail)%list
  = (10 :: 30 :: 40 :: map (fun _ => 60) chunks ++ progress_values tail)%list.
Proof.
  rewrite !progress_values_app, progress_values_chunks. reflexivity.
Qed.

(** X22. In every run of [generate_audio] the progress it reports never
    goes back, and it reports 100 exactly when it returns success, which
    is exactly when it has written the file, with the chunks the model
    yielded in their order; every [Exception] is returned as a failure
    dict, a run without a chunk as the failure ["No audio generated"],
    and the script exits with status 0 exactly on success. *)
Theorem audio_progress_never_goes_back (run : @tts_run sample) voice output_path :
  let outcome := generate_audio to_int16 run voice output_path in
  (tts_import run = None -> tts_load_model run = None ->
   tts_generate run = None -> tts_chunks run = [] ->
   ao_result outcome
   = inr (JObj [("success", JBool false);
                ("error", JStr "No audio generated")]))
  /\ nondecreasing (progress_values (ao_stderr outcome))
  /\ (In 100 (progress_values (ao_stderr outcome))
      <-> ao_result outcome = inr (audio_success output_path))
  /\ (ao_result outcome = inr (audio_success output_path)
      <-> ao_wav outcome
          = Some (output_path, map to_int16 (concat (tts_chunks run))))
  /\ (snd (audio_main to_int16 run voice output_path) = SysExit 0
      <-> ao_result outcome = inr (audio_success output_path))
  /\ (audio_failed (ao_result outcome)
      \/ ao_result outcome = inr (audio_success output_path)).
Proof.
  cbv zeta.
  change (snd (audio_main to_int16 run voice output_path))
    with (audio_exit (ao_result (generate_audio to_int16 run voice output_path))).
  assert (Hfail : forall o : audio_outcome,
            nondecreasing (progress_values (ao_stderr o)) ->
            audio_failed (ao_result o) -> ao_wav o = None ->
            Forall (fun percent => percent < 100) (progress_values (ao_stderr o)) ->
            nondecreasing (progress_values (ao_stderr o))
            /\ (In 100 (progress_values (ao_stderr o))
                <-> ao_result o = inr (audio_success output_path))
            /\ (ao_result o = inr (audio_success output_path)
                <-> ao_wav o
                    = Some (output_path, map to_int16 (concat (tts_chunks run))))
            /\ (audio_exit (ao_result o) = SysExit 0
                <-> ao_result o = inr (audio_success output_path))
            /\ (audio_failed (ao_result o)
                \/ ao_result o = inr (audio_success output_path))).
  { intros o Hnd Hfailed Hwav Hlt.
    destruct (audio_failure_facts o output_path
                (map to_int16 (concat (tts_chunks run))) Hfailed Hwav Hlt)
      as (H1 & H2 & H3).
    split; [exact Hnd|]. split; [exact H1|]. split; [exact H2|].
    split; [exact H3|]. now left. }
  assert (Hearly : forall e,
            let o := audio_handlers e [AStatus SLoading; AProgress 10 "Loading model"] in
            nondecreasing (progress_values (ao_stderr o))
            /\ audio_failed (ao_result o) /\ ao_wav o = None
            /\ Forall (fun percent => percent < 100) (progress_values (ao_stderr o))).
  { intros e o. destruct (handlers_failed e [AStatus SLoading; AProgress 10 "Loading model"])
      as (Hp & Hw & Hf).
    unfold o. rewrite Hp. cbn. split; [exact I|]. split; [exact Hf|].
    split; [exact Hw|]. constructor; [lia|constructor]. }
  assert (Hlate : forall e tail,
            nondecreasing (60 :: progress_values tail) ->
            Forall (fun percent => percent < 100) (progress_values tail) ->
            let o := audio_handlers e
                       ((([AStatus SLoading; AProgress 10 "Loading model"]
                          ++ [AProgress 30 "Model loaded"; AStatus (SGenerating voice);
                              AProgress 40 "Generating speech"])
                         ++ map (fun _ => AProgress 60 "Processing audio")
                                (tts_chunks run)) ++ tail)%list in
            nondecreasing (progress_values (ao_stderr o))
            /\ audio_failed (ao_result o) /\ ao_wav o = None
            /\ Forall (fun percent => percent < 100) (progress_values (ao_stderr o))).
  { intros e tail Hnd Hlt o. destruct (handlers_failed e
      ((([AStatus SLoading; AProgress 10 "Loading model"]
         ++ [AProgress 30 "Model loaded"; AStatus (SGenerating voice);
             AProgress 40 "Generating speech"])
        ++ map (fun _ => AProgress 60 "Processing audio") (tts_chunks run)) ++ tail)%list)
      as (Hp & Hw & Hf).
    unfold o. rewrite Hp, progress_of_run.
    split; [|split; [exact Hf|split; [exact Hw|now apply progress_below_100]]].
    split; [lia|]. split; [lia|]. now apply nondecreasing_chunks. }
  unfold generate_audio.
  destruct (tts_import run) as [e|].
  { destruct (Hearly e) as (Hnd & Hf & Hw & Hlt).
    split; [intros; discriminate|]. now apply Hfail. }
  destruct (tts_load_model run) as [e|].
  { destruct (Hearly e) as (Hnd & Hf & Hw & Hlt).
    split; [intros; discriminate|]. now apply Hfail. }
  destruct (tts_generate run) as [e|].
  { destruct (Hlate e [] I ltac:(constructor)) as (Hnd & Hf & Hw & Hlt).
    rewrite app_nil_r in Hnd, Hf, Hw, Hlt.
    split; [intros; discriminate|]. now apply Hfail. }
  destruct (tts_chunks run) as [|chunk chunks] eqn:Hchunks.
  { split; [reflexivity|]. apply Hfail.
    - cbn. lia.
    - right. now eexists.
    - reflexivity.
    - cbn. repeat (constructor; [lia|]). constructor. }
  destruct (tts_concatenate run) as [e|].
  { destruct (Hlate e [] I ltac:(constructor)) as (Hnd & Hf & Hw & Hlt).
    rewrite app_nil_r in Hnd, Hf, Hw, Hlt.
    split; [intros; discriminate|]. now apply Hfail. }
  destruct (tts_save run) as [e|].
  { destruct (Hlate e [AProgress 80 "Saving audio"]) as (Hnd & Hf & Hw & Hlt).
    - cbn. lia.
    - cbn. constructor; [lia|constructor].
    - split; [intros; discriminate|]. now apply Hfail. }
  cbn [ao_stderr ao_wav ao_result].
  rewrite <- app_assoc, progress_of_run.
  cbn [progress_values flat_map app].
  split; [intros; discriminate|].
  split; [|split; [|split; [|split]]].
  - split; [lia|]. split; [lia|]. apply nondecreasing_chunks. cbn. lia.
  - split; [reflexivity|]. intros _. right. right. right.
    apply in_or_app. right. right. now left.
  - split; reflexivity.
  - split; reflexivity.
  - now right.
Qed.

End AudioFacts.

(* ===================================================================== *)
(** * The injection of the bundled prompts *)
(* ===================================================================== *)

Section PromptInjection.
Local Open Scope string_scope.

Lemma string_length_app (a b : string) :
  String.length (a ++ b) = (String.length a + String.length b)%nat.
Proof. induction a as [|c a IH]; simpl; [reflexivity|now rewrite IH]. Qed.

Lemma mkdir_parents_keeps p ft ft' :
  mkdir_parents p ft = Some ft' ->
  ft_refuses ft' = ft_refuses ft
  /\ (forall q e, ft_entries ft !! q = Some e -> ft_entries ft' !! q = Some e)
  /\ (forall q, ft_entries ft !! q = None -> ft_entries ft' !! q <> None -> q = p).
Proof.
  unfold mkdir_parents. destruct (ft_entries ft !! p) as [[|content]|] eqn:Hp.
  - intros [= <-]. now repeat split.
  - discriminate.
  - destruct (ft_refuses ft p); [discriminate|]. intros [= <-].
    cbn [ft_entries ft_refuses]. split; [reflexivity|]. split.
    + intros q e Hq. rewrite lookup_insert_ne; [exact Hq|congruence].
    + intros q Hq Hq'. destruct (decide (p = q)) as [->|Hne]; [reflexivity|].
      rewrite lookup_insert_ne in Hq' by exact Hne. contradiction.
Qed.

Lemma copy2_keeps src dst ft ft' :
  ft_entries ft !! dst = None ->
  copy2 src dst ft = Some ft' ->
  ft_refuses ft' = ft_refuses ft
  /\ (forall q e, ft_entries ft !! q = Some e -> ft_entries ft' !! q = Some e)
  /\ (forall q, ft_entries ft !! q = None -> ft_entries ft' !! q <> None -> q = dst)
  /\ ft_entries ft' !! dst = ft_entries ft !! src.
Proof.
  intros Hdst. unfold copy2.
  destruct (ft_entries ft !! src) as [[|content]|] eqn:Hsrc; try discriminate.
  destruct (ft_refuses ft dst); [discriminate|]. intros [= <-].
  cbn [ft_entries ft_refuses]. split; [reflexivity|]. split; [|split].
  - intros q e Hq. rewrite lookup_insert_ne; [exact Hq|congruence].
  - intros q Hq Hq'. destruct (decide (dst = q)) as [->|Hne]; [reflexivity|].
    rewrite lookup_insert_ne in Hq' by exact Hne. contradiction.
  - apply lookup_insert_eq.
Qed.

(** The loop keeps what exists and creates nothing but the target
    directory and the destinations of the names. *)
Lemma inject_prompts_keeps bundled_prompts target_dir names :
  forall ft injected,
    let ft' := fst (fst (inject_prompts bundled_prompts target_dir names ft
                           injected)) in
    (forall q e, ft_entries ft !! q = Some e -> ft_entries ft' !! q = Some e)
    /\ (forall q, ft_entries ft !! q = None -> ft_entries ft' !! q <> None ->
          q = target_dir
          \/ exists name, In name names /\ q = path_join target_dir name).
Proof.
  induction names as [|name names IH]; intros ft injected; cbn [inject_prompts].
  - cbn. split; [auto|]. intros q Hq Hq'. contradiction.
  - assert (Hskip :
      let ft' := fst (fst (inject_prompts bundled_prompts target_dir names ft
                             injected)) in
      (forall q e, ft_entries ft !! q = Some e -> ft_entries ft' !! q = Some e)
      /\ (forall q, ft_entries ft !! q = None -> ft_entries ft' !! q <> None ->
            q = target_dir
            \/ exists name0, In name0 (name :: names)
                             /\ q = path_join target_dir name0)).
    { destruct (IH ft injected) as [Hkeep Hnew]. split; [exact Hkeep|].
      intros q Hq Hq'. destruct (Hnew q Hq Hq') as [->|(n & Hn & ->)];
        [now left|right]. exists n. split; [now right|reflexivity]. }
    destruct (path_exists_in ft (path_join bundled_prompts name)
              && negb (path_exists_in ft (path_join target_dir name))) eqn:Hguard;
      [|exact Hskip].
    apply andb_true_iff in Hguard as [_ Hdst]. unfold path_exists_in in Hdst.
    destruct (ft_entries ft !! path_join target_dir name) eqn:Hd; [discriminate|].
    destruct (mkdir_parents target_dir ft) as [ft1|] eqn:Hmk.
    2:{ cbn. split; [auto|]. intros q Hq Hq'. contradiction. }
    destruct (mkdir_parents_keeps _ _ _ Hmk) as (Hr1 & Hk1 & Hn1).
    destruct (copy2 (path_join bundled_prompts name) (path_join target_dir name) ft1)
      as [ft2|] eqn:Hcp.
    + assert (Hd1 : ft_entries ft1 !! path_join target_dir name = None).
      { destruct (ft_entries ft1 !! path_join target_dir name) eqn:Hd1;
          [|reflexivity].
        assert (Hq : path_join target_dir name = target_dir)
          by (apply Hn1; [exact Hd|congruence]).
        exfalso. clear -Hq. unfold path_join in Hq.
        assert (Hlen : String.length (target_dir ++ "/" ++ name)
                       = String.length target_dir) by now rewrite Hq.
        rewrite string_length_app in Hlen. simpl in Hlen. lia. }
      destruct (copy2_keeps _ _ _ _ Hd1 Hcp) as (Hr2 & Hk2 & Hn2 & _).
      destruct (IH ft2 (injected ++ [name])%list) as [Hkeep Hnew].
      split.
      * intros q e Hq. apply Hkeep, Hk2, Hk1, Hq.
      * intros q Hq Hq'.
        destruct (ft_entries ft2 !! q) eqn:Hq2.
        -- destruct (ft_entries ft1 !! q) eqn:Hq1.
           ++ left. apply Hn1; [exact Hq|congruence].
           ++ right. exists name. split; [now left|].
              apply Hn2; [exact Hq1|congruence].
        -- destruct (Hnew q Hq2 Hq') as [->|(n & Hn & ->)]; [now left|right].
           exists n. split; [now right|reflexivity].
    + cbn. split; [exact Hk1|]. intros q Hq Hq'. left. now apply Hn1.
Qed.

(** X23. The injection of the bundled prompts never touches what is
    there: every file and directory that exists before [setup_prompts]
    (or the pre-flight of [enhance_prompt_preview.py]) exists unchanged
    after it, whether or not a copy fails, and the only paths it can
    create are the [prompts] directory beside the text encoder module and
    the two prompt files in it. *)
Theorem prompt_injection_keeps_existing_files resources_path text_encoder_dir ft :
  let target_dir := path_join (default "" text_encoder_dir) "prompts" in
  let created q :=
    q = target_dir
    \/ exists name, In name prompt_names /\ q = path_join target_dir name in
  (let ft' := fst (setup_prompts resources_path text_encoder_dir ft) in
   (forall q e, ft_entries ft !! q = Some e -> ft_entries ft' !! q = Some e)
   /\ (forall q, ft_entries ft !! q = None -> ft_entries ft' !! q <> None ->
         created q))
  /\ (forall resources,
        let ft' := preflight_injection resources text_encoder_dir ft in
        (forall q e, ft_entries ft !! q = Some e -> ft_entries ft' !! q = Some e)
        /\ (forall q, ft_entries ft !! q = None -> ft_entries ft' !! q <> None ->
              created q)).
Proof.
  cbv zeta. split.
  - unfold setup_prompts. destruct text_encoder_dir as [dir|].
    + pose proof (inject_prompts_keeps (path_join resources_path "prompts")
                    (path_join dir "prompts") prompt_names ft []) as Hkeep.
      destruct (inject_prompts _ _ prompt_names ft []) as [[ft' injected] raised].
      exact Hkeep.
    + cbn. split; [auto|]. intros q Hq Hq'. contradiction.
  - intros resources. unfold preflight_injection.
    destruct (nonempty resources);
      [|split; [auto|]; intros q Hq Hq'; contradiction].
    destruct text_encoder_dir as [dir|];
      [|split; [auto|]; intros q Hq Hq'; contradiction].
    apply inject_prompts_keeps.
Qed.

End PromptInjection.

(* ===================================================================== *)
(** * The addition of the delta *)
(* ===================================================================== *)

Section ShapeCheck.
Context {num : Type} `{Arith num}.






End ShapeCheck.

(* ===================================================================== *)
(** * The building of the transformer configuration *)
(* ===================================================================== *)

Section ConfigGlobals.
Local Open Scope string_scope.

Lemma read_config_globals builtins :
  builtins "AUDIO_LATENT_CHANNELS" = false ->
  read_globals builtins config_globals
  = Some (name_error "AUDIO_LATENT_CHANNELS").
Proof.
  intros Hb. unfold read_globals, config_globals. cbn [List.find].
  change (existsb (String.eqb "LTXModelConfig") module_globals) with true.
  change (existsb (String.eqb "LTXModelType") module_globals) with true.
  change (existsb (String.eqb "AUDIO_LATENT_CHANNELS") module_globals) with false.
  cbn [orb negb]. now rewrite Hb.
Qed.

(** X25. [generate_video_with_audio_lora] cannot complete: the call of
    [LTXModelConfig] reads the global [AUDIO_LATENT_CHANNELS], which the
    module neither imports nor defines, so every run that gets there
    raises [NameError] before the weights are loaded and before
    [apply_lora_weights] is called; [main] of [av_generator_lora.py]
    therefore never returns, and when nothing raises before, it reports
    the [NameError] as its error and exits with status 1. *)
Theorem generate_with_lora_raises_name_error builtins :
  builtins "AUDIO_LATENT_CHANNELS" = false ->
  (forall before after,
     let run := generate_video_with_audio_lora builtins before after in
     sr_raises run <> None
     /\ sr_events run = sr_events before
     /\ (sr_raises before = None ->
         sr_raises run = Some (name_error "AUDIO_LATENT_CHANNELS")))
  /\ (forall (before after : lora_call -> script_run) args s,
        let generate call :=
          generate_video_with_audio_lora builtins (before call) (after call) in
        let out := lora_main generate args s in
        snd out <> Returns
        /\ (sr_raises (before (lora_call_of args)) = None ->
            snd out = SysExit 1
            /\ exists earlier,
                 on_stderr (fst out)
                 = (earlier
                    ++ [PrintJson
                          (JObj [("success", JBool false);
                                 ("error",
                                  JStr "name 'AUDIO_LATENT_CHANNELS' is not defined")])])%list)).
Proof.
  intros Hb.
  assert (Hrun : forall before after,
            let run := generate_video_with_audio_lora builtins before after in
            sr_raises run <> None
            /\ sr_events run = sr_events before
            /\ (sr_raises before = None ->
                sr_raises run = Some (name_error "AUDIO_LATENT_CHANNELS"))).
  { intros before after. cbv zeta. unfold generate_video_with_audio_lora.
    rewrite (read_config_globals builtins Hb).
    destruct (sr_raises before) as [e|] eqn:He.
    - rewrite He. split; [discriminate|]. split; [reflexivity|discriminate].
    - cbn. split; [discriminate|]. now split. }
  split; [exact Hrun|].
  intros before after args s generate out.
  destruct (Hrun (before (lora_call_of args)) (after (lora_call_of args)))
    as (Hraises & _ & Hname).
  pose proof (lora_main_exit generate args s) as [_ Hexit].
  fold out in Hexit.
  change (generate (lora_call_of args))
    with (generate_video_with_audio_lora builtins (before (lora_call_of args))
            (after (lora_call_of args))) in Hexit.
  destruct (sr_raises (generate_video_with_audio_lora builtins
                         (before (lora_call_of args)) (after (lora_call_of args))))
    as [e|] eqn:He; [|contradiction].
  split.
  - rewrite Hexit. now destruct (sx_class e).
  - intros Hbefore. specialize (Hname Hbefore). injection Hname as ->.
    apply (lora_main_exception generate args s (name_error "AUDIO_LATENT_CHANNELS"));
      [exact He|reflexivity].
Qed.

End ConfigGlobals.

(* ===================================================================== *)
(** * The properties on the samples *)
(* ===================================================================== *)

Section OnMoreSamples.
Import Samples MoreSamples.
Local Open Scope string_scope.

Lemma applied_count_at_most_half_the_keys_witness :
  (2 * 1 <= length proj_adapter)%nat.
Proof.
  apply (applied_count_at_most_half_the_keys (fs_with proj_adapter) model weights0
           "lora.safetensors" (q 1) proj_adapter 1);
    [reflexivity|vm_compute; right; left; reflexivity].
Defined.


Lemma adapter_with_half_pairs_witness :
  apply_lora_weights (fs_with down_only_adapter) model weights0
    "lora.safetensors" (q 1)
  = Outcome weights0 [LogApplying "lora.safetensors" (q 1); LogApplied 0] None.
Proof.
  apply (adapter_with_half_pairs_changes_nothing (fs_with down_only_adapter) model
           weights0 "lora.safetensors" (q 1) down_only_adapter);
    [reflexivity|reflexivity|].
  left. constructor; [split; vm_compute; reflexivity|constructor].
Defined.

Lemma merge_error_keeps_earlier_merges_witness :
  apply_lora_weights (fs_with proj_then_superscript) model weights0
    "lora.safetensors" (q 1)
  = Outcome
      (weights (fst (merge_groups model (q 1)
                       (firstn 1 (group_weights proj_then_superscript))
                       (MergeState weights0 0))))
      [LogApplying "lora.safetensors" (q 1)] (Some ValueError).
Proof.
  apply (merge_error_keeps_earlier_merges (fs_with proj_then_superscript) model
           weights0 "lora.safetensors" (q 1) proj_then_superscript
           (firstn 1 (group_weights proj_then_superscript))
           (nth 1 (group_weights proj_then_superscript) ("", empty_group))
           []
           (fst (merge_groups model (q 1)
                   (firstn 1 (group_weights proj_then_superscript))
                   (MergeState weights0 0)))
           ValueError);
    [reflexivity|reflexivity|vm_compute; reflexivity|vm_compute; reflexivity
    |vm_compute; reflexivity].
Defined.

(** The entry for [proj] stays merged when the entry after it raises. *)
Example earlier_merge_stays :
  let out := apply_lora_weights (fs_with proj_then_superscript) model weights0
               "lora.safetensors" (q 1) in
  out_raised out = Some ValueError
  /\ out_weights out !! 0%nat = Some (qtensor [[2; 3]; [5; 6]]%Z)
  /\ weights0 !! 0%nat = Some (qtensor [[1; 2]; [3; 4]]%Z).
Proof. vm_compute. repeat split; reflexivity. Qed.

Lemma resolve_does_not_raise_on_ascii_paths_witness :
  resolve model (PyStr.split_char "." "transformer_blocks.0.to_q")
  <> ResolveRaises ValueError.
Proof.
  apply (resolve_does_not_raise_on_ascii_paths model "transformer_blocks.0.to_q"
           ValueError);
    [vm_compute; reflexivity|apply Nat.leb_le; vm_compute; reflexivity].
Defined.

Lemma latent_frames_cover_the_frames_witness :
  let d := LatentDims 65 8 8 16 16 9 in
  d_num_frames d = adjust_num_frames 64
  /\ d_num_frames d = (8 * (latent_frames d - 1) + 1)%Z
  /\ (Z.abs (d_num_frames d - 64) <= 4)%Z
  /\ ((1 <= latent_frames d)%Z <-> (-3 <= 64)%Z)
  /\ ((1 <= d_num_frames d)%Z <-> (-3 <= 64)%Z).
Proof.
  apply (latent_frames_cover_the_frames 512 512 64 (LatentDims 65 8 8 16 16 9));
    vm_compute; reflexivity.
Defined.

Lemma serve_writes_the_responses_witness :
  host_stdout (fst (serve loads ServerSample.working_generate_av session
                      initial_server))
  = (host_stdout initial_server
     ++ map JsonLine (responses loads ServerSample.working_generate_av session))%list
  /\ fds (fst (serve loads ServerSample.working_generate_av session initial_server))
     = fds initial_server
  /\ (length (responses loads ServerSample.working_generate_av session)
      <= length session)%nat.
Proof.
  exact (serve_writes_the_responses loads ServerSample.working_generate_av session
           initial_server initial_server_ready).
Defined.

(** The session is answered with a pong and a result; the loop ends at the
    list, before the last ping. *)
Example session_responses :
  responses loads ServerSample.working_generate_av session
  = [JObj [("status", JStr "pong")];
     JObj [("success", JBool true);
           ("video_path", JStr "output.mp4");
           ("seed", JInt 42);
           ("mode", JStr "t2v");
           ("has_audio", JBool true)]]
  /\ host_stdout (fst (serve loads ServerSample.working_generate_av session
                         initial_server))
     = map JsonLine (responses loads ServerSample.working_generate_av session).
Proof. vm_compute. split; reflexivity. Qed.

Lemma non_object_request_witness :
  let msg := "ERROR:Server loop error: 'list' object has no attribute 'get'" in
  let out := serve loads ServerSample.working_generate_av
               [("[]" ++ newline); ("ping" ++ newline)] initial_server in
  out = (log_err msg initial_server, None)
  /\ fds (fst out) = fds initial_server
  /\ host_stdout (fst out) = host_stdout initial_server
  /\ host_stderr (fst out)
     = (host_stderr initial_server
        ++ [Text (msg ++ String (ascii_of_nat 10) "")])%list.
Proof.
  apply (non_object_request_stops_the_server loads ServerSample.working_generate_av
           initial_server ("[]" ++ newline) [("ping" ++ newline)] (JArr [])
           initial_server_ready);
    [vm_compute; reflexivity|vm_compute; reflexivity|vm_compute; reflexivity|].
  intros fields. discriminate.
Defined.

Lemma unknown_params_are_ignored_witness :
  build_kwargs [("prompt", JStr "a cat"); ("lora_path", JStr "x.safetensors")]
  = build_kwargs [("prompt", JStr "a cat")]
  /\ forall params, dict_get String.eqb "lora_path" (build_kwargs params) = None.
Proof.
  apply (unknown_params_are_ignored [("prompt", JStr "a cat")] [] "lora_path"
           (JStr "x.safetensors")).
  cbn. intuition discriminate.
Defined.

Lemma av_main_result_is_last_on_stdout_witness :
  exists added,
    Forall is_written added
    /\ snd (av_main (inr printing_generate_av) av_sample_args
              (Script HostStdout [] [])) = Returns
    /\ on_stdout (fst (av_main (inr printing_generate_av) av_sample_args
                         (Script HostStdout [] [])))
       = ([] ++ added ++ [PrintJson (av_result av_sample_args)])%list.
Proof.
  exact (av_main_result_is_last_on_stdout (inr printing_generate_av) av_sample_args
           (Script HostStdout [] []) eq_refl).
Defined.



Lemma generate_loads_the_model_once_witness :
  let calls := [CallGenerate 5 ltx_sample_request;
                CallGenerate 7 ltx_sample_request] in
  count_loads (snd (ltx_calls calls false)) = 1%nat
  /\ head (snd (ltx_calls calls false)) = Some LoadModel.
Proof.
  apply (proj1 (proj2 (generate_loads_the_model_once
                         [CallGenerate 5 ltx_sample_request;
                          CallGenerate 7 ltx_sample_request]
                         ltac:(repeat constructor; discriminate))));
    [reflexivity|discriminate].
Defined.


Lemma generate_with_lora_raises_name_error_witness :
  sr_raises (generate_video_with_audio_lora (fun _ => false)
               (ScriptRun [GenPrint "Loading text encoder..."] None)
               (ScriptRun [GenPrint "Done!"] None))
  = Some (name_error "AUDIO_LATENT_CHANNELS").
Proof.
  apply (proj2 (proj2 (proj1 (generate_with_lora_raises_name_error
                                (fun _ => false) eq_refl)
                         (ScriptRun [GenPrint "Loading text encoder..."] None)
                         (ScriptRun [GenPrint "Done!"] None)))).
  reflexivity.
Defined.

End OnMoreSamples.
